(** * RAG-APP: the chunking and retrieval pipeline of [chroma_utils.py]
      and the RAG variant classes built on it.

    The Python code is embedded shallowly:
    - [str] values whose code points are below 256 are [string]s, one
      [ascii] per code point; Python [int]s are [Z]; Python [float]s are
      exact rationals [Q] (no rounding, no NaN);
    - Python functions that can raise return a [result];
      [try ... except Exception] is [try_except];
    - the Chroma store is a finite map from collection names to the
      entries added to them; PyPDF2, the sentence embedder, MD5 and the
      vector query are parameters of the development. *)

From Stdlib Require Import ZArith QArith Qround Ascii String List Lia DecimalString.
From Stdlib Require Import DecimalPos.
From stdpp Require Import base gmap strings list sorting.

Local Open Scope Z_scope.

(** ** Python strings *)

Module PyStr.

(** [str.isspace] on one code point below 256. *)
Definition is_space (c : ascii) : bool :=
  let n := nat_of_ascii c in
  ((9 <=? n)%nat && (n <=? 13)%nat) || ((28 <=? n)%nat && (n <=? 32)%nat)
  || (n =? 133)%nat || (n =? 160)%nat.

(** [len(s)] *)
Definition len (s : string) : Z := Z.of_nat (String.length s).

(** Truth value of a string: [bool(s)]. *)
Definition truthy (s : string) : bool :=
  match s with EmptyString => false | String _ _ => true end.

Definition cons_word (w : string) (ws : list string) : list string :=
  if truthy w then w :: ws else ws.

(** One right-to-left pass of [str.split()]: the word still open at the
    left end, and the words closed so far. *)
Fixpoint split_go (s : string) : string * list string :=
  match s with
  | EmptyString => (EmptyString, [])
  | String c s' =>
      let '(w, ws) := split_go s' in
      if is_space c then (EmptyString, cons_word w ws) else (String c w, ws)
  end.

(** [s.split()]: the maximal runs of non-whitespace, in order. *)
Definition split (s : string) : list string :=
  let '(w, ws) := split_go s in cons_word w ws.

(** [sep.join(ws)] *)
Definition join (sep : string) (ws : list string) : string :=
  String.concat sep ws.

Fixpoint lstrip (s : string) : string :=
  match s with
  | EmptyString => EmptyString
  | String c s' => if is_space c then lstrip s' else s
  end.

Fixpoint rstrip (s : string) : string :=
  match s with
  | EmptyString => EmptyString
  | String c s' =>
      let r := rstrip s' in
      if is_space c && negb (truthy r) then EmptyString else String c r
  end.

(** [s.strip()] *)
Definition strip (s : string) : string := rstrip (lstrip s).

(** [s.split(sep)] for a one-character separator: every occurrence cuts,
    empty fields are kept. *)
Fixpoint split_on (sep : ascii) (s : string) : list string :=
  match s with
  | EmptyString => [EmptyString]
  | String c s' =>
      match split_on sep s' with
      | [] => [String c EmptyString]
      | w :: ws =>
          if Ascii.eqb c sep then EmptyString :: w :: ws
          else String c w :: ws
      end
  end.

(** [str(n)] for an [int]. *)
Definition str_of_int (n : Z) : string := NilZero.string_of_int (Z.to_int n).

(** The line feed, and [n] blanks of indentation. *)
Definition nl : string := String "010" EmptyString.

Fixpoint blanks (n : nat) : string :=
  match n with
  | O => EmptyString
  | S n' => String " " (blanks n')
  end.

(** A word as [split] produces them: not empty, no whitespace inside. *)
Fixpoint no_space (s : string) : bool :=
  match s with
  | EmptyString => true
  | String c s' => negb (is_space c) && no_space s'
  end.

Definition is_word (w : string) : Prop := truthy w = true /\ no_space w = true.

End PyStr.

(** ** Python lists *)

Module PyList.

(** [l[k:]] *)
Definition slice_from {A} (k : Z) (l : list A) : list A :=
  let n := Z.of_nat (length l) in
  let start := if k <? 0 then Z.max (n + k) 0 else Z.min k n in
  drop (Z.to_nat start) l.

(** [l[:k]] *)
Definition slice_to {A} (k : Z) (l : list A) : list A :=
  let n := Z.of_nat (length l) in
  let stop := if k <? 0 then Z.max (n + k) 0 else Z.min k n in
  take (Z.to_nat stop) l.

(** [len(l)] *)
Definition len {A} (l : list A) : Z := Z.of_nat (length l).

(** Truth value of a list: [bool(l)]. *)
Definition truthy {A} (l : list A) : bool :=
  match l with [] => false | _ :: _ => true end.

End PyList.

(** ** [chunk_text] *)

Module Chunker.

Import PyStr.

(** A metadata entry, [{"page_numbers": [...]}]. *)
Record chunk_meta := { page_numbers : list Z }.

(** The local variables of [chunk_text]. *)
Record locals := {
  chunks : list string;
  chunk_metadata : list chunk_meta;
  current_chunk : list string;
  current_length : Z;
  current_page_numbers : list Z;
  word_count : Z
}.

Definition init : locals :=
  {| chunks := []; chunk_metadata := []; current_chunk := [];
     current_length := 0; current_page_numbers := []; word_count := 0 |}.

(** [not current_page_numbers or current_page_numbers[-1] != page_num] *)
Definition new_page (pages : list Z) (page_num : Z) : bool :=
  match last pages with
  | None => true
  | Some p => negb (p =? page_num)
  end.

(** [sum(len(w) + 1 for w in current_chunk)] *)
Definition sum_len (ws : list string) : Z :=
  foldr (fun w acc => (len w + 1) + acc) 0 ws.

(** The body of the inner loop, lines 54-67. *)
Definition word_step (max_length overlap page_num : Z)
    (st : locals) (word : string) : locals :=
  let current_length := current_length st + (len word + 1) in
  let current_chunk := current_chunk st ++ [word] in
  let word_count := word_count st + 1 in
  let current_page_numbers :=
    if new_page (current_page_numbers st) page_num
    then current_page_numbers st ++ [page_num]
    else current_page_numbers st in
  if max_length <=? word_count then
    let chunk_text := join " " current_chunk in
    let kept :=
      if overlap <? PyList.len current_chunk
      then PyList.slice_from (- overlap) current_chunk
      else current_chunk in
    {| chunks := chunks st ++ [chunk_text];
       chunk_metadata :=
         chunk_metadata st ++ [{| page_numbers := current_page_numbers |}];
       current_chunk := kept;
       current_length := sum_len kept;
       current_page_numbers :=
         if PyList.truthy current_page_numbers
         then PyList.slice_from (-1) current_page_numbers else [];
       word_count := PyList.len kept |}
  else
    {| chunks := chunks st;
       chunk_metadata := chunk_metadata st;
       current_chunk := current_chunk;
       current_length := current_length;
       current_page_numbers := current_page_numbers;
       word_count := word_count |}.

(** The body of the outer loop, lines 52-69. *)
Definition page_step (max_length overlap : Z)
    (st : locals) (page : string * Z) : locals :=
  let '(text, page_num) := page in
  let words := split text in
  let st := foldl (word_step max_length overlap page_num) st words in
  if PyList.truthy (current_chunk st) then st
  else
    {| chunks := chunks st;
       chunk_metadata := chunk_metadata st;
       current_chunk := current_chunk st;
       current_length := current_length st;
       current_page_numbers := [];
       word_count := word_count st |}.

(** Lines 71-75: what is left in [current_chunk] becomes the last chunk. *)
Definition flush (st : locals) : list string * list chunk_meta :=
  if PyList.truthy (current_chunk st) then
    let chunk_text := join " " (current_chunk st) in
    if truthy (strip chunk_text) then
      (chunks st ++ [chunk_text],
       chunk_metadata st ++ [{| page_numbers := current_page_numbers st |}])
    else (chunks st, chunk_metadata st)
  else (chunks st, chunk_metadata st).

Definition run (max_length overlap : Z) (page_texts : list (string * Z))
  : locals :=
  foldl (page_step max_length overlap) init page_texts.

Definition chunk_text (page_texts : list (string * Z))
    (max_length overlap : Z) : list string * list chunk_meta :=
  flush (run max_length overlap page_texts).

(** [chunk_text(page_texts)] with the defaults of the signature. *)
Definition chunk_text_default (page_texts : list (string * Z)) :=
  chunk_text page_texts 500 100.

End Chunker.

(** ** Exceptions, and Python functions as computations *)

Module Py.

(** An exception below [Exception]: its class and [str(e)]. *)
Record exn := Exn { exn_class : string; exn_str : string }.

Inductive result (A : Type) : Type :=
  | Ok (a : A)
  | Raise (e : exn).
Arguments Ok {A} a.
Arguments Raise {A} e.

#[global] Instance result_ret : MRet result := fun A a => Ok a.
#[global] Instance result_bind : MBind result := fun A B k m =>
  match m with Ok a => k a | Raise e => Raise e end.

(** A computation on a mutable object (or store) of type [S]. *)
Definition M (S A : Type) : Type := S -> S * result A.

#[global] Instance M_ret {S} : MRet (M S) := fun A a s => (s, Ok a).
#[global] Instance M_bind {S} : MBind (M S) := fun A B k m s =>
  match m s with
  | (s', Ok a) => k a s'
  | (s', Raise e) => (s', Raise e)
  end.

(** A call that touches no state. *)
Definition lift {S A} (r : result A) : M S A := fun s => (s, r).

(** [try: body except Exception as e: handler(e)]; what the body did to
    the state before it raised stays done. *)
Definition try_except {S A} (body : M S A) (handler : exn -> M S A) : M S A :=
  fun s =>
    match body s with
    | (s', Ok a) => (s', Ok a)
    | (s', Raise e) => handler e s'
    end.

(** The same for code that touches no state. *)
Definition try_except_pure {A} (body : result A) (handler : exn -> result A)
  : result A :=
  match body with
  | Ok a => Ok a
  | Raise e => handler e
  end.

(** [for x in xs: acc = body(acc, x)], stopping at the first exception. *)
Fixpoint for_each {A B} (body : A -> B -> result A) (acc : A) (xs : list B)
  : result A :=
  match xs with
  | [] => Ok acc
  | x :: xs' =>
      match body acc x with
      | Ok acc' => for_each body acc' xs'
      | Raise e => Raise e
      end
  end.

(** The same loop over a stateful body. *)
Fixpoint for_each_M {S A B} (body : A -> B -> M S A) (acc : A) (xs : list B)
  : M S A :=
  match xs with
  | [] => mret acc
  | x :: xs' => acc' ← body acc x; for_each_M body acc' xs'
  end.

(** [l[i]] for [0 <= i]. *)
Definition index {A} (l : list A) (i : Z) : result A :=
  match (if i <? 0 then None else l !! Z.to_nat i) with
  | Some a => Ok a
  | None => Raise (Exn "IndexError" "list index out of range")
  end.

(** [int(s)] on a [str]: surrounding whitespace, a sign, decimal digits
    with single underscores between them. *)
Definition digit_val (c : ascii) : option Z :=
  let n := nat_of_ascii c in
  if ((48 <=? n)%nat && (n <=? 57)%nat) then Some (Z.of_nat n - 48) else None.

Fixpoint parse_digits (acc : Z) (after_digit : bool) (s : string) : option Z :=
  match s with
  | EmptyString => if after_digit then Some acc else None
  | String c s' =>
      match digit_val c with
      | Some d => parse_digits (10 * acc + d) true s'
      | None =>
          if Ascii.eqb c "_" && after_digit then parse_digits acc false s'
          else None
      end
  end.

Definition int_of_str (s : string) : result Z :=
  let t := PyStr.strip s in
  let parsed :=
    match t with
    | String "+" r => parse_digits 0 false r
    | String "-" r => Z.opp <$> parse_digits 0 false r
    | _ => parse_digits 0 false t
    end in
  match parsed with
  | Some n => Ok n
  | None => Raise (Exn "ValueError" "invalid literal for int() with base 10")
  end.

End Py.

(** ** Binary file objects *)

Module File.

Import Py.

(** An open or closed binary stream over [content], read up to [pos]. *)
Record file := { closed : bool; content : string; pos : nat }.

Definition closed_error : exn :=
  Exn "ValueError" "I/O operation on closed file.".

(** [f.seek(0)] *)
Definition seek0 : M file unit := fun f =>
  if closed f then (f, Raise closed_error)
  else ({| closed := false; content := content f; pos := 0 |}, Ok tt).

(** [f.read()]: everything from the current position on. *)
Definition read : M file string := fun f =>
  if closed f then (f, Raise closed_error)
  else
    let n := String.length (content f) in
    ({| closed := false; content := content f; pos := Nat.max (pos f) n |},
     Ok (String.substring (pos f) (n - pos f) (content f))).

End File.

(** ** The Chroma store *)

Module Chroma.

Import Py.

(** One stored chunk. *)
Record entry := {
  entry_id : string;
  entry_document : string;
  entry_embedding : list Q;
  entry_metadata : gmap string string
}.

(** A collection object: a handle on the collection of that name. *)
Record collection := { name : string }.

(** The calls of the client that change or read the store. *)
Inductive call :=
  | GetOrCreate (name : string)
  | Count (name : string)
  | Add (name : string) (ids : list string).

(** What [collection.query(..., include=["documents", "metadatas",
    "distances"])] returns: one inner list per query embedding. *)
Record query_result := {
  documents : list (list (option string));
  metadatas : list (list (option (gmap string string)));
  distances : list (list (option Q))
}.

End Chroma.

(** ** The libraries the pipeline calls *)

(** The outcome of [page.extract_text()]. *)
Definition page : Type := Py.result (option string).

Class Externals := {
  (** [hashlib.md5(data).hexdigest()] *)
  md5_hexdigest : string -> string;
  (** [PyPDF2.PdfReader(stream).pages] on a stream with these bytes, and
      where the reader leaves the stream. *)
  pdf_reader : string -> Py.result (list page);
  pdf_reader_tell : string -> nat;
  (** [os.path.normpath] *)
  normpath : string -> string;
  (** [embedder.encode(texts).tolist()] *)
  encode : list string -> Py.result (list (list Q));
  (** The exception, if any, with which Chroma answers a call. *)
  chroma_raises : Chroma.call -> option Py.exn;
  (** [collection.query(query_embeddings=..., n_results=...)] *)
  chroma_query :
    Chroma.collection -> list (list Q) -> Z -> Py.result Chroma.query_result;
  (** [f"{x:.3f}"] *)
  format_3f : Q -> string;
  (** [client.chat.completions.create(model, messages=[user prompt],
      max_tokens, temperature).choices[0].message.content] *)
  chat_completion : string -> string -> Z -> Q -> Py.result string
}.

(** ** [chroma_utils.py] *)

Module ChromaUtils.

Import Py File Chroma.

Section WithExternals.

Context `{Externals}.

(** *** The client *)

Definition get_or_create_collection (name : string)
  : M (gmap string (list entry)) collection := fun db =>
  match chroma_raises (GetOrCreate name) with
  | Some e => (db, Raise e)
  | None =>
      match db !! name with
      | Some _ => (db, Ok {| name := name |})
      | None => (<[name := []]> db, Ok {| name := name |})
      end
  end.

Definition not_found : exn := Exn "NotFoundError" "Collection does not exist.".

(** [collection.count()] *)
Definition count (c : collection) : M (gmap string (list entry)) Z := fun db =>
  match chroma_raises (Count (name c)) with
  | Some e => (db, Raise e)
  | None =>
      match db !! name c with
      | Some es => (db, Ok (PyList.len es))
      | None => (db, Raise not_found)
      end
  end.

Fixpoint zip_entries (ids documents : list string) (embeddings : list (list Q))
    (metadatas : list (gmap string string)) : list entry :=
  match ids, documents, embeddings, metadatas with
  | i :: ids, d :: documents, e :: embeddings, m :: metadatas =>
      {| entry_id := i; entry_document := d;
         entry_embedding := e; entry_metadata := m |}
      :: zip_entries ids documents embeddings metadatas
  | _, _, _, _ => []
  end.

Definition has_id (es : list entry) (i : string) : bool :=
  existsb (fun e => String.eqb (entry_id e) i) es.

(** [collection.add(documents, embeddings, ids, metadatas)]: the ids
    must be distinct and the four lists agree in length; ids already
    stored are skipped. *)
Definition add (c : collection) (documents : list string)
    (embeddings : list (list Q)) (ids : list string)
    (metadatas : list (gmap string string))
  : M (gmap string (list entry)) unit := fun db =>
  match chroma_raises (Add (name c) ids) with
  | Some e => (db, Raise e)
  | None =>
      let n := length ids in
      if negb (bool_decide (NoDup ids))
      then (db, Raise (Exn "DuplicateIDError" "Expected IDs to be unique"))
      else if negb ((length documents =? n)%nat && (length embeddings =? n)%nat
               && (length metadatas =? n)%nat)
      then (db, Raise (Exn "ValueError" "Unequal lengths"))
      else
        match db !! name c with
        | None => (db, Raise not_found)
        | Some es =>
            let fresh :=
              filter (fun e => has_id es (entry_id e) = false)
                     (zip_entries ids documents embeddings metadatas) in
            (<[name c := es ++ fresh]> db, Ok tt)
        end
  end.

(** *** [get_pdf_hash] *)

Definition get_pdf_hash_body : M file (option string) :=
  data ← read;
  mret (Some (md5_hexdigest data)).

Definition get_pdf_hash : M file (option string) :=
  try_except get_pdf_hash_body (fun e => mret None).

(** *** [extract_pdf_text_with_pages] *)

(** [PyPDF2.PdfReader(pdf_file)] and its [pages]. *)
Definition PdfReader : M file (list page) := fun f =>
  if closed f then (f, Raise closed_error)
  else
    ({| closed := false; content := content f;
        pos := pdf_reader_tell (content f) |},
     pdf_reader (content f)).

Definition extract_pdf_text_with_pages_body : M file (list (string * Z)) :=
  _ ← seek0;
  pages ← PdfReader;
  for_each_M
    (fun page_texts page_num =>
       p ← lift (index pages page_num);
       extracted ← lift p;
       let text := default EmptyString extracted in
       let text := PyStr.strip text in
       mret (page_texts ++ [(text, page_num + 1)]))
    [] (seqZ 0 (PyList.len pages)).

Definition extract_pdf_text_with_pages : M file (list (string * Z)) :=
  try_except extract_pdf_text_with_pages_body (fun e => mret []).

(** *** [add_documents] *)

Definition on_db {A} (m : M (gmap string (list entry)) A)
  : M (gmap string (list entry) * file) A := fun s =>
  let '(db', r) := m s.1 in ((db', s.2), r).

Definition on_file {A} (m : M file A)
  : M (gmap string (list entry) * file) A := fun s =>
  let '(f', r) := m s.2 in ((s.1, f'), r).

(** The metadata dict stored with chunk [id]. *)
Definition stored_metadata (filename id : string) (meta : Chunker.chunk_meta)
  : gmap string string :=
  {[ "chunk_id"%string := id;
     "page_numbers"%string :=
       PyStr.join "," (map PyStr.str_of_int (Chunker.page_numbers meta));
     "filename"%string := filename ]}.

(** [[f"{pdf_hash}_{i}" for i in range(len(chunks))]] *)
Definition chunk_ids (pdf_hash : string) (chunks : list string) : list string :=
  map (fun i => pdf_hash +:+ "_" +:+ PyStr.str_of_int i)
      (seqZ 0 (PyList.len chunks)).

(** The list comprehension of lines 110-113. *)
Definition chunk_metadatas (filename : string) (ids : list string)
    (chunk_metadata : list Chunker.chunk_meta) : list (gmap string string) :=
  zip_with (fun id meta => stored_metadata filename id meta) ids chunk_metadata.

(** Lines 105-126, once the chunks are there. *)
Definition store_chunks (filename pdf_hash : string) (c : collection)
    (chunks : list string) (chunk_metadata : list Chunker.chunk_meta)
  : M (gmap string (list entry) * file) (option collection * bool) :=
  let ids := chunk_ids pdf_hash chunks in
  embeddings ← lift (encode chunks);
  let metadatas := chunk_metadatas filename ids chunk_metadata in
  try_except
    (_ ← on_db (add c chunks embeddings ids metadatas);
     mret (Some c, true))
    (fun e => mret (Some c, false)).

Definition add_documents_body (filename : string)
  : M (gmap string (list entry) * file) (option collection * bool) :=
  let filename := normpath filename in
  _ ← on_file seek0;
  pdf_hash ← on_file get_pdf_hash;
  match pdf_hash with
  | None => mret (None, false)
  | Some pdf_hash =>
      if negb (PyStr.truthy pdf_hash) then mret (None, false)
      else
        let collection_name := "pdf_" +:+ pdf_hash in
        c ← on_db (get_or_create_collection collection_name);
        n ← on_db (count c);
        if 0 <? n then
          _ ← on_db (count c);
          mret (Some c, false)
        else
          page_texts ← on_file extract_pdf_text_with_pages;
          if negb (PyList.truthy page_texts) then mret (Some c, false)
          else
            let '(chunks, chunk_metadata) :=
              Chunker.chunk_text page_texts 500 100 in
            if negb (PyList.truthy chunks) then mret (Some c, false)
            else store_chunks filename pdf_hash c chunks chunk_metadata
  end.

(** [add_documents(pdf_file, filename)] on the store and the file. *)
Definition add_documents (filename : string)
  : M (gmap string (list entry) * file) (option collection * bool) :=
  try_except (add_documents_body filename) (fun e => mret (None, false)).

(** *** [query_collections] *)

(** One element of the list [query_collections] returns. *)
Record result_metadata := {
  chunk_id : string;
  page_numbers : list Z;
  filename : string
}.

Record hit := {
  document : string;
  metadata : result_metadata;
  similarity : Q
}.

(** [d[key]] *)
Definition getitem (d : gmap string string) (key : string) : result string :=
  match d !! key with
  | Some v => Ok v
  | None => Raise (Exn "KeyError" key)
  end.

Definition none_type_error : exn :=
  Exn "TypeError" "unsupported operand for NoneType".

(** An operation that needs its operand not to be [None]. *)
Definition not_none {A} (x : option A) : result A :=
  match x with
  | Some a => Ok a
  | None => Raise none_type_error
  end.

(** [1 - dist / 2 if dist is not None else 0] *)
Definition similarity_of (dist : option Q) : Q :=
  match dist with
  | Some d => (1 - d / 2)%Q
  | None => 0%Q
  end.

(** The dict built for one [(doc, meta, sim)] of the [zip], lines 226-234. *)
Definition parse_result (doc : string) (meta : option (gmap string string))
    (sim : Q) : result hit :=
  meta ← not_none meta;
  cid ← getitem meta "chunk_id";
  pn ← getitem meta "page_numbers";
  pages ← mapM int_of_str
            (filter (fun p => PyStr.truthy p = true) (PyStr.split_on "," pn));
  mret {| document := doc;
          metadata := {| chunk_id := cid; page_numbers := pages;
                         filename := default "unknown"%string
                                       (meta !! "filename"%string) |};
          similarity := sim |}.

(** [zip(documents, metadatas, similarities)] *)
Fixpoint zip3 {A B C} (xs : list A) (ys : list B) (zs : list C)
  : list (A * B * C) :=
  match xs, ys, zs with
  | x :: xs, y :: ys, z :: zs => (x, y, z) :: zip3 xs ys zs
  | _, _, _ => []
  end.

(** The body of the loop over the collections, lines 211-236. *)
Definition query_one (query_embedding : list (list Q)) (top_k : Z)
    (c : collection) : result (list hit) :=
  query_results ← chroma_query c query_embedding top_k;
  documents ← index (documents query_results) 0;
  metadatas ← index (metadatas query_results) 0;
  distances ← index (distances query_results) 0;
  (* [len(doc)] and [doc[:50] + '...'] in the two prints *)
  documents ← mapM not_none documents;
  let similarities := map similarity_of distances in
  (* [[1 - d / 2 for d in distances]] in the print of line 223 *)
  _ ← mapM (fun d => d ← not_none d; mret (1 - d / 2)%Q) distances;
  mapM (fun '(doc, meta, sim) => parse_result doc meta sim)
       (zip3 documents metadatas similarities).

(** [sorted(results, key=lambda x: x["similarity"], reverse=True)]:
    stable, largest similarity first. *)
Fixpoint insert_desc (x : hit) (l : list hit) : list hit :=
  match l with
  | [] => [x]
  | y :: l' =>
      if Qle_bool (similarity y) (similarity x) then x :: y :: l'
      else y :: insert_desc x l'
  end.

Definition sorted_desc (l : list hit) : list hit := foldr insert_desc [] l.

Definition query_collections_body (query : string)
    (collections : list collection) (top_k : Z) : result (list hit) :=
  query_embedding ← encode [query];
  _ ← index query_embedding 0;
  results ←
    for_each
      (fun results c =>
         parsed_results ← query_one query_embedding top_k c;
         mret (results ++ parsed_results))
      [] collections;
  mret (PyList.slice_to top_k (sorted_desc results)).

Definition query_collections (query : string) (collections : list collection)
    (top_k : Z) : result (list hit) :=
  try_except_pure (query_collections_body query collections top_k)
                  (fun e => Ok []).

End WithExternals.

End ChromaUtils.

(** ** [collections.deque] with [maxlen] *)

Module Deque.

Import Py.

Record deque (A : Type) := { maxlen : option Z; items : list A }.
Arguments maxlen {A} d.
Arguments items {A} d.

(** [deque(maxlen=n)] *)
Definition new {A} (maxlen : option Z) : result (deque A) :=
  match maxlen with
  | Some n =>
      if n <? 0 then Raise (Exn "ValueError" "maxlen must be non-negative")
      else Ok {| maxlen := Some n; items := [] |}
  | None => Ok {| maxlen := None; items := [] |}
  end.

(** [d.append(x)]: a full deque drops its oldest item. *)
Definition append {A} (x : A) (d : deque A) : deque A :=
  let items' := items d ++ [x] in
  {| maxlen := maxlen d;
     items :=
       match maxlen d with
       | Some n => if n <? PyList.len items' then drop 1 items' else items'
       | None => items'
       end |}.

End Deque.

(** ** The RAG variants *)

(** What a variant answers. [retrieved] is a ghost field: the hits whose
    text the call appended to its raw response and context, in that
    order; the Python functions return [text] only. *)
Record reply := {
  text : string;
  retrieved : list ChromaUtils.hit
}.

(** [f"Pages {', '.join(map(str, page_numbers))}" if page_numbers else
    "No page info"] *)
Definition page_ref (page_numbers : list Z) : string :=
  if PyList.truthy page_numbers
  then "Pages " +:+ PyStr.join ", " (map PyStr.str_of_int page_numbers)
  else "No page info".

Module MultiQueryRAG.

Import Py Deque Chroma ChromaUtils PyStr.

Record t := { history : deque (list string * string) }.

(** [MultiQueryRAG(max_history)] *)
Definition init (max_history : Z) : result t :=
  h ← Deque.new (Some max_history); mret {| history := h |}.

Definition add_to_history (queries : list string) (response : string)
  : M t unit := fun self =>
  ({| history := append (queries, response) (history self) |}, Ok tt).

Definition get_history_context : M t string := fun self =>
  if negb (PyList.truthy (items (history self))) then (self, Ok EmptyString)
  else
    (self,
     Ok (foldl (fun context '(i, (queries, response)) =>
                  context +:+ "Turn " +:+ str_of_int i +:+ " - Queries: "
                    +:+ join ", " queries +:+ nl +:+ "Response: "
                    +:+ response +:+ nl +:+ nl)
               ("Conversation History:" +:+ nl)
               (zip (seqZ 1 (PyList.len (items (history self))))
                    (items (history self))))).

Section WithExternals.

Context `{Externals}.

(** The variables the loop over one query's results updates. *)
Record chunk_locals := {
  chunk_ids : gset string;
  query_results : list hit;
  raw_response : string;
  context : string
}.

(** The f-string of line 96. *)
Definition chunk_text_of (res : hit) : string :=
  "Chunk " +:+ chunk_id (metadata res) +:+ " (Similarity: "
    +:+ format_3f (similarity res) +:+ ", "
    +:+ page_ref (page_numbers (metadata res)) +:+ "):" +:+ nl
    +:+ document res +:+ nl.

(** Lines 84-98. *)
Definition chunk_step (query : string) (st : chunk_locals) (res : hit)
  : chunk_locals :=
  let cid := chunk_id (metadata res) in
  if bool_decide (cid ∈ chunk_ids st) then st
  else
    let doc := document res in
    let ref := page_ref (page_numbers (metadata res)) in
    let chunk_text := chunk_text_of res in
    {| chunk_ids := {[cid]} ∪ chunk_ids st;
       query_results := query_results st ++ [res];
       raw_response := raw_response st +:+ chunk_text;
       context :=
         context st +:+ "Query: " +:+ query +:+ nl +:+ "Document " +:+ cid
           +:+ " (" +:+ ref +:+ "): " +:+ doc +:+ nl +:+ nl |}.

(** The variables the loop over the queries updates. *)
Record query_locals := {
  q_chunk_ids : gset string;
  all_results : list hit;
  q_context : string;
  q_raw_response : string
}.

(** Lines 75-99. *)
Definition query_step (collections : list collection) (top_k : Z)
    (st : query_locals) (query : string) : result query_locals :=
  results ← query_collections query collections top_k;
  if negb (PyList.truthy results) then
    mret {| q_chunk_ids := q_chunk_ids st;
            all_results := all_results st;
            q_context := q_context st;
            q_raw_response :=
              q_raw_response st +:+ nl +:+ "Query: " +:+ query +:+ nl
                +:+ "No relevant documents found." +:+ nl |}
  else
    let st' :=
      foldl (chunk_step query)
            {| chunk_ids := q_chunk_ids st;
               query_results := [];
               raw_response :=
                 q_raw_response st +:+ nl +:+ "Query: " +:+ query +:+ nl;
               context := q_context st |}
            results in
    mret {| q_chunk_ids := chunk_ids st';
            all_results := all_results st ++ query_results st';
            q_context := context st';
            q_raw_response := raw_response st' |}.

Definition prompt (history_context context : string) (queries : list string)
  : string :=
  "Conversation History:" +:+ nl
  +:+ blanks 24 +:+ history_context +:+ nl
  +:+ nl
  +:+ blanks 24 +:+ "Retrieved Context:" +:+ nl
  +:+ blanks 24 +:+ context +:+ nl
  +:+ nl
  +:+ blanks 24 +:+ "Current Questions: " +:+ join ", " queries +:+ nl
  +:+ blanks 24 +:+ "Provide a detailed, cohesive answer addressing all questions based on the retrieved context " +:+ nl
  +:+ blanks 24 +:+ "and conversation history, referencing relevant page numbers if applicable:" +:+ nl
  +:+ blanks 24.

Definition multi_query_rag_body (queries : list string)
    (collections : list collection) (top_k : Z) (fine_tune : bool)
  : M t reply :=
  if negb (PyList.truthy collections) then
    mret {| text := "No document collections available to query.";
            retrieved := [] |}
  else if negb (PyList.truthy queries) then
    mret {| text := "No queries provided."; retrieved := [] |}
  else
    st ← lift (for_each (query_step collections top_k)
                 {| q_chunk_ids := ∅; all_results := [];
                    q_context := EmptyString;
                    q_raw_response := EmptyString |}
                 queries);
    let raw_response := q_raw_response st in
    if negb (PyList.truthy (all_results st)) then
      _ ← add_to_history queries raw_response;
      mret {| text := nl +:+ "Raw Multi-Query RAG Response:" +:+ nl +:+ nl
                        +:+ raw_response;
              retrieved := all_results st |}
    else if negb fine_tune then
      _ ← add_to_history queries raw_response;
      mret {| text := nl +:+ "Raw Multi-Query RAG Response:" +:+ nl
                        +:+ raw_response +:+ nl;
              retrieved := all_results st |}
    else
      history_context ← get_history_context;
      response ← lift (chat_completion "gpt-4o-mini"
                         (prompt history_context (q_context st) queries)
                         1000 (10007 # 10));
      let answer := strip response in
      _ ← add_to_history queries answer;
      mret {| text := nl +:+ "Fine-Tuned Multi-Query RAG Answer:" +:+ nl
                        +:+ answer +:+ nl;
              retrieved := all_results st |}.

Definition multi_query_rag (queries : list string)
    (collections : list collection) (top_k : Z) (fine_tune : bool)
  : M t reply :=
  try_except (multi_query_rag_body queries collections top_k fine_tune)
    (fun e => mret {| text := "Error processing queries: " +:+ exn_str e;
                      retrieved := [] |}).

End WithExternals.

End MultiQueryRAG.

Module MultiDocumentRAG.

Import Py Deque Chroma ChromaUtils PyStr.

Record t := { history : deque (string * string) }.

(** [MultiDocumentRAG(max_history)] *)
Definition init (max_history : Z) : result t :=
  h ← Deque.new (Some max_history); mret {| history := h |}.

Definition add_to_history (query response : string) : M t unit := fun self =>
  ({| history := append (query, response) (history self) |}, Ok tt).

Definition get_history_context : M t string := fun self =>
  if negb (PyList.truthy (items (history self))) then (self, Ok EmptyString)
  else
    (self,
     Ok (foldl (fun context '(i, (query, response)) =>
                  context +:+ "Turn " +:+ str_of_int i +:+ " - Query: "
                    +:+ query +:+ nl +:+ "Response: "
                    +:+ response +:+ nl +:+ nl)
               ("Conversation History:" +:+ nl)
               (zip (seqZ 1 (PyList.len (items (history self))))
                    (items (history self))))).

Section WithExternals.

Context `{Externals}.

(** The variables the loop over the results updates; [shown] is the ghost
    list of the results whose [chunk_text] went into [raw_response]. *)
Record chunk_locals := {
  chunk_ids : gset string;
  raw_response : string;
  context : string;
  shown : list hit
}.

(** The f-string of line 93, for the result at position [i]. *)
Definition chunk_text_of (i : Z) (result : hit) : string :=
  "Chunk " +:+ str_of_int (i + 1) +:+ " (Similarity: "
    +:+ format_3f (similarity result) +:+ ", "
    +:+ page_ref (page_numbers (metadata result)) +:+ ", PDF: "
    +:+ filename (metadata result) +:+ "):" +:+ nl
    +:+ document result +:+ nl.

(** Lines 80-95, for the result at position [i] of [enumerate(results)]. *)
Definition chunk_step (st : chunk_locals) (ir : Z * hit) : chunk_locals :=
  let '(i, result) := ir in
  let cid := chunk_id (metadata result) in
  if bool_decide (cid ∈ chunk_ids st) then st
  else
    let doc := document result in
    let metadata := metadata result in
    let ref := page_ref (page_numbers metadata) in
    let filename := filename metadata in
    let chunk_text := chunk_text_of i result in
    {| chunk_ids := {[cid]} ∪ chunk_ids st;
       raw_response := raw_response st +:+ chunk_text;
       context :=
         context st +:+ "Document " +:+ str_of_int (i + 1) +:+ " (" +:+ ref
           +:+ ", PDF: " +:+ filename +:+ "):" +:+ nl +:+ doc +:+ nl +:+ nl;
       shown := shown st ++ [result] |}.

Definition prompt (history_context context query : string) : string :=
  "Conversation History:" +:+ nl
  +:+ blanks 32 +:+ history_context +:+ nl
  +:+ nl
  +:+ blanks 32 +:+ "Retrieved Context:" +:+ nl
  +:+ blanks 32 +:+ context +:+ nl
  +:+ nl
  +:+ blanks 32 +:+ "Current Question: " +:+ query +:+ nl
  +:+ blanks 32 +:+ "Provide a detailed answer based on the retrieved context and conversation history," +:+ nl
  +:+ blanks 32 +:+ "referencing relevant page numbers and PDF filenames if applicable. " +:+ nl
  +:+ blanks 32 +:+ "Note that some PDFs may contain images (e.g., graphs) not included in the context:" +:+ nl
  +:+ blanks 24.

Definition multi_document_rag_body (query : string)
    (collections : list collection) (top_k : Z) (fine_tune : bool)
  : M t reply :=
  if negb (PyList.truthy collections) then
    mret {| text := "No document collections available to query.";
            retrieved := [] |}
  else if negb (truthy query) then
    mret {| text := "No query provided."; retrieved := [] |}
  else
    results ← lift (query_collections query collections top_k);
    if negb (PyList.truthy results) then
      mret {| text := "No relevant documents found for the query.";
              retrieved := [] |}
    else
      let st :=
        foldl chunk_step
              {| chunk_ids := ∅; raw_response := EmptyString;
                 context := EmptyString; shown := [] |}
              (zip (seqZ 0 (PyList.len results)) results) in
      let raw_response := raw_response st in
      if bool_decide (chunk_ids st = ∅) then
        _ ← add_to_history query raw_response;
        mret {| text := nl +:+ "Raw Multi-Document RAG Response:" +:+ nl
                          +:+ raw_response +:+ nl
                          +:+ "Note: If relevant content is in images (e.g., graphs), consider OCR for text extraction.";
                retrieved := shown st |}
      else if negb fine_tune then
        _ ← add_to_history query raw_response;
        mret {| text := nl +:+ "Raw Multi-Document RAG Response:" +:+ nl
                          +:+ raw_response;
                retrieved := shown st |}
      else
        history_context ← get_history_context;
        response ← lift (chat_completion "gpt-4o-mini"
                           (prompt history_context (context st) query)
                           1000 (7 # 10));
        let answer := strip response in
        _ ← add_to_history query answer;
        mret {| text := nl +:+ "Fine-Tuned Multi-Document RAG Answer:" +:+ nl
                          +:+ answer;
                retrieved := shown st |}.

Definition multi_document_rag (query : string)
    (collections : list collection) (top_k : Z) (fine_tune : bool)
  : M t reply :=
  try_except (multi_document_rag_body query collections top_k fine_tune)
    (fun e => mret {| text := "Error processing query: " +:+ exn_str e;
                      retrieved := [] |}).

End WithExternals.

End MultiDocumentRAG.

(** The other variants keep their history the same way. *)

Module HierarchicalRAG.

Import Py Deque.

Record t := { history : deque (string * string) }.

Definition init (max_history : Z) : result t :=
  h ← Deque.new (Some max_history); mret {| history := h |}.

Definition add_to_history (query response : string) : M t unit := fun self =>
  ({| history := append (query, response) (history self) |}, Ok tt).

End HierarchicalRAG.

Module StructuredOutputRAG.

Import Py Deque.

Record t := { history : deque (string * string) }.

Definition init (max_history : Z) : result t :=
  h ← Deque.new (Some max_history); mret {| history := h |}.

Definition add_to_history (query response : string) : M t unit := fun self =>
  ({| history := append (query, response) (history self) |}, Ok tt).

End StructuredOutputRAG.

Module AgenticRAG.

Import Py Deque.

Record t := { history : deque (string * string) }.

Definition init (max_history : Z) : result t :=
  h ← Deque.new (Some max_history); mret {| history := h |}.

Definition add_to_history (query response : string) : M t unit := fun self =>
  ({| history := append (query, response) (history self) |}, Ok tt).

End AgenticRAG.

Module ConversationalRAG.

Import Py Deque.

Record t := { history : deque (string * string) }.

Definition init (max_history : Z) : result t :=
  h ← Deque.new (Some max_history); mret {| history := h |}.

Definition add_to_history (query response : string) : M t unit := fun self =>
  ({| history := append (query, response) (history self) |}, Ok tt).

End ConversationalRAG.

(** ** A small instance of the libraries, to run the pipeline on *)

Module Toy.

Import Py Chroma.

(** The first 32 characters, padded with zeros. *)
Fixpoint take_pad (n : nat) (s : string) : string :=
  match n with
  | O => EmptyString
  | S n' =>
      match s with
      | EmptyString => String "0" (take_pad n' EmptyString)
      | String c s' => String c (take_pad n' s')
      end
  end.

(** Pages are separated by a bar; an empty page has no text layer and a
    page reading [!] cannot be decoded. *)
Definition page_of (t : string) : page :=
  if String.eqb t "!" then Raise (Exn "PdfReadError" "cannot decode page")
  else if PyStr.truthy t then Ok (Some t) else Ok None.

Definition reader (data : string) : result (list page) :=
  if PyStr.truthy data then Ok (map page_of (PyStr.split_on "|" data))
  else Raise (Exn "EmptyFileError" "Cannot read an empty file").

(** Three decimals, rounded down. *)
Definition fmt3 (q : Q) : string :=
  let m := Qfloor (q * 1000) in
  PyStr.str_of_int (m / 1000) +:+ "."
    +:+ PyStr.str_of_int (m / 100 mod 10)
    +:+ PyStr.str_of_int (m / 10 mod 10)
    +:+ PyStr.str_of_int (m mod 10).

Definition externals (faults : call -> option exn)
    (query : collection -> list (list Q) -> Z -> result query_result)
  : Externals :=
  {| md5_hexdigest := take_pad 32;
     pdf_reader := reader;
     pdf_reader_tell := String.length;
     normpath := fun path => path;
     encode := fun texts => Ok (map (fun t => [inject_Z (PyStr.len t)]) texts);
     chroma_raises := faults;
     chroma_query := query;
     format_3f := fmt3;
     chat_completion := fun _ _ _ _ => Ok "answer"%string |}.

Definition no_faults : call -> option exn := fun _ => None.


Definition no_query : collection -> list (list Q) -> Z -> result query_result :=
  fun _ _ _ => Raise (Exn "NotFoundError" "Collection does not exist.").

(** A query that answers with one chunk at the given distance. *)
Definition one_chunk (cid : string) (dist : option Q)
  : collection -> list (list Q) -> Z -> result query_result :=
  fun _ _ _ =>
    Ok {| documents := [[Some "some text"%string]];
          metadatas :=
            [[Some {[ "chunk_id"%string := cid;
                      "page_numbers"%string := "1,2"%string;
                      "filename"%string := "a.pdf"%string ]}]];
          distances := [[dist]] |}.

Definition open_file (data : string) : File.file :=
  {| File.closed := false; File.content := data; File.pos := 0 |}.

End Toy.

(** ** Predicates the properties are stated with *)

Module Spec.

Import PyStr Chunker.

(** Strictly increasing page numbers. *)
Definition increasing (l : list Z) : Prop := StronglySorted Z.lt l.

(** The pages come in document order: their numbers never go down. *)
Definition in_document_order (page_texts : list (string * Z)) : Prop :=
  StronglySorted Z.le (map snd page_texts).

(** The last [n] elements of [l], all of [l] when it has fewer. *)
Definition last_words {A} (n : Z) (l : list A) : list A :=
  drop (length l - Z.to_nat n) l.

(** What holds of the chunker for every choice of its parameters. *)
Record shape (st : locals) : Prop := {
  shape_length : length (chunks st) = length (chunk_metadata st);
  shape_chunks : Forall (fun c => truthy c = true) (chunks st);
  shape_pages : Forall (fun m => page_numbers m <> []) (chunk_metadata st);
  shape_current : current_chunk st <> [] -> current_page_numbers st <> []
}.

(** What holds when the page numbers coming in never go down; [bound] is
    the number of the page read last. *)
Record paged (bound : Z) (st : locals) : Prop := {
  paged_emitted : Forall (fun m => increasing (page_numbers m)) (chunk_metadata st);
  paged_current : increasing (current_page_numbers st);
  paged_bound : Forall (fun p => p <= bound) (current_page_numbers st)
}.

(** Each list but the first begins with the last [overlap] words of the
    list before it. *)
Definition linked (overlap : Z) (l : list (list string)) : Prop :=
  forall i a b, l !! i = Some a -> l !! S i = Some b ->
    last_words overlap a `prefix_of` b.

(** What holds for [0 < overlap < max_length]; [wss] are the word lists
    of the chunks emitted so far. *)
Record windows (max_length overlap : Z) (st : locals)
    (wss : list (list string)) : Prop := {
  win_chunks : chunks st = map (join " ") wss;
  win_full :
    Forall (fun ws => PyList.len ws = max_length /\ Forall is_word ws) wss;
  win_count : word_count st = PyList.len (current_chunk st);
  win_room : word_count st < max_length;
  win_words : Forall is_word (current_chunk st);
  win_pending : wss <> [] -> overlap <= word_count st;
  win_linked : linked overlap (wss ++ [current_chunk st])
}.

(** The pairs for pages whose [extract_text()] returned [texts], the
    first of them being page [start + 1]. *)
Fixpoint numbered (start : Z) (texts : list (option string))
  : list (string * Z) :=
  match texts with
  | [] => []
  | t :: texts' =>
      (strip (default EmptyString t), start + 1) :: numbered (start + 1) texts'
  end.

(** Largest similarity first. *)
Definition descending (l : list ChromaUtils.hit) : Prop :=
  StronglySorted
    (fun a b => (ChromaUtils.similarity b <= ChromaUtils.similarity a)%Q) l.

(** The elements left when every element whose key was seen before is
    dropped. *)
Fixpoint first_by {A} (key : A -> string) (seen : gset string) (l : list A)
  : list A :=
  match l with
  | [] => []
  | x :: l' =>
      if bool_decide (key x ∈ seen) then first_by key seen l'
      else x :: first_by key ({[key x]} ∪ seen) l'
  end.

(** The results deduplicated by chunk id, first occurrence kept. *)
Definition first_by_chunk_id (seen : gset string) (l : list ChromaUtils.hit)
  : list ChromaUtils.hit :=
  first_by (fun h => ChromaUtils.chunk_id (ChromaUtils.metadata h)) seen l.

(** The strings of [l], one after the other. *)
Definition concat_all (l : list string) : string :=
  foldr String.append EmptyString l.

(** The instance after the calls [add_to_history(q, r)] for the [(q, r)]
    of [calls], in that order. *)
Definition replay {T Q} (add_to_history : Q -> string -> Py.M T unit)
    (self : T) (calls : list (Q * string)) : T :=
  foldl (fun self c => (add_to_history c.1 c.2 self).1) self calls.

End Spec.

(** ** [Conversational_RAG.py]: the retrieval *)

Module Conversational.

Import Py Deque Chroma ChromaUtils PyStr.

Definition get_history_context : M ConversationalRAG.t string := fun self =>
  if negb (PyList.truthy (items (ConversationalRAG.history self)))
  then (self, Ok EmptyString)
  else
    (self,
     Ok (foldl (fun context '(i, (query, response)) =>
                  context +:+ "Turn " +:+ str_of_int i +:+ " - Query: "
                    +:+ query +:+ nl +:+ "Response: "
                    +:+ response +:+ nl +:+ nl)
               ("Conversation History:" +:+ nl)
               (zip (seqZ 1 (PyList.len (items (ConversationalRAG.history self))))
                    (items (ConversationalRAG.history self))))).

Section WithExternals.

Context `{Externals}.

(** The variables the loop over the results updates; [shown] is the ghost
    list of the results whose [chunk_text] went into [raw_response]. *)
Record chunk_locals := {
  raw_response : string;
  context : string;
  shown : list hit
}.

(** The f-string of line 88, for the result at position [i]. *)
Definition chunk_text_of (i : Z) (result : hit) : string :=
  "Chunk " +:+ str_of_int (i + 1) +:+ " (Similarity: "
    +:+ format_3f (similarity result) +:+ ", "
    +:+ page_ref (page_numbers (metadata result)) +:+ "):" +:+ nl
    +:+ document result +:+ nl.

(** Lines 79-90, for the result at position [i] of [enumerate(results)]. *)
Definition chunk_step (st : chunk_locals) (ir : Z * hit) : chunk_locals :=
  let '(i, result) := ir in
  let doc := document result in
  let metadata := metadata result in
  let ref := page_ref (page_numbers metadata) in
  let chunk_text := chunk_text_of i result in
  {| raw_response := raw_response st +:+ chunk_text;
     context :=
       context st +:+ "Document " +:+ str_of_int (i + 1) +:+ " (" +:+ ref
         +:+ "):" +:+ nl +:+ doc +:+ nl +:+ nl;
     shown := shown st ++ [result] |}.

Definition prompt (history_context context query : string) : string :=
  "Conversation History:" +:+ nl
  +:+ blanks 24 +:+ history_context +:+ nl
  +:+ nl
  +:+ blanks 24 +:+ "Retrieved Context:" +:+ nl
  +:+ blanks 24 +:+ context +:+ nl
  +:+ nl
  +:+ blanks 24 +:+ "Current Question: " +:+ query +:+ nl
  +:+ blanks 24 +:+ "Provide a detailed answer based on the retrieved context and conversation history, " +:+ nl
  +:+ blanks 24 +:+ "referencing relevant page numbers if applicable:" +:+ nl
  +:+ blanks 24.

Definition conversational_rag_body (query : string)
    (collections : list collection) (top_k : Z) (fine_tune : bool)
  : M ConversationalRAG.t reply :=
  if negb (PyList.truthy collections) then
    mret {| text := "No document collections available to query.";
            retrieved := [] |}
  else
    results ← lift (query_collections query collections top_k);
    if negb (PyList.truthy results) then
      mret {| text := "No relevant documents found for the query.";
              retrieved := [] |}
    else
      let st :=
        foldl chunk_step
              {| raw_response := EmptyString; context := EmptyString;
                 shown := [] |}
              (zip (seqZ 0 (PyList.len results)) results) in
      let raw_response := raw_response st in
      if negb fine_tune then
        _ ← ConversationalRAG.add_to_history query raw_response;
        mret {| text := nl +:+ "Raw RAG Response:" +:+ nl +:+ raw_response;
                retrieved := shown st |}
      else
        history_context ← get_history_context;
        response ← lift (chat_completion "gpt-4o-mini"
                           (prompt history_context (context st) query)
                           1000 (7 # 10));
        let answer := strip response in
        _ ← ConversationalRAG.add_to_history query answer;
        mret {| text := nl +:+ "Fine-Tuned RAG Answer:" +:+ nl +:+ answer;
                retrieved := shown st |}.

Definition conversational_rag (query : string)
    (collections : list collection) (top_k : Z) (fine_tune : bool)
  : M ConversationalRAG.t reply :=
  try_except (conversational_rag_body query collections top_k fine_tune)
    (fun e => mret {| text := "Error processing query: " +:+ exn_str e;
                      retrieved := [] |}).

End WithExternals.

End Conversational.

(** ** [Hierarchical_RAG.py]: the retrieval *)

Module Hierarchical.

Import Py Deque Chroma ChromaUtils PyStr.

Definition get_history_context : M HierarchicalRAG.t string := fun self =>
  if negb (PyList.truthy (items (HierarchicalRAG.history self)))
  then (self, Ok EmptyString)
  else
    (self,
     Ok (foldl (fun context '(i, (query, response)) =>
                  context +:+ "Turn " +:+ str_of_int i +:+ " - Query: "
                    +:+ query +:+ nl +:+ "Response: "
                    +:+ response +:+ nl +:+ nl)
               ("Conversation History:" +:+ nl)
               (zip (seqZ 1 (PyList.len (items (HierarchicalRAG.history self))))
                    (items (HierarchicalRAG.history self))))).

(** One element of [coarse_results]. *)
Record coarse_result := {
  coarse_collection : collection;
  page_count : Q;
  coarse_filename : string
}.

(** [sorted(coarse_results, key=lambda x: x["page_count"], reverse=True)]:
    stable, largest page count first. *)
Fixpoint insert_desc (x : coarse_result) (l : list coarse_result)
  : list coarse_result :=
  match l with
  | [] => [x]
  | y :: l' =>
      if Qle_bool (page_count y) (page_count x) then x :: y :: l'
      else y :: insert_desc x l'
  end.

Definition sorted_desc (l : list coarse_result) : list coarse_result :=
  foldr insert_desc [] l.

(** [meta.get("page_count", 0)] as a summand of [sum]: the store holds
    strings, and a string cannot be added to a number. *)
Definition page_count_of (meta : gmap string string) : result Q :=
  match meta !! "page_count"%string with
  | None => Ok 0%Q
  | Some _ =>
      Raise (Exn "TypeError" "unsupported operand type(s) for +: 'int' and 'str'")
  end.

Section WithExternals.

Context `{Externals}.

(** The exception, if any, with which Chroma answers [collection.get]. *)
Variable chroma_get_raises : collection -> option exn.

(** [collection.get(include=["metadatas"])["metadatas"]] *)
Definition get_metadatas (db : gmap string (list entry)) (c : collection)
  : result (list (gmap string string)) :=
  match chroma_get_raises c with
  | Some e => Raise e
  | None =>
      match db !! name c with
      | Some es => Ok (map entry_metadata es)
      | None => Raise not_found
      end
  end.

(** Lines 72-75. *)
Definition coarse_step (db : gmap string (list entry))
    (coarse_results : list coarse_result) (c : collection)
  : result (list coarse_result) :=
  metadata ← get_metadatas db c;
  if PyList.truthy metadata then
    counts ← mapM page_count_of metadata;
    let avg_page_count :=
      (foldl Qplus 0 counts / inject_Z (PyList.len metadata))%Q in
    first ← index metadata 0;
    mret (coarse_results
            ++ [{| coarse_collection := c;
                   page_count := avg_page_count;
                   coarse_filename :=
                     default "unknown"%string (first !! "filename"%string) |}])
  else mret coarse_results.

(** Lines 70-76: the coarse level. *)
Definition coarse_retrieval (db : gmap string (list entry))
    (collections : list collection) (top_k_coarse : Z)
  : result (list coarse_result) :=
  coarse_results ← for_each (coarse_step db) [] collections;
  mret (PyList.slice_to top_k_coarse (sorted_desc coarse_results)).

(** The variables the fine level updates; [shown] is the ghost list of
    the results whose [chunk_text] went into [raw_response]. *)
Record fine_locals := {
  fine_results : list hit;
  chunk_ids : gset string;
  raw_response : string;
  context : string;
  shown : list hit
}.

(** The f-string of line 100, for the result at position [i]. *)
Definition chunk_text_of (i : Z) (result : hit) : string :=
  "Chunk " +:+ str_of_int (i + 1) +:+ " (Similarity: "
    +:+ format_3f (similarity result) +:+ ", "
    +:+ page_ref (page_numbers (metadata result)) +:+ ", PDF: "
    +:+ filename (metadata result) +:+ "):" +:+ nl
    +:+ document result +:+ nl.

(** Lines 87-102, for the result at position [i] of [enumerate(results)]. *)
Definition chunk_step (st : fine_locals) (ir : Z * hit) : fine_locals :=
  let '(i, result) := ir in
  let cid := chunk_id (metadata result) in
  if bool_decide (cid ∈ chunk_ids st) then st
  else
    let doc := document result in
    let metadata := metadata result in
    let ref := page_ref (page_numbers metadata) in
    let filename := filename metadata in
    let chunk_text := chunk_text_of i result in
    {| fine_results := fine_results st;
       chunk_ids := {[cid]} ∪ chunk_ids st;
       raw_response := raw_response st +:+ chunk_text;
       context :=
         context st +:+ "Document " +:+ str_of_int (i + 1) +:+ " (" +:+ ref
           +:+ ", PDF: " +:+ filename +:+ "):" +:+ nl +:+ doc +:+ nl +:+ nl;
       shown := shown st ++ [result] |}.

(** Lines 82-103. *)
Definition fine_step (query : string) (top_k_fine : Z) (st : fine_locals)
    (res : coarse_result) : result fine_locals :=
  results ← query_collections query [coarse_collection res] top_k_fine;
  if negb (PyList.truthy results) then mret st
  else
    let st' :=
      foldl chunk_step st (zip (seqZ 0 (PyList.len results)) results) in
    mret {| fine_results := fine_results st' ++ results;
            chunk_ids := chunk_ids st';
            raw_response := raw_response st';
            context := context st';
            shown := shown st' |}.

Definition prompt (history_context context query : string) : string :=
  "Conversation History:" +:+ nl
  +:+ blanks 24 +:+ history_context +:+ nl
  +:+ nl
  +:+ blanks 24 +:+ "Retrieved Context:" +:+ nl
  +:+ blanks 24 +:+ context +:+ nl
  +:+ nl
  +:+ blanks 24 +:+ "Current Question: " +:+ query +:+ nl
  +:+ blanks 24 +:+ "Provide a detailed answer based on the retrieved context and conversation history, " +:+ nl
  +:+ blanks 24 +:+ "referencing relevant page numbers and PDF filenames if applicable." +:+ nl
  +:+ blanks 25 +:+ "Note that some PDFs may contain images (e.g., graphs, scanned images not included in the context:" +:+ nl
  +:+ blanks 24.

Definition hierarchical_rag_body (db : gmap string (list entry))
    (query : string) (collections : list collection)
    (top_k_coarse top_k_fine : Z) (fine_tune : bool)
  : M HierarchicalRAG.t reply :=
  if negb (PyList.truthy collections) then
    mret {| text := "No document collections available to query.";
            retrieved := [] |}
  else if negb (truthy query) then
    mret {| text := "No query provided."; retrieved := [] |}
  else
    coarse_results ← lift (coarse_retrieval db collections top_k_coarse);
    st ← lift (for_each (fine_step query top_k_fine)
                 {| fine_results := []; chunk_ids := ∅;
                    raw_response := EmptyString; context := EmptyString;
                    shown := [] |}
                 coarse_results);
    let raw_response := raw_response st in
    if bool_decide (chunk_ids st = ∅) then
      mret {| text := nl +:+ "Raw Hierarchical RAG Response:" +:+ nl
                        +:+ raw_response +:+ nl
                        +:+ "Note: If relevant content is in images (e.g., graphs), consider OCR for text extraction.";
              retrieved := shown st |}
    else if negb fine_tune then
      mret {| text := nl +:+ "Raw Hierarchical RAG Response:" +:+ nl
                        +:+ raw_response;
              retrieved := shown st |}
    else
      history_context ← get_history_context;
      response ← lift (chat_completion "gpt-4o-mini"
                         (prompt history_context (context st) query)
                         1000 (7 # 10));
      let answer := strip response in
      mret {| text := nl +:+ "Fine-Tuned Hierarchical RAG Answer:" +:+ nl
                        +:+ answer;
              retrieved := shown st |}.

(** [hierarchical_rag(query, collections, top_k_coarse, top_k_fine,
    fine_tune)] over the store [db]. *)
Definition hierarchical_rag (db : gmap string (list entry))
    (query : string) (collections : list collection)
    (top_k_coarse top_k_fine : Z) (fine_tune : bool)
  : M HierarchicalRAG.t reply :=
  try_except
    (hierarchical_rag_body db query collections top_k_coarse top_k_fine
       fine_tune)
    (fun e => mret {| text := "Error processing query: " +:+ exn_str e;
                      retrieved := [] |}).

End WithExternals.

End Hierarchical.

(** ** [Structured_Output_RAG.py] and [Agentic_RAG.py]: the selection *)

Module Structuring.

Import Py ChromaUtils.

(** [max(results, key=lambda x: x["similarity"])], line 106 of
    [Structured_Output_RAG.py] and line 145 of [Agentic_RAG.py]: the
    first of the results with the largest similarity. *)
Definition best_result (results : list hit) : result hit :=
  match results with
  | [] => Raise (Exn "ValueError" "max() arg is an empty sequence")
  | first :: rest =>
      Ok (foldl (fun best r =>
                   if Qle_bool (similarity r) (similarity best) then best
                   else r)
                first rest)
  end.

(** The variables of the loop of lines 117-122 of [Agentic_RAG.py]. *)
Record unique_locals := {
  chunk_ids : gset string;
  unique_results : list hit
}.

(** Lines 120-122. *)
Definition unique_step (st : unique_locals) (result : hit) : unique_locals :=
  if bool_decide (chunk_id (metadata result) ∈ chunk_ids st) then st
  else
    {| chunk_ids := {[chunk_id (metadata result)]} ∪ chunk_ids st;
       unique_results := unique_results st ++ [result] |}.

(** Lines 117-123: [unique_results] after the [sorted(...)[:top_k]]. *)
Definition select (all_results : list hit) (top_k : Z) : list hit :=
  let st :=
    foldl unique_step {| chunk_ids := ∅; unique_results := [] |} all_results in
  PyList.slice_to top_k (sorted_desc (unique_results st)).

End Structuring.

(** ** [load_pdfs_from_directory] *)

Module Loader.

Import Py File Chroma ChromaUtils PyStr.

(** The file system, as the function reads it. *)
Class FileSystem := {
  (** [os.getenv("PDF_Directory")] *)
  PDF_Directory : option string;
  (** [os.path.exists] *)
  path_exists : string -> bool;
  (** [os.listdir] *)
  listdir : string -> result (list string);
  (** [os.path.join] *)
  path_join : string -> string -> string;
  (** [open(path, "rb")] *)
  open_rb : string -> result file
}.

(** [c.lower()] for a code point below 256. *)
Definition lower_char (c : ascii) : ascii :=
  let n := nat_of_ascii c in
  if ((65 <=? n) && (n <=? 90))%nat
     || ((192 <=? n) && (n <=? 222) && negb (n =? 215))%nat
  then ascii_of_nat (n + 32)
  else c.

(** [s.lower()] *)
Fixpoint lower (s : string) : string :=
  match s with
  | EmptyString => EmptyString
  | String c s' => String (lower_char c) (lower s')
  end.

(** [s.endswith(suffix)] *)
Definition endswith (suffix s : string) : bool :=
  let n := String.length s in
  let m := String.length suffix in
  (m <=? n)%nat && String.eqb (String.substring (n - m) m s) suffix.

(** [f"{h}"] for the value [get_pdf_hash] returns. *)
Definition str_of_hash (h : option string) : string :=
  default "None"%string h.

(** The three lists the function fills. *)
Record loaded := {
  documents : list string;
  ids : list string;
  collections : list collection
}.

Section WithExternals.

Context `{Externals} `{FileSystem}.

(** [[f"{get_pdf_hash(file)}_{j}" for j in range(len(chunks))]]: the file
    is hashed anew for every [j]. *)
Definition ids_chunk (chunks : list string)
  : M (gmap string (list entry) * file) (list string) :=
  for_each_M
    (fun (ids_chunk : list string) (j : Z) =>
       h ← on_file get_pdf_hash;
       mret (ids_chunk ++ [str_of_hash h +:+ "_" +:+ str_of_int j]))
    [] (seqZ 0 (PyList.len chunks)).

(** Lines 146-155, under [with open(file_path, "rb") as file]. The three
    lists are only touched at the end, so an exception before leaves
    them as they were. *)
Definition load_file (filename : string) (acc : loaded)
  : M (gmap string (list entry) * file) loaded :=
  r ← add_documents filename;
  let '(collection, processed) := (r : option collection * bool) in
  match collection with
  | None => mret acc
  | Some collection =>
      if processed then
        _ ← on_file seek0;
        page_texts ← on_file extract_pdf_text_with_pages;
        let '(chunks, chunk_metadata) := Chunker.chunk_text_default page_texts in
        ids_chunk ← ids_chunk chunks;
        mret {| documents := documents acc ++ chunks;
                ids := ids acc ++ ids_chunk;
                collections := collections acc ++ [collection] |}
      else
        mret {| documents := documents acc;
                ids := ids acc;
                collections := collections acc ++ [collection] |}
  end.

(** Lines 142-159: one file name of the directory. Both [except] clauses
    print and go on. *)
Definition load_name (directory : string) (acc : loaded) (filename : string)
  : M (gmap string (list entry)) loaded := fun db =>
  if endswith ".pdf" (lower filename) then
    let file_path := path_join directory filename in
    match open_rb file_path with
    | Raise e => (db, Ok acc)
    | Ok file =>
        match load_file filename acc (db, file) with
        | (s, Ok acc') => (s.1, Ok acc')
        | (s, Raise e) => (s.1, Ok acc)
        end
    end
  else (db, Ok acc).

(** [for filename in os.listdir(directory): ...] *)
Definition load_directory (directory : string) (acc : loaded)
  : M (gmap string (list entry)) loaded :=
  names ← lift (listdir directory);
  for_each_M (load_name directory) acc names.

(** Lines 132-188: the body of the [try]. The handler of lines 189-201
    is not part of this definition. *)
Definition load_pdfs_from_directory_body (directory : string)
  : M (gmap string (list entry)) loaded :=
  let default_pdf := PDF_Directory in
  let directory := normpath directory in
  acc ← (if negb (path_exists directory)
         then mret {| documents := []; ids := []; collections := [] |}
         else load_directory directory
                {| documents := []; ids := []; collections := [] |});
  if negb (PyList.truthy (collections acc)) then
    match default_pdf with
    | None =>
        lift (Raise (Exn "TypeError" "stat: path should be string, bytes, os.PathLike or integer, not NoneType"))
    | Some default_pdf =>
        if path_exists default_pdf then load_directory default_pdf acc
        else mret acc
    end
  else mret acc.

End WithExternals.

End Loader.

(** A directory of two PDFs and a text file, to run the loader on. *)

Module ToyFS.

Import Py.

Definition fs : Loader.FileSystem :=
  {| Loader.PDF_Directory := Some "default"%string;
     Loader.path_exists := fun path => String.eqb path "docs";
     Loader.listdir := fun path =>
       if String.eqb path "docs"
       then Ok ["a.pdf"; "notes.txt"; "B.PDF"]%string
       else Raise (Exn "FileNotFoundError" path);
     Loader.path_join := fun directory filename =>
       directory +:+ "/" +:+ filename;
     Loader.open_rb := fun path =>
       if String.eqb path "docs/a.pdf" then Ok (Toy.open_file "hello world")
       else if String.eqb path "docs/B.PDF"
       then Ok (Toy.open_file "more words|here")
       else Raise (Exn "FileNotFoundError" path) |}.

End ToyFS.

(** ** Further predicates *)

Module SpecMore.

Import PyStr Chunker.

(** All the words of the pages, in reading order. *)
Definition all_words (page_texts : list (string * Z)) : list string :=
  concat (map (fun pt => split pt.1) page_texts).

(** The numbers of the pages that hold at least one word. *)
Definition pages_with_words (page_texts : list (string * Z)) : list Z :=
  map snd (filter (fun pt => split pt.1 <> []) page_texts).

(** The first window, then every later window without its first
    [overlap] elements. *)
Definition unwind {A} (overlap : Z) (l : list (list A)) : list A :=
  match l with
  | [] => []
  | first :: rest => first ++ concat (map (drop (Z.to_nat overlap)) rest)
  end.

(** What holds of the words for every choice of the parameters; [wss]
    are the word lists of the chunks emitted so far, [W] the words that
    may come in. *)
Record wordy (W : list string) (st : locals) (wss : list (list string))
  : Prop := {
  wordy_chunks : chunks st = map (join " ") wss;
  wordy_emitted : Forall (Forall (fun w => is_word w /\ w ∈ W)) wss;
  wordy_current : Forall (fun w => is_word w /\ w ∈ W) (current_chunk st)
}.

(** What holds of the page numbers for every choice of the parameters. *)
Record sourced (P : list Z) (st : locals) : Prop := {
  sourced_emitted :
    Forall (fun m => Forall (fun p => p ∈ P) (page_numbers m)) (chunk_metadata st);
  sourced_current : Forall (fun p => p ∈ P) (current_page_numbers st)
}.

(** What holds for [overlap = 0]; [seen] are the words read so far. *)
Record cumulative (st : locals) (seen : list string) : Prop := {
  cumulative_current : current_chunk st = seen;
  cumulative_count : word_count st = PyList.len seen;
  cumulative_words : Forall is_word seen;
  cumulative_chunks :
    Forall (fun c => exists ws, c = join " " ws /\ ws `prefix_of` seen) (chunks st)
}.

(** A string of decimal digits, after an optional minus sign: no blank,
    no comma. *)
Fixpoint digits (s : string) : bool :=
  match s with
  | EmptyString => true
  | String c s' =>
      match Py.digit_val c with Some _ => digits s' | None => false end
  end.

Definition numeral (s : string) : bool :=
  match s with
  | String "-" (String c s') => digits (String c s')
  | String c s' => digits (String c s')
  | EmptyString => false
  end.

(** The character [sep] does not occur in [s]. *)
Fixpoint free_of (sep : ascii) (s : string) : bool :=
  match s with
  | EmptyString => true
  | String c s' => negb (Ascii.eqb c sep) && free_of sep s'
  end.

(** The results of [l] whose similarity equals [q], in the order of [l]. *)
Definition with_similarity (q : Q) (l : list ChromaUtils.hit)
  : list ChromaUtils.hit :=
  filter (fun h => Qeq_bool (ChromaUtils.similarity h) q = true) l.

(** From [db] to [db'] nothing was deleted or overwritten: a collection
    that was there still is, with its entries first. *)
Definition grows (db db' : gmap string (list Chroma.entry)) : Prop :=
  forall k es, db !! k = Some es -> exists es', db' !! k = Some (es ++ es').

(** The metadata of [c] can be read, and none of it has a page count. *)
Definition plain (chroma_get_raises : Chroma.collection -> option Py.exn)
    (db : gmap string (list Chroma.entry)) (c : Chroma.collection) : Prop :=
  chroma_get_raises c = None
  /\ exists es,
       db !! Chroma.name c = Some es
       /\ Forall (fun e =>
                   Chroma.entry_metadata e !! "page_count"%string = None) es.

(** [c] holds entries in [db]. *)
Definition has_entries (db : gmap string (list Chroma.entry))
    (c : Chroma.collection) : bool :=
  match db !! Chroma.name c with
  | Some (_ :: _) => true
  | _ => false
  end.

(** The collections of [collections] that hold entries in [db], in the
    order given. *)
Definition with_entries (db : gmap string (list Chroma.entry))
    (collections : list Chroma.collection) : list Chroma.collection :=
  filter (fun c => has_entries db c = true) collections.

(** Only the collection [nm] may differ between [db] and [db']. *)
Definition only_at (nm : string) (db db' : gmap string (list Chroma.entry))
  : Prop :=
  forall k, k <> nm -> db' !! k = db !! k.

End SpecMore.

(** * Properties *)

(** ** Words, [split] and [join] *)

Module PyStrFacts.

Import PyStr.

Lemma cons_word_words w ws :
  no_space w = true -> Forall is_word ws -> Forall is_word (cons_word w ws).
Proof.
  intros Hw Hws. unfold cons_word.
  destruct (truthy w) eqn:E; [constructor; [split|]|]; assumption.
Qed.

Lemma split_go_words s :
  no_space (split_go s).1 = true /\ Forall is_word (split_go s).2.
Proof.
  induction s as [|c s [IHw IHws]]; simpl.
  - split; [reflexivity | constructor].
  - destruct (split_go s) as [w ws]; simpl in *.
    destruct (is_space c) eqn:E; simpl.
    + split; [reflexivity | now apply cons_word_words].
    + rewrite E. split; [assumption | assumption].
Qed.

(** Every word [split] returns is non-empty and free of whitespace. *)
Lemma split_words s : Forall is_word (split s).
Proof.
  unfold split. pose proof (split_go_words s) as [Hw Hws].
  destruct (split_go s) as [w ws]. now apply cons_word_words.
Qed.

Lemma append_nil_l s : EmptyString +:+ s = s.
Proof. reflexivity. Qed.

Lemma append_cons c w s : String c w +:+ s = String c (w +:+ s).
Proof. reflexivity. Qed.

Lemma append_nil_r s : s +:+ EmptyString = s.
Proof. induction s as [|c s IH]; [reflexivity|]. now rewrite append_cons, IH. Qed.

Lemma append_assoc a b c : (a +:+ b) +:+ c = a +:+ (b +:+ c).
Proof.
  induction a as [|x a IH]; [now rewrite !append_nil_l|].
  now rewrite !append_cons, IH.
Qed.

Lemma split_go_app_word w s :
  no_space w = true ->
  split_go (w +:+ s) = (w +:+ (split_go s).1, (split_go s).2).
Proof.
  induction w as [|c w IH]; intros Hw.
  - rewrite !append_nil_l. now destruct (split_go s).
  - simpl in Hw. apply andb_prop in Hw as [Hc Hw].
    rewrite !append_cons. cbn [split_go]. rewrite (IH Hw).
    apply negb_true_iff in Hc. now rewrite Hc.
Qed.

Lemma concat_cons sep w w' ws :
  String.concat sep (w :: w' :: ws) = w +:+ sep +:+ String.concat sep (w' :: ws).
Proof. reflexivity. Qed.

Lemma split_go_join ws :
  Forall is_word ws ->
  split_go (join " " ws) =
    match ws with
    | [] => (EmptyString, [])
    | w :: ws' => (w, ws')
    end.
Proof.
  induction 1 as [|w ws [Hw1 Hw2] Hws IH]; [reflexivity|].
  unfold join in *. destruct ws as [|w' ws'].
  - cbn [String.concat]. rewrite <- (append_nil_r w) at 1.
    rewrite split_go_app_word by assumption. cbn [split_go fst snd].
    now rewrite append_nil_r.
  - rewrite concat_cons, split_go_app_word by assumption.
    rewrite append_cons, append_nil_l. cbn [split_go]. rewrite IH.
    inversion Hws as [|? ? [Hw' _] _]; subst.
    cbn. unfold cons_word. rewrite Hw'. now rewrite append_nil_r.
Qed.

(** Splitting the blank-joined words gives the words back. *)
Lemma split_join ws : Forall is_word ws -> split (join " " ws) = ws.
Proof.
  intros Hws. unfold split. rewrite (split_go_join ws Hws).
  destruct Hws as [|w ws [Hw _] _]; [reflexivity|].
  unfold cons_word. now rewrite Hw.
Qed.

Lemma join_snoc_truthy ws w :
  truthy w = true -> truthy (join " " (ws ++ [w])) = true.
Proof.
  intros Hw. unfold join. induction ws as [|v ws IH]; [assumption|].
  change ((v :: ws) ++ [w]) with (v :: (ws ++ [w])).
  destruct (ws ++ [w]) as [|v' vs] eqn:E.
  - now destruct ws.
  - rewrite concat_cons. destruct v; [|reflexivity].
    rewrite append_nil_l. reflexivity.
Qed.

Lemma rstrip_truthy s : truthy (rstrip s) = true -> truthy s = true.
Proof. now destruct s. Qed.

Lemma lstrip_truthy s : truthy (lstrip s) = true -> truthy s = true.
Proof. now destruct s. Qed.

Lemma strip_truthy s : truthy (strip s) = true -> truthy s = true.
Proof. intros Hs. now apply lstrip_truthy, rstrip_truthy. Qed.

End PyStrFacts.

(** ** Python lists *)

Module PyListFacts.

Import PyList.

Lemma foldl_invariant {A B} (f : A -> B -> A) (I : A -> Prop) (P : B -> Prop) :
  (forall a b, I a -> P b -> I (f a b)) ->
  forall l a, I a -> Forall P l -> I (foldl f a l).
Proof.
  intros Hstep l. induction l as [|b l IH]; intros a Ha Hl; [assumption|].
  inversion Hl; subst. simpl. apply IH; [now apply Hstep | assumption].
Qed.

Lemma truthy_nonempty {A} (l : list A) : truthy l = true <-> l <> [].
Proof. destruct l; simpl; split; congruence. Qed.

Lemma truthy_false {A} (l : list A) : truthy l = false <-> l = [].
Proof. destruct l; simpl; split; congruence. Qed.

(** [l[-1:]] is the last element, alone. *)
Lemma slice_last {A} (l : list A) x : last l = Some x -> slice_from (-1) l = [x].
Proof.
  intros Hl. apply last_Some in Hl as [l' ->].
  unfold slice_from. rewrite length_app. simpl.
  replace (Z.to_nat (Z.max (Z.of_nat (length l' + 1) + -1) 0)) with (length l') by lia.
  now rewrite drop_app_length.
Qed.

(** [l[-n:]] for a positive [n]. *)
Lemma slice_from_neg {A} (n : Z) (l : list A) :
  0 < n -> slice_from (- n) l = drop (length l - Z.to_nat n) l.
Proof.
  intros Hn. unfold slice_from.
  destruct (- n <? 0) eqn:E; [|lia]. f_equal. lia.
Qed.

(** [l[-0:]] is all of [l]. *)
Lemma slice_from_zero {A} (l : list A) : slice_from (- 0) l = l.
Proof. unfold slice_from. simpl. replace (Z.to_nat _) with O by lia. reflexivity. Qed.

Lemma slice_to_length {A} (k : Z) (l : list A) :
  0 <= k -> len (slice_to k l) <= k.
Proof.
  intros Hk. unfold slice_to, len.
  destruct (k <? 0) eqn:E; [lia|]. rewrite length_take. lia.
Qed.

Lemma slice_to_take {A} (k : Z) (l : list A) :
  0 <= k -> slice_to k l = take (Z.to_nat k) l.
Proof.
  intros Hk. unfold slice_to.
  destruct (k <? 0) eqn:E; [lia|].
  destruct (Z.le_gt_cases k (Z.of_nat (length l))).
  - f_equal. lia.
  - rewrite !take_ge by lia. reflexivity.
Qed.

End PyListFacts.

(** ** [chunk_text]: what every run keeps *)

Module ChunkerFacts.

Import PyStr PyStrFacts PyListFacts Chunker Spec.

Lemma new_page_nonempty pages p :
  (if new_page pages p then pages ++ [p] else pages) <> [].
Proof.
  unfold new_page. destruct (last pages) eqn:E.
  - apply last_Some in E as [l' ->]. destruct (negb _); now destruct l'.
  - now destruct pages.
Qed.

Lemma kept_page (pages : list Z) : pages <> [] ->
  (if PyList.truthy pages then PyList.slice_from (-1) pages else []) <> [].
Proof.
  intros Hp. destruct (last pages) as [x|] eqn:E.
  - rewrite (slice_last _ _ E). now destruct pages.
  - apply last_None in E. contradiction.
Qed.

Lemma word_step_shape max_length overlap p st word :
  shape st -> truthy word = true ->
  shape (word_step max_length overlap p st word).
Proof.
  intros [Hlen Hch Hpg Hcur] Hw. unfold word_step.
  destruct (max_length <=? word_count st + 1); constructor; cbn.
  - rewrite !length_app. simpl. lia.
  - apply Forall_app. split; [assumption|].
    constructor; [|constructor]. now apply join_snoc_truthy.
  - apply Forall_app. split; [assumption|].
    constructor; [|constructor]. cbn. apply new_page_nonempty.
  - intros _. apply kept_page, new_page_nonempty.
  - assumption.
  - assumption.
  - assumption.
  - intros _. apply new_page_nonempty.
Qed.

Lemma words_truthy s : Forall (fun w => truthy w = true) (split s).
Proof. eapply Forall_impl; [apply split_words|]. now intros w [Hw _]. Qed.

Lemma page_step_shape max_length overlap st pg :
  shape st -> shape (page_step max_length overlap st pg).
Proof.
  intros Hst. destruct pg as [text p]. unfold page_step.
  pose proof (foldl_invariant (word_step max_length overlap p) shape
                (fun w => truthy w = true)
                (fun a b => word_step_shape max_length overlap p a b)
                (split text) st Hst (words_truthy text)) as Hfold.
  destruct (PyList.truthy (current_chunk _)) eqn:E; [assumption|].
  destruct Hfold as [Hlen Hch Hpg Hcur]. constructor; cbn; try assumption.
  apply truthy_false in E. intros Hne. contradiction.
Qed.

Lemma init_shape : shape init.
Proof. constructor; cbn; [reflexivity | constructor | constructor | congruence]. Qed.

Lemma run_shape max_length overlap page_texts :
  shape (run max_length overlap page_texts).
Proof.
  unfold run.
  apply (foldl_invariant (page_step max_length overlap) shape (fun _ => True)).
  - intros a b Ha _. now apply page_step_shape.
  - apply init_shape.
  - apply Forall_forall. intros; exact I.
Qed.

(** What [flush] adds: nothing, or the pending chunk with its pages. *)
Lemma flush_cases st :
  flush st = (chunks st, chunk_metadata st)
  \/ (current_chunk st <> []
      /\ truthy (join " " (current_chunk st)) = true
      /\ flush st =
           (chunks st ++ [join " " (current_chunk st)],
            chunk_metadata st ++ [{| page_numbers := current_page_numbers st |}])).
Proof.
  unfold flush. destruct (PyList.truthy (current_chunk st)) eqn:E; [|now left].
  destruct (truthy (strip _)) eqn:E'; [|now left].
  right. split; [now apply truthy_nonempty|]. split; [now apply strip_truthy|].
  reflexivity.
Qed.

Lemma paged_weaken b b' st : b <= b' -> paged b st -> paged b' st.
Proof.
  intros Hb [He Hc Hbd]. constructor; [assumption | assumption |].
  eapply Forall_impl; [exact Hbd|]. cbn. intros; lia.
Qed.

Lemma new_page_increasing pages bound p :
  increasing pages -> Forall (fun q => q <= bound) pages -> bound <= p ->
  increasing (if new_page pages p then pages ++ [p] else pages)
  /\ Forall (fun q => q <= p) (if new_page pages p then pages ++ [p] else pages).
Proof.
  intros Hinc Hbd Hp.
  assert (Hle : Forall (fun q => q <= p) pages).
  { eapply Forall_impl; [exact Hbd|]. cbn. intros; lia. }
  unfold new_page. destruct (last pages) as [q|] eqn:E.
  - destruct (q =? p) eqn:Eq; cbn; [now split|].
    apply Z.eqb_neq in Eq. split.
    + apply StronglySorted_app_2; [|assumption|repeat constructor].
      intros x1 x2 Hx1 Hx2. apply list_elem_of_singleton in Hx2 as ->.
      apply last_Some in E as [l' ->].
      apply elem_of_app in Hx1 as [Hx1|Hx1].
      * assert (x1 < q).
        { eapply (StronglySorted_app_1_elem_of Z.lt); [exact Hinc|exact Hx1|].
          apply list_elem_of_singleton. reflexivity. }
        apply Forall_app in Hle as [_ Hq]. inversion Hq; subst. lia.
      * apply list_elem_of_singleton in Hx1 as ->.
        apply Forall_app in Hle as [_ Hq]. inversion Hq; subst. lia.
    + apply Forall_app. split; [assumption|]. repeat constructor. lia.
  - apply last_None in E as ->. cbn. split; repeat constructor. lia.
Qed.

Lemma kept_page_increasing (pages : list Z) p :
  Forall (fun q => q <= p) pages ->
  increasing (if PyList.truthy pages then PyList.slice_from (-1) pages else [])
  /\ Forall (fun q => q <= p)
       (if PyList.truthy pages then PyList.slice_from (-1) pages else []).
Proof.
  intros Hle. destruct (last pages) as [x|] eqn:E.
  - rewrite (slice_last _ _ E).
    apply last_Some in E as [l' ->]. apply Forall_app in Hle as [_ Hx].
    destruct (PyList.truthy _); split; repeat constructor.
    now inversion Hx.
  - apply last_None in E as ->. cbn. split; constructor.
Qed.

Lemma word_step_paged max_length overlap p st word bound :
  paged bound st -> bound <= p ->
  paged p (word_step max_length overlap p st word).
Proof.
  intros [He Hc Hbd] Hp.
  destruct (new_page_increasing _ _ _ Hc Hbd Hp) as [Hinc Hle].
  unfold word_step.
  destruct (max_length <=? word_count st + 1); constructor; cbn;
    try assumption.
  - apply Forall_app. split; [assumption|]. now repeat constructor.
  - now apply kept_page_increasing with (p := p).
  - now apply kept_page_increasing with (p := p).
Qed.

Lemma page_step_paged max_length overlap st text p bound :
  paged bound st -> bound <= p ->
  paged p (page_step max_length overlap st (text, p)).
Proof.
  intros Hst Hp. unfold page_step.
  assert (Hfold : exists b, b <= p /\
            paged b (foldl (word_step max_length overlap p) st (split text))).
  { apply (foldl_invariant (word_step max_length overlap p)
             (fun a => exists b, b <= p /\ paged b a) (fun _ => True)).
    - intros a w (b & Hb & Ha) _. exists p. split; [lia|].
      now apply word_step_paged with (bound := b).
    - now exists bound.
    - apply Forall_forall. intros; exact I. }
  destruct Hfold as (b & Hb & Hfold).
  apply (paged_weaken b p) in Hfold; [|assumption].
  destruct (PyList.truthy (current_chunk _)); [assumption|].
  destruct Hfold as [He Hc Hbd]. constructor; cbn; [assumption| |]; constructor.
Qed.

Lemma foldl_page_step_paged max_length overlap page_texts : forall st bound,
  paged bound st ->
  Forall (fun p => bound <= p) (map snd page_texts) ->
  in_document_order page_texts ->
  exists b, paged b (foldl (page_step max_length overlap) st page_texts).
Proof.
  induction page_texts as [|[text p] pts IH]; intros st bound Hst Hge Hord.
  - now exists bound.
  - cbn in *. inversion Hge; subst. inversion Hord; subst.
    apply (IH _ p); [now apply page_step_paged with (bound := bound) | | ];
      assumption.
Qed.

Lemma run_paged max_length overlap page_texts :
  in_document_order page_texts ->
  exists b, paged b (run max_length overlap page_texts).
Proof.
  intros Hord. unfold run. destruct page_texts as [|[text p] pts].
  - exists 0. repeat constructor.
  - cbn. inversion Hord; subst.
    apply foldl_page_step_paged with (bound := p); [| assumption | assumption].
    apply page_step_paged with (bound := p); [|lia]. repeat constructor.
Qed.

(** C9, as amended: for page texts in document order, whatever the
    parameters, [chunk_text] returns as many metadata entries as chunks,
    no chunk is the empty string, and every [page_numbers] list is
    non-empty and strictly increasing. *)
Theorem chunk_text_shape page_texts max_length overlap :
  in_document_order page_texts ->
  length (chunk_text page_texts max_length overlap).1
    = length (chunk_text page_texts max_length overlap).2
  /\ Forall (fun c => truthy c = true)
            (chunk_text page_texts max_length overlap).1
  /\ Forall (fun m => page_numbers m <> [] /\ increasing (page_numbers m))
            (chunk_text page_texts max_length overlap).2.
Proof.
  intros Hord. unfold chunk_text.
  pose proof (run_shape max_length overlap page_texts) as [Hlen Hch Hpg Hcur].
  destruct (run_paged max_length overlap page_texts Hord) as (b & [He Hc Hbd]).
  assert (Hms : Forall (fun m => page_numbers m <> [] /\ increasing (page_numbers m))
                  (chunk_metadata (run max_length overlap page_texts))).
  { apply Forall_and. now split. }
  destruct (flush_cases (run max_length overlap page_texts))
    as [-> | (Hne & Hj & ->)]; cbn.
  - now repeat split.
  - rewrite !length_app, Hlen. split; [reflexivity|]. split.
    + apply Forall_app. split; [assumption|]. now repeat constructor.
    + apply Forall_app. split; [assumption|]. repeat constructor; cbn; auto.
Qed.

(** The part of C9 that needs no order on the pages. *)
Lemma chunk_text_lengths page_texts max_length overlap :
  length (chunk_text page_texts max_length overlap).1
    = length (chunk_text page_texts max_length overlap).2
  /\ Forall (fun c => truthy c = true)
            (chunk_text page_texts max_length overlap).1
  /\ Forall (fun m => page_numbers m <> [])
            (chunk_text page_texts max_length overlap).2.
Proof.
  unfold chunk_text.
  pose proof (run_shape max_length overlap page_texts) as [Hlen Hch Hpg Hcur].
  destruct (flush_cases (run max_length overlap page_texts))
    as [-> | (Hne & Hj & ->)]; cbn.
  - now repeat split.
  - rewrite !length_app, Hlen. split; [reflexivity|]. split.
    + apply Forall_app. split; [assumption|]. now repeat constructor.
    + apply Forall_app. split; [assumption|]. repeat constructor; cbn; auto.
Qed.

Lemma chunk_text_shape_witness :
  in_document_order [("a b c"%string, 1); (EmptyString, 2); ("d e f g"%string, 3)]
  /\ Forall (fun m => page_numbers m <> [] /\ increasing (page_numbers m))
       (chunk_text [("a b c"%string, 1); (EmptyString, 2); ("d e f g"%string, 3)] 3 1).2.
Proof.
  assert (Hord : in_document_order
            [("a b c"%string, 1); (EmptyString, 2); ("d e f g"%string, 3)]).
  { unfold in_document_order. cbn. repeat constructor; lia. }
  split; [exact Hord|].
  apply (chunk_text_shape _ 3 1 Hord).
Defined.

(** C9 as stated fails on pages that are not in document order. *)
Lemma chunk_text_pages_not_increasing :
  (chunk_text [("a"%string, 2); ("b"%string, 1)] 500 100).2
    = [{| page_numbers := [2; 1] |}]
  /\ ~ increasing [2; 1].
Proof.
  split; [reflexivity|].
  intros Hinc. inversion Hinc as [|? ? _ Hall]; subst.
  inversion Hall; subst. lia.
Qed.

(** *** The sliding window, for [0 < overlap < max_length] *)

Lemma linked_app_l overlap l k : linked overlap (l ++ k) -> linked overlap l.
Proof.
  intros Hl i a b Ha Hb. apply (Hl i a b).
  - now apply lookup_app_l_Some.
  - now apply lookup_app_l_Some.
Qed.

Lemma linked_last overlap l a b :
  linked overlap (l ++ [b]) -> last l = Some a ->
  last_words overlap a `prefix_of` b.
Proof.
  intros Hl Ha. apply last_Some in Ha as [l' ->].
  apply (Hl (length l') a b).
  - rewrite <- app_assoc. cbn. now apply list_lookup_middle.
  - apply list_lookup_middle. rewrite length_app. cbn. lia.
Qed.

Lemma linked_snoc overlap l b :
  linked overlap l ->
  (forall a, last l = Some a -> last_words overlap a `prefix_of` b) ->
  linked overlap (l ++ [b]).
Proof.
  intros Hl Hb i x y Hx Hy.
  destruct (decide (S i < length l)%nat) as [Hi|Hi].
  - rewrite lookup_app_l in Hx by lia. rewrite lookup_app_l in Hy by lia.
    now apply (Hl i).
  - assert (S i = length l) as Hi'.
    { apply lookup_lt_Some in Hy. rewrite length_app in Hy. cbn in Hy. lia. }
    rewrite lookup_app_l in Hx by lia.
    rewrite Hi' in Hy. rewrite list_lookup_middle in Hy by reflexivity.
    inversion Hy; subst y. apply Hb.
    rewrite last_lookup. rewrite <- Hi'. exact Hx.
Qed.

Lemma last_words_length {A} (n : Z) (l : list A) :
  0 <= n <= PyList.len l -> PyList.len (last_words n l) = n.
Proof. unfold last_words, PyList.len. rewrite length_drop. lia. Qed.

Lemma init_windows max_length overlap :
  0 < overlap < max_length -> windows max_length overlap init [].
Proof.
  intros Hov. constructor; cbn; try reflexivity; try constructor; try lia.
  - congruence.
  - intros i a b Ha Hb. now destruct i.
Qed.

Lemma word_step_windows max_length overlap p st word :
  0 < overlap < max_length -> is_word word ->
  forall wss, windows max_length overlap st wss ->
  exists wss', windows max_length overlap
                 (word_step max_length overlap p st word) wss'.
Proof.
  intros Hov Hw wss [Hch Hfull Hcnt Hroom Hws Hpend Hlink].
  assert (Hlen : PyList.len (current_chunk st ++ [word]) = word_count st + 1).
  { unfold PyList.len in *. rewrite length_app. cbn. lia. }
  assert (Hws' : Forall is_word (current_chunk st ++ [word])).
  { apply Forall_app. split; [assumption|]. constructor; [assumption|constructor]. }
  assert (Hlink' : linked overlap (wss ++ [current_chunk st ++ [word]])).
  { apply linked_snoc; [now apply linked_app_l in Hlink|].
    intros a Ha. apply prefix_app_r. now apply (linked_last overlap wss). }
  unfold word_step. destruct (max_length <=? word_count st + 1) eqn:E.
  - apply Z.leb_le in E.
    exists (wss ++ [current_chunk st ++ [word]]).
    assert (Hlt : (overlap <? PyList.len (current_chunk st ++ [word])) = true).
    { apply Z.ltb_lt. lia. }
    rewrite Hlt. rewrite slice_from_neg by lia.
    fold (last_words overlap (current_chunk st ++ [word])).
    constructor; cbn.
    + now rewrite map_app, Hch.
    + apply Forall_app. split; [assumption|].
      constructor; [|constructor]. split; [lia | assumption].
    + reflexivity.
    + rewrite last_words_length; lia.
    + unfold last_words. now apply Forall_drop.
    + intros _. rewrite last_words_length; lia.
    + apply linked_snoc; [assumption|].
      intros a Ha. rewrite last_snoc in Ha. now inversion Ha.
  - apply Z.leb_gt in E. exists wss. constructor; cbn; try assumption; try lia.
    intros Hne. specialize (Hpend Hne). lia.
Qed.

Lemma page_step_windows max_length overlap st pg :
  0 < overlap < max_length ->
  forall wss, windows max_length overlap st wss ->
  exists wss', windows max_length overlap
                 (page_step max_length overlap st pg) wss'.
Proof.
  intros Hov wss Hst. destruct pg as [text p]. unfold page_step.
  assert (Hfold : exists wss',
            windows max_length overlap
              (foldl (word_step max_length overlap p) st (split text)) wss').
  { apply (foldl_invariant (word_step max_length overlap p)
             (fun a => exists wss', windows max_length overlap a wss') is_word).
    - intros a w (wss0 & Ha) Hw. now apply word_step_windows with (wss := wss0).
    - now exists wss.
    - apply split_words. }
  destruct Hfold as (wss' & Hfold). exists wss'.
  destruct (PyList.truthy (current_chunk _)); [assumption|].
  destruct Hfold. now constructor.
Qed.

Lemma run_windows max_length overlap page_texts :
  0 < overlap < max_length ->
  exists wss, windows max_length overlap (run max_length overlap page_texts) wss.
Proof.
  intros Hov. unfold run.
  apply (foldl_invariant (page_step max_length overlap)
           (fun a => exists wss, windows max_length overlap a wss) (fun _ => True)).
  - intros a pg (wss & Ha) _. now apply page_step_windows with (wss := wss).
  - exists []. now apply init_windows.
  - apply Forall_forall. intros; exact I.
Qed.

(** A pending chunk made of words always passes the test of line 73. *)
Lemma strip_join_truthy ws :
  ws <> [] -> Forall is_word ws -> truthy (strip (join " " ws)) = true.
Proof.
  intros Hne Hws. destruct Hws as [|w ws [Hw Hsp] Hws]; [congruence|].
  destruct w as [|c w]; [discriminate|].
  cbn in Hsp. apply andb_prop in Hsp as [Hc _]. apply negb_true_iff in Hc.
  assert (Hjoin : exists rest, join " " (String c w :: ws) = String c rest).
  { unfold join. destruct ws as [|w' ws'].
    - now exists w.
    - rewrite concat_cons, append_cons. eexists. reflexivity. }
  destruct Hjoin as (rest & ->). unfold strip. cbn [lstrip]. rewrite Hc.
  cbn [rstrip]. rewrite Hc. reflexivity.
Qed.

(** The chunks are the blank-joined words of linked windows: full ones,
    then the words left over, fewer than [max_length]. *)
Lemma chunk_text_windows page_texts max_length overlap :
  0 < overlap < max_length ->
  exists wss last,
    (chunk_text page_texts max_length overlap).1 = map (join " ") (wss ++ last)
    /\ Forall (fun ws => PyList.len ws = max_length) wss
    /\ Forall (Forall is_word) (wss ++ last)
    /\ (wss = [] /\ last = []
        \/ exists ws, last = [ws] /\ 0 < PyList.len ws < max_length)
    /\ linked overlap (wss ++ last).
Proof.
  intros Hov.
  destruct (run_windows max_length overlap page_texts Hov)
    as (wss & [Hch Hfull Hcnt Hroom Hws Hpend Hlink]).
  apply Forall_and in Hfull as [Hfull Hwords].
  unfold chunk_text, flush.
  destruct (current_chunk (run max_length overlap page_texts)) as [|w ws] eqn:Ecur.
  - cbn [PyList.truthy fst].
    assert (wss = []) as ->.
    { destruct wss as [|x wss]; [reflexivity|].
      assert (overlap <= word_count (run max_length overlap page_texts))
        by (apply Hpend; discriminate).
      rewrite Hcnt in *. unfold PyList.len in *. cbn in *. lia. }
    exists [], []. rewrite Hch. split; [reflexivity|].
    split; [constructor|]. split; [constructor|]. split; [now left|].
    intros i a b Ha. discriminate.
  - cbn [PyList.truthy]. rewrite strip_join_truthy by (assumption || discriminate).
    cbn [fst]. exists wss, [w :: ws].
    rewrite map_app, Hch. split; [reflexivity|]. split; [assumption|].
    split; [apply Forall_app; split; [assumption|]; constructor;
            [assumption|constructor]|].
    split; [|assumption].
    right. exists (w :: ws). split; [reflexivity|].
    rewrite Hcnt in Hroom. split; [unfold PyList.len; cbn; lia | assumption].
Qed.

(** C1, as amended: for [0 < overlap < max_length], every chunk but the
    last of the returned list holds exactly [max_length] words, and the
    last one holds fewer: a chunk is emitted when the number of words
    (not of characters) reaches [max_length]. *)
Theorem chunk_text_full_chunks page_texts max_length overlap i c :
  0 < overlap < max_length ->
  (chunk_text page_texts max_length overlap).1 !! i = Some c ->
  ((S i < length (chunk_text page_texts max_length overlap).1)%nat ->
     PyList.len (split c) = max_length)
  /\ (S i = length (chunk_text page_texts max_length overlap).1 ->
     0 < PyList.len (split c) < max_length).
Proof.
  intros Hov Hc.
  destruct (chunk_text_windows page_texts max_length overlap Hov)
    as (wss & lst & Heq & Hfull & Hwords & Hlast & _).
  rewrite Heq in Hc |- *. rewrite length_map, length_app.
  rewrite list_lookup_fmap in Hc.
  destruct ((wss ++ lst) !! i) as [ws|] eqn:Hws; [|discriminate].
  inversion Hc; subst c.
  rewrite split_join by (eapply Forall_lookup_1; eassumption).
  destruct Hlast as [[-> ->] | (cur & -> & Hcur)].
  - discriminate.
  - cbn [length]. split; intros Hi.
    + assert (Hlt : (i < length wss)%nat) by lia.
      rewrite (lookup_app_l wss [cur] i Hlt) in Hws.
      now apply (Forall_lookup_1 _ _ _ _ Hfull Hws).
    + assert (Hi' : i = length wss) by lia. subst i.
      rewrite list_lookup_middle in Hws by reflexivity.
      now inversion Hws; subst ws.
Qed.

Lemma chunk_text_full_chunks_witness :
  0 < 1 < 3
  /\ PyList.len (split "a b c") = 3.
Proof.
  split; [lia|].
  apply (chunk_text_full_chunks
           [("a b c"%string, 1); (EmptyString, 2); ("d e f g"%string, 3)] 3 1 0);
    [lia | reflexivity | vm_compute; lia].
Defined.

(** C1 as stated fails: with [overlap = 0] the slice [current_chunk[-0:]]
    keeps the whole chunk, and the chunks emitted before the last one
    grow past [max_length], in words as in characters. *)
Lemma chunk_text_overgrown_chunk :
  (chunk_text [("aa bb cc dd"%string, 1)] 2 0).1
    = ["aa bb"; "aa bb cc"; "aa bb cc dd"; "aa bb cc dd"]%string
  /\ PyList.len (split "aa bb cc") <> 2
  /\ len "aa bb cc" <> 2.
Proof. split; [reflexivity|]. split; vm_compute; discriminate. Qed.

(** The threshold is a number of words: two words make a chunk of five
    characters here. *)
Example chunk_text_counts_words :
  (chunk_text [("aa bb cc"%string, 1)] 2 1).1 = ["aa bb"; "bb cc"; "cc"]%string
  /\ len "aa bb" = 5.
Proof. split; reflexivity. Qed.

(** C2: for [0 < overlap < max_length], every chunk after the first begins
    with the last [overlap] words of the chunk before it, and these are
    exactly [overlap] words. *)
Theorem chunk_text_overlap page_texts max_length overlap i c1 c2 :
  0 < overlap < max_length ->
  (chunk_text page_texts max_length overlap).1 !! i = Some c1 ->
  (chunk_text page_texts max_length overlap).1 !! S i = Some c2 ->
  PyList.len (last_words overlap (split c1)) = overlap
  /\ last_words overlap (split c1) `prefix_of` split c2.
Proof.
  intros Hov Hc1 Hc2.
  assert (Hi : (S i < length (chunk_text page_texts max_length overlap).1)%nat).
  { now apply lookup_lt_Some in Hc2. }
  destruct (chunk_text_windows page_texts max_length overlap Hov)
    as (wss & lst & Heq & Hfull & Hwords & Hlast & Hlink).
  assert (Hlen : (length lst <= 1)%nat).
  { destruct Hlast as [[_ ->] | (cur & -> & _)]; cbn; lia. }
  rewrite Heq in Hc1, Hc2, Hi. rewrite length_map, length_app in Hi.
  rewrite list_lookup_fmap in Hc1, Hc2.
  destruct ((wss ++ lst) !! i) as [ws1|] eqn:Hws1; [|discriminate].
  destruct ((wss ++ lst) !! S i) as [ws2|] eqn:Hws2; [|discriminate].
  inversion Hc1; subst c1. inversion Hc2; subst c2.
  rewrite !split_join by (eapply Forall_lookup_1; eassumption).
  split; [|now apply (Hlink i)].
  assert (Hlt : (i < length wss)%nat) by lia.
  rewrite (lookup_app_l wss lst i Hlt) in Hws1.
  pose proof (Forall_lookup_1 _ _ _ _ Hfull Hws1) as Hfull1. cbn in Hfull1.
  apply last_words_length. lia.
Qed.

Lemma chunk_text_overlap_witness :
  0 < 1 < 3
  /\ last_words 1 (split "a b c") `prefix_of` split "c d e".
Proof.
  split; [lia|].
  apply (chunk_text_overlap
           [("a b c"%string, 1); (EmptyString, 2); ("d e f g"%string, 3)] 3 1 0);
    [lia | reflexivity | reflexivity].
Defined.

End ChunkerFacts.

(** ** Bounded history *)

Module HistoryFacts.

Import Py Deque Spec.

Lemma drop_snoc_full {A} (l : list A) x k :
  (k <= length l)%nat -> drop 1 (drop k l ++ [x]) = drop (S k) (l ++ [x]).
Proof.
  intros Hk. rewrite <- (drop_app_le l [x] k Hk). now rewrite drop_drop, Nat.add_1_r.
Qed.

(** One [append] keeps the deque on the last [n] of all items seen. *)
Lemma append_last_words {A} (n : Z) (d : deque A) (seen : list A) (x : A) :
  0 <= n -> maxlen d = Some n -> items d = last_words n seen ->
  items (append x d) = last_words n (seen ++ [x]).
Proof.
  intros Hn Hmax Hitems. unfold append. cbn. rewrite Hmax, Hitems.
  unfold last_words, PyList.len. rewrite !length_app, length_drop. cbn.
  destruct (n <? _) eqn:E.
  - apply Z.ltb_lt in E. rewrite drop_snoc_full by lia. f_equal. lia.
  - apply Z.ltb_ge in E.
    replace (length seen - Z.to_nat n)%nat with O by lia.
    replace (length seen + 1 - Z.to_nat n)%nat with O by lia. reflexivity.
Qed.

Lemma appends_last_words {A} (n : Z) (xs : list A) : forall (d : deque A) seen,
  0 <= n -> maxlen d = Some n -> items d = last_words n seen ->
  items (foldl (fun d x => append x d) d xs) = last_words n (seen ++ xs)
  /\ maxlen (foldl (fun d x => append x d) d xs) = Some n.
Proof.
  induction xs as [|x xs IH]; intros d seen Hn Hmax Hitems; cbn.
  - now rewrite app_nil_r.
  - replace (seen ++ x :: xs) with ((seen ++ [x]) ++ xs)
      by now rewrite <- app_assoc.
    apply IH; [assumption | assumption |]. now apply append_last_words.
Qed.

Lemma new_inv {A} (n : Z) (d : deque A) :
  Deque.new (Some n) = Ok d -> 0 <= n /\ maxlen d = Some n /\ items d = [].
Proof.
  unfold Deque.new. destruct (n <? 0) eqn:E; [discriminate|].
  apply Z.ltb_ge in E. intros Hd. inversion Hd; subst. now repeat split.
Qed.

Lemma last_words_bound {A} (n : Z) (l : list A) :
  0 <= n -> PyList.len (last_words n l) <= n.
Proof. intros Hn. unfold last_words, PyList.len. rewrite length_drop. lia. Qed.

(** A deque made with [maxlen=n] holds the last [n] items appended. *)
Lemma deque_bounded {A} (n : Z) (d : deque A) (xs : list A) :
  Deque.new (Some n) = Ok d ->
  PyList.len (items (foldl (fun d x => append x d) d xs)) <= n
  /\ items (foldl (fun d x => append x d) d xs) = last_words n xs.
Proof.
  intros Hd. apply new_inv in Hd as (Hn & Hmax & Hitems).
  destruct (appends_last_words n xs d [] Hn Hmax Hitems) as [Heq _].
  cbn in Heq. rewrite Heq. split; [now apply last_words_bound | reflexivity].
Qed.

(** The six classes keep their history alike: replaying calls appends to
    the deque, and [init] makes the deque with [maxlen=max_history]. *)
Ltac replay_appends :=
  intros calls; unfold replay;
  induction calls as [|[q r] calls IH]; intros rag;
  [reflexivity | cbn; rewrite IH; reflexivity].

Ltac init_makes_deque init_def :=
  intros n rag Hinit; unfold init_def in Hinit;
  destruct (Deque.new (Some n)) as [h|e]; [|discriminate];
  inversion Hinit; reflexivity.

Lemma multi_query_replay calls : forall rag,
  MultiQueryRAG.history (replay MultiQueryRAG.add_to_history rag calls)
  = foldl (fun d x => append x d) (MultiQueryRAG.history rag) calls.
Proof. revert calls. replay_appends. Qed.

Lemma multi_document_replay calls : forall rag,
  MultiDocumentRAG.history (replay MultiDocumentRAG.add_to_history rag calls)
  = foldl (fun d x => append x d) (MultiDocumentRAG.history rag) calls.
Proof. revert calls. replay_appends. Qed.

Lemma hierarchical_replay calls : forall rag,
  HierarchicalRAG.history (replay HierarchicalRAG.add_to_history rag calls)
  = foldl (fun d x => append x d) (HierarchicalRAG.history rag) calls.
Proof. revert calls. replay_appends. Qed.

Lemma structured_output_replay calls : forall rag,
  StructuredOutputRAG.history (replay StructuredOutputRAG.add_to_history rag calls)
  = foldl (fun d x => append x d) (StructuredOutputRAG.history rag) calls.
Proof. revert calls. replay_appends. Qed.

Lemma agentic_replay calls : forall rag,
  AgenticRAG.history (replay AgenticRAG.add_to_history rag calls)
  = foldl (fun d x => append x d) (AgenticRAG.history rag) calls.
Proof. revert calls. replay_appends. Qed.

Lemma conversational_replay calls : forall rag,
  ConversationalRAG.history (replay ConversationalRAG.add_to_history rag calls)
  = foldl (fun d x => append x d) (ConversationalRAG.history rag) calls.
Proof. revert calls. replay_appends. Qed.

Lemma multi_query_init : forall n rag,
  MultiQueryRAG.init n = Ok rag ->
  Deque.new (Some n) = Ok (MultiQueryRAG.history rag).
Proof. init_makes_deque MultiQueryRAG.init. Qed.

Lemma multi_document_init : forall n rag,
  MultiDocumentRAG.init n = Ok rag ->
  Deque.new (Some n) = Ok (MultiDocumentRAG.history rag).
Proof. init_makes_deque MultiDocumentRAG.init. Qed.

Lemma hierarchical_init : forall n rag,
  HierarchicalRAG.init n = Ok rag ->
  Deque.new (Some n) = Ok (HierarchicalRAG.history rag).
Proof. init_makes_deque HierarchicalRAG.init. Qed.

Lemma structured_output_init : forall n rag,
  StructuredOutputRAG.init n = Ok rag ->
  Deque.new (Some n) = Ok (StructuredOutputRAG.history rag).
Proof. init_makes_deque StructuredOutputRAG.init. Qed.

Lemma agentic_init : forall n rag,
  AgenticRAG.init n = Ok rag ->
  Deque.new (Some n) = Ok (AgenticRAG.history rag).
Proof. init_makes_deque AgenticRAG.init. Qed.

Lemma conversational_init : forall n rag,
  ConversationalRAG.init n = Ok rag ->
  Deque.new (Some n) = Ok (ConversationalRAG.history rag).
Proof. init_makes_deque ConversationalRAG.init. Qed.

(** C10: an instance of any variant made with [max_history = n] holds,
    after any sequence of [add_to_history] calls, at most [n] turns, and
    they are the last [n] of the calls (all of them when fewer were made),
    oldest first. *)
Theorem history_bounded (n : Z)
    (query_calls : list (list string * string)) (calls : list (string * string)) :
  (forall rag, MultiQueryRAG.init n = Ok rag ->
     let h := items (MultiQueryRAG.history
                       (replay MultiQueryRAG.add_to_history rag query_calls)) in
     PyList.len h <= n /\ h = last_words n query_calls)
  /\ (forall rag, MultiDocumentRAG.init n = Ok rag ->
     let h := items (MultiDocumentRAG.history
                       (replay MultiDocumentRAG.add_to_history rag calls)) in
     PyList.len h <= n /\ h = last_words n calls)
  /\ (forall rag, HierarchicalRAG.init n = Ok rag ->
     let h := items (HierarchicalRAG.history
                       (replay HierarchicalRAG.add_to_history rag calls)) in
     PyList.len h <= n /\ h = last_words n calls)
  /\ (forall rag, StructuredOutputRAG.init n = Ok rag ->
     let h := items (StructuredOutputRAG.history
                       (replay StructuredOutputRAG.add_to_history rag calls)) in
     PyList.len h <= n /\ h = last_words n calls)
  /\ (forall rag, AgenticRAG.init n = Ok rag ->
     let h := items (AgenticRAG.history
                       (replay AgenticRAG.add_to_history rag calls)) in
     PyList.len h <= n /\ h = last_words n calls)
  /\ (forall rag, ConversationalRAG.init n = Ok rag ->
     let h := items (ConversationalRAG.history
                       (replay ConversationalRAG.add_to_history rag calls)) in
     PyList.len h <= n /\ h = last_words n calls).
Proof.
  repeat apply conj; intros rag Hinit; cbv zeta.
  - rewrite multi_query_replay.
    now apply deque_bounded, multi_query_init.
  - rewrite multi_document_replay.
    now apply deque_bounded, multi_document_init.
  - rewrite hierarchical_replay.
    now apply deque_bounded, hierarchical_init.
  - rewrite structured_output_replay.
    now apply deque_bounded, structured_output_init.
  - rewrite agentic_replay.
    now apply deque_bounded, agentic_init.
  - rewrite conversational_replay.
    now apply deque_bounded, conversational_init.
Qed.

Lemma history_bounded_witness :
  MultiDocumentRAG.init 2
    = Ok {| MultiDocumentRAG.history := {| maxlen := Some 2; items := [] |} |}
  /\ items (MultiDocumentRAG.history
              (replay MultiDocumentRAG.add_to_history
                 {| MultiDocumentRAG.history := {| maxlen := Some 2; items := [] |} |}
                 [("q1", "r1"); ("q2", "r2"); ("q3", "r3")]%string))
     = last_words 2 [("q1", "r1"); ("q2", "r2"); ("q3", "r3")]%string.
Proof.
  split; [reflexivity|].
  apply (history_bounded 2 [] [("q1", "r1"); ("q2", "r2"); ("q3", "r3")]%string).
  reflexivity.
Defined.

Example history_ex :
  items (MultiDocumentRAG.history
           (replay MultiDocumentRAG.add_to_history
              {| MultiDocumentRAG.history := {| maxlen := Some 2; items := [] |} |}
              [("q1", "r1"); ("q2", "r2"); ("q3", "r3")]%string))
  = [("q2", "r2"); ("q3", "r3")]%string.
Proof. reflexivity. Qed.

End HistoryFacts.

(** ** [extract_pdf_text_with_pages] *)

Module ExtractFacts.

Import Py File ChromaUtils Spec.

Section WithExternals.

Context `{Externals}.

Lemma numbered_length start texts : length (numbered start texts) = length texts.
Proof.
  revert start. induction texts as [|t ts IH]; intros start; cbn; [reflexivity|].
  now rewrite IH.
Qed.

Lemma numbered_lookup texts : forall start i t,
  texts !! i = Some t ->
  numbered start texts !! i
    = Some (PyStr.strip (default EmptyString t), start + Z.of_nat i + 1).
Proof.
  induction texts as [|t0 ts IH]; intros start i t Hi; [discriminate|].
  destruct i as [|i]; cbn in *.
  - inversion Hi; subst. do 2 f_equal. lia.
  - rewrite (IH _ _ _ Hi). do 2 f_equal. lia.
Qed.

Lemma index_middle {A} (done rest : list A) x :
  index (done ++ x :: rest) (PyList.len done) = Ok x.
Proof.
  unfold index, PyList.len.
  destruct (Z.of_nat (length done) <? 0) eqn:E; [apply Z.ltb_lt in E; lia|].
  rewrite Nat2Z.id. now rewrite list_lookup_middle.
Qed.

(** The loop of lines 30-37 on pages that all decode. *)
Lemma extract_loop texts (f : file) : forall rest done acc,
  texts = done ++ rest ->
  for_each_M
    (fun page_texts page_num =>
       p ← lift (index (map Ok texts) page_num);
       extracted ← lift p;
       let text := default EmptyString extracted in
       let text := PyStr.strip text in
       mret (page_texts ++ [(text, page_num + 1)]))
    acc (seqZ (PyList.len done) (PyList.len rest)) f
  = (f, Ok (acc ++ numbered (PyList.len done) rest)).
Proof.
  induction rest as [|t rest IH]; intros done acc Htexts.
  - cbn. now rewrite app_nil_r.
  - assert (Hidx : index (map Ok texts) (PyList.len done) = Ok (Ok t)).
    { rewrite Htexts, map_app. cbn [map].
      replace (PyList.len done) with (PyList.len (map (@Ok (option string)) done))
        by (unfold PyList.len; now rewrite length_map).
      apply index_middle. }
    replace (PyList.len (t :: rest)) with (Z.succ (PyList.len rest))
      by (unfold PyList.len; cbn [length]; lia).
    rewrite seqZ_cons by (unfold PyList.len; lia).
    rewrite Z.pred_succ. cbn [for_each_M].
    unfold mbind at 1, M_bind at 1. unfold mbind at 1, M_bind at 1.
    unfold lift at 1. rewrite Hidx.
    unfold mbind at 1, M_bind at 1, lift at 1.
    unfold mret at 1, M_ret at 1.
    replace (Z.succ (PyList.len done)) with (PyList.len (done ++ [t]))
      by (unfold PyList.len; rewrite length_app; cbn; lia).
    rewrite IH by (now rewrite <- app_assoc).
    rewrite <- app_assoc. cbn [app numbered default].
    replace (PyList.len (done ++ [t])) with (PyList.len done + 1)
      by (unfold PyList.len; rewrite length_app; cbn; lia).
    reflexivity.
Qed.

(** What the function returns on a readable PDF. *)
Lemma extract_readable (f : file) texts :
  closed f = false -> pdf_reader (content f) = Ok (map Ok texts) ->
  extract_pdf_text_with_pages f
  = ({| closed := false; content := content f;
        pos := pdf_reader_tell (content f) |},
     Ok (numbered 0 texts)).
Proof.
  intros Hopen Hpdf.
  unfold extract_pdf_text_with_pages, try_except, extract_pdf_text_with_pages_body.
  unfold mbind at 1, M_bind at 1, seek0. rewrite Hopen.
  unfold mbind at 1, M_bind at 1, PdfReader. cbn [closed content].
  rewrite Hpdf.
  replace (PyList.len (map Ok texts)) with (PyList.len texts)
    by (unfold PyList.len; now rewrite length_map).
  pose proof (extract_loop texts
                {| closed := false; content := content f;
                   pos := pdf_reader_tell (content f) |} texts [] []
                eq_refl) as Hloop.
  change (PyList.len []) with 0 in Hloop. cbn [app] in Hloop.
  now rewrite Hloop.
Qed.

(** C7: on a readable PDF of [n] pages the function returns [n] pairs, in
    page order; the pair of page [i] (counted from 0) is the stripped text
    of the page, the empty string when the page has none, with the number
    [i + 1]. *)
Theorem extract_all_pages (f : file) (texts : list (option string)) :
  closed f = false ->
  pdf_reader (content f) = Ok (map Ok texts) ->
  exists page_texts,
    (extract_pdf_text_with_pages f).2 = Ok page_texts
    /\ length page_texts = length texts
    /\ (forall i t, texts !! i = Some t ->
          page_texts !! i
            = Some (PyStr.strip (default EmptyString t), Z.of_nat i + 1))
    /\ (forall i, texts !! i = Some None ->
          page_texts !! i = Some (EmptyString, Z.of_nat i + 1)).
Proof.
  intros Hopen Hpdf. exists (numbered 0 texts).
  rewrite (extract_readable f texts Hopen Hpdf). cbn [snd].
  split; [reflexivity|]. split; [apply numbered_length|]. split.
  - intros i t Hi. now rewrite (numbered_lookup texts 0 i t Hi).
  - intros i Hi. now rewrite (numbered_lookup texts 0 i None Hi).
Qed.

End WithExternals.

Example extract_ex :
  (@extract_pdf_text_with_pages (Toy.externals Toy.no_faults Toy.no_query)
     (Toy.open_file " first page ||third")).2
  = Ok [("first page", 1); (EmptyString, 2); ("third", 3)]%string.
Proof. reflexivity. Qed.

Lemma extract_all_pages_witness :
  closed (Toy.open_file " first page ||third") = false
  /\ exists page_texts,
       (@extract_pdf_text_with_pages (Toy.externals Toy.no_faults Toy.no_query)
          (Toy.open_file " first page ||third")).2 = Ok page_texts
       /\ length page_texts = 3%nat
       /\ (forall i t, [Some " first page "; None; Some "third"]%string !! i = Some t ->
             page_texts !! i
               = Some (PyStr.strip (default EmptyString t), Z.of_nat i + 1))
       /\ (forall i, [Some " first page "; None; Some "third"]%string !! i = Some None ->
             page_texts !! i = Some (EmptyString, Z.of_nat i + 1)).
Proof.
  split; [reflexivity|].
  apply (@extract_all_pages (Toy.externals Toy.no_faults Toy.no_query)
           (Toy.open_file " first page ||third")
           [Some " first page "; None; Some "third"]%string);
    vm_compute; reflexivity.
Defined.

End ExtractFacts.

(** ** [query_collections] *)

Module QueryFacts.

Import Py Chroma ChromaUtils Spec PyListFacts.


Lemma for_each_concat {A B} (f : B -> result (list A)) cs : forall acc,
  for_each (fun results c => parsed ← f c; mret (results ++ parsed)) acc cs
  = per ← mapM f cs; mret (acc ++ concat per).
Proof.
  induction cs as [|c cs IH]; intros acc; cbn.
  - unfold mret, result_ret. now rewrite app_nil_r.
  - unfold mbind at 1 3, result_bind. destruct (f c) as [parsed|e]; [|reflexivity].
    cbn. rewrite IH. fold (mapM f cs). unfold mbind, result_bind.
    destruct (mapM f cs) as [per|e]; [|reflexivity].
    cbn. unfold mret, result_ret. now rewrite app_assoc.
Qed.

Lemma insert_desc_perm x l : insert_desc x l ≡ₚ x :: l.
Proof.
  induction l as [|y l IH]; cbn; [reflexivity|].
  destruct (Qle_bool _ _); [reflexivity|].
  rewrite IH. apply Permutation_swap.
Qed.

Lemma sorted_desc_perm l : sorted_desc l ≡ₚ l.
Proof.
  induction l as [|x l IH]; cbn; [reflexivity|].
  fold (sorted_desc l). now rewrite insert_desc_perm, IH.
Qed.

Lemma insert_desc_descending x l : descending l -> descending (insert_desc x l).
Proof.
  unfold descending. induction 1 as [|y l Hl IH Hy]; cbn.
  - repeat constructor.
  - destruct (Qle_bool (similarity y) (similarity x)) eqn:E.
    + apply Qle_bool_iff in E. constructor; [now constructor|].
      constructor; [assumption|].
      eapply Forall_impl; [exact Hy|]. cbn. intros b Hb.
      now apply Qle_trans with (similarity y).
    + assert (Hlt : (similarity x <= similarity y)%Q).
      { apply Qlt_le_weak, Qnot_le_lt. intros Hle.
        apply Qle_bool_iff in Hle. congruence. }
      constructor; [assumption|].
      rewrite insert_desc_perm. now constructor.
Qed.

Lemma sorted_desc_descending l : descending (sorted_desc l).
Proof.
  induction l as [|x l IH]; cbn; [constructor|].
  now apply insert_desc_descending.
Qed.

Lemma descending_take n l : descending l -> descending (take n l).
Proof.
  unfold descending. intros Hl. revert n.
  induction Hl as [|y l Hl IH Hy]; intros [|n]; cbn; try constructor.
  - apply IH.
  - now apply Forall_take.
Qed.

Section WithExternals.

Context `{Externals}.

(** What the body returns when nothing raises. *)
Lemma query_collections_body_ok query collections top_k results :
  query_collections_body query collections top_k = Ok results ->
  exists emb e0 per,
    encode [query] = Ok emb
    /\ index emb 0 = Ok e0
    /\ mapM (query_one emb top_k) collections = Ok per
    /\ results = PyList.slice_to top_k (sorted_desc (concat per)).
Proof.
  unfold query_collections_body. intros Hbody.
  unfold mbind at 1, result_bind at 1 in Hbody.
  destruct (encode [query]) as [emb|e] eqn:Eemb; [|discriminate].
  unfold mbind at 1, result_bind at 1 in Hbody.
  destruct (index emb 0) as [e0|e] eqn:Eidx; [|discriminate].
  rewrite for_each_concat in Hbody.
  unfold mbind at 1 2, result_bind at 1 2 in Hbody.
  destruct (mapM (query_one emb top_k) collections) as [per|e] eqn:Eper;
    [|discriminate].
  cbn in Hbody. inversion Hbody. now exists emb, e0, per.
Qed.

Lemma query_collections_cases query collections top_k :
  query_collections query collections top_k
    = query_collections_body query collections top_k
  \/ query_collections query collections top_k = Ok [].
Proof.
  unfold query_collections, try_except_pure.
  destruct (query_collections_body _ _ _); [now left | now right].
Qed.









End WithExternals.


(** A distance of [None] makes the print of line 223 raise, so the branch
    of line 222 that maps [None] to 0 never shows in a result. *)
Example none_distance_is_an_error :
  @query_collections
    (Toy.externals Toy.no_faults (Toy.one_chunk "c1" None))
    "q" [{| name := "a" |}] 3 = Ok [].
Proof. vm_compute. reflexivity. Qed.



End QueryFacts.

(** ** [add_documents] *)

Module AddFacts.

Import Py File Chroma ChromaUtils Spec PyListFacts.

Lemma substring_all s : String.substring 0 (String.length s) s = s.
Proof. induction s as [|c s IH]; cbn; [reflexivity | now rewrite IH]. Qed.

Lemma take_pad_length n s : String.length (Toy.take_pad n s) = n.
Proof.
  revert s; induction n as [|n IH]; intros s; [reflexivity|].
  destruct s; simpl; now rewrite IH.
Qed.

Section WithExternals.

Context `{Externals}.

(** A hex digest of MD5 has 32 characters. *)
Hypothesis md5_hexdigest_length :
  forall data, String.length (md5_hexdigest data) = 32%nat.

Lemma md5_truthy data : PyStr.truthy (md5_hexdigest data) = true.
Proof.
  pose proof (md5_hexdigest_length data) as Hlen.
  destruct (md5_hexdigest data); [discriminate | reflexivity].
Qed.

Lemma seek_open db (f : file) :
  closed f = false ->
  on_file seek0 (db, f)
  = ((db, {| closed := false; content := content f; pos := 0 |}), Ok tt).
Proof. intros Hopen. unfold on_file, seek0. cbn [fst snd]. now rewrite Hopen. Qed.

(** After [seek(0)], hashing reads the whole content. *)
Lemma hash_rewound db data :
  on_file get_pdf_hash (db, {| closed := false; content := data; pos := 0 |})
  = ((db, {| closed := false; content := data; pos := String.length data |}),
     Ok (Some (md5_hexdigest data))).
Proof.
  unfold on_file, get_pdf_hash, try_except, get_pdf_hash_body, mbind, M_bind, read.
  cbn [fst snd closed content pos]. rewrite Nat.sub_0_r, substring_all. reflexivity.
Qed.

(** The whole outcome on a PDF whose collection already holds documents. *)
Lemma add_documents_existing filename db (f : file) es :
  closed f = false ->
  db !! ("pdf_" +:+ md5_hexdigest (content f)) = Some es ->
  es <> [] ->
  add_documents filename (db, f)
  = ((db, {| closed := false; content := content f;
             pos := String.length (content f) |}),
     match chroma_raises (GetOrCreate ("pdf_" +:+ md5_hexdigest (content f))),
           chroma_raises (Count ("pdf_" +:+ md5_hexdigest (content f))) with
     | None, None =>
         Ok (Some {| name := "pdf_" +:+ md5_hexdigest (content f) |}, false)
     | _, _ => Ok (None, false)
     end).
Proof.
  intros Hopen Hdb Hes.
  unfold add_documents, try_except, add_documents_body.
  unfold mbind at 1, M_bind at 1. rewrite (seek_open db f Hopen).
  unfold mbind at 1, M_bind at 1. rewrite hash_rewound.
  rewrite md5_truthy. cbn [negb].
  unfold mbind at 1, M_bind at 1.
  unfold on_db at 1, get_or_create_collection. cbn [fst snd].
  destruct (chroma_raises (GetOrCreate _)) as [e|] eqn:Eget; [reflexivity|].
  rewrite Hdb.
  unfold mbind at 1, M_bind at 1.
  unfold on_db at 1, count. cbn [fst snd name].
  destruct (chroma_raises (Count _)) as [e|] eqn:Ecount; [reflexivity|].
  rewrite Hdb.
  assert (Hpos : (0 <? PyList.len es) = true).
  { apply Z.ltb_lt. unfold PyList.len. destruct es; [congruence | cbn; lia]. }
  rewrite Hpos.
  unfold mbind at 1, M_bind at 1.
  unfold on_db at 1, count. cbn [fst snd name]. rewrite ?Ecount, Hdb.
  reflexivity.
Qed.

(** C3: when the collection named after the MD5 of the file already holds
    a document, [add_documents] leaves the store as it is and reports
    [processed = False]; it returns that collection, unless Chroma itself
    raises. *)
Theorem add_documents_dedup filename db (f : file) es :
  closed f = false ->
  db !! ("pdf_" +:+ md5_hexdigest (content f)) = Some es ->
  es <> [] ->
  (add_documents filename (db, f)).1.1 = db
  /\ (exists c, (add_documents filename (db, f)).2 = Ok (c, false))
  /\ (chroma_raises (GetOrCreate ("pdf_" +:+ md5_hexdigest (content f))) = None ->
      chroma_raises (Count ("pdf_" +:+ md5_hexdigest (content f))) = None ->
      (add_documents filename (db, f)).2
      = Ok (Some {| name := "pdf_" +:+ md5_hexdigest (content f) |}, false)).
Proof.
  intros Hopen Hdb Hes.
  rewrite (add_documents_existing filename db f es Hopen Hdb Hes). cbn [fst snd].
  split; [reflexivity|]. split.
  - destruct (chroma_raises (GetOrCreate _)); [now exists None|].
    destruct (chroma_raises (Count _)); [now exists None|]. eexists; reflexivity.
  - intros -> ->. reflexivity.
Qed.

(** *** The first call makes the second one a no-op *)









End WithExternals.



(** The same file goes in when Chroma works. *)
Example add_documents_ex :
  (@add_documents (Toy.externals Toy.no_faults Toy.no_query) "a.pdf"
     (∅, Toy.open_file "hello world")).2
  = Ok (Some {| name := "pdf_hello world000000000000000000000" |}, true).
Proof. vm_compute. reflexivity. Qed.

(** A page that cannot be decoded empties the extraction, and
    [add_documents] keeps the collection it made. *)
Example extraction_failure_keeps_collection :
  (@extract_pdf_text_with_pages (Toy.externals Toy.no_faults Toy.no_query)
     (Toy.open_file "hello world|!")).2 = Ok []
  /\ (@add_documents (Toy.externals Toy.no_faults Toy.no_query) "a.pdf"
        (∅, Toy.open_file "hello world|!")).2
     = Ok (Some {| name := "pdf_hello world|!0000000000000000000" |}, false).
Proof. split; vm_compute; reflexivity. Qed.

Lemma add_documents_dedup_witness :
  (forall data, String.length (Toy.take_pad 32 data) = 32%nat)
  /\ File.closed (Toy.open_file "hello world") = false
  /\ (@add_documents (Toy.externals Toy.no_faults Toy.no_query) "a.pdf"
        ({[ "pdf_hello world000000000000000000000"%string :=
              [{| entry_id := "hello world000000000000000000000_0";
                  entry_document := "hello world";
                  entry_embedding := [inject_Z 11];
                  entry_metadata := ∅ |}] ]},
         Toy.open_file "hello world")).2
     = Ok (Some {| name := "pdf_hello world000000000000000000000" |}, false).
Proof.
  split; [exact (take_pad_length 32)|]. split; [reflexivity|].
  apply (@add_documents_dedup (Toy.externals Toy.no_faults Toy.no_query)
           (take_pad_length 32) "a.pdf"
           {[ "pdf_hello world000000000000000000000"%string :=
                [{| entry_id := "hello world000000000000000000000_0";
                    entry_document := "hello world";
                    entry_embedding := [inject_Z 11];
                    entry_metadata := ∅ |}] ]}
           (Toy.open_file "hello world")
           [{| entry_id := "hello world000000000000000000000_0";
               entry_document := "hello world";
               entry_embedding := [inject_Z 11];
               entry_metadata := ∅ |}]).
  - reflexivity.
  - vm_compute. reflexivity.
  - discriminate.
  - reflexivity.
  - reflexivity.
Defined.

End AddFacts.

(** ** The multi-query and the multi-document variant *)

Module VariantFacts.

Import Py Chroma ChromaUtils Spec PyListFacts PyStrFacts.

Section WithExternals.

Context `{Externals}.

Lemma query_collections_ok query collections top_k :
  exists results, query_collections query collections top_k = Ok results.
Proof.
  unfold query_collections, try_except_pure.
  destruct (query_collections_body _ _ _) as [r|e]; eauto.
Qed.

(** The loop of [multi_query_rag] over the results of one query keeps
    the first result of every chunk id, and appends its text. *)
Lemma multi_query_loop query results : forall st,
  MultiQueryRAG.query_results (foldl (MultiQueryRAG.chunk_step query) st results)
  = MultiQueryRAG.query_results st
      ++ first_by_chunk_id (MultiQueryRAG.chunk_ids st) results.
Proof.
  unfold first_by_chunk_id.
  induction results as [|h results IH]; intros st; cbn [foldl first_by].
  - now rewrite app_nil_r.
  - rewrite IH. unfold MultiQueryRAG.chunk_step.
    destruct (bool_decide _); [reflexivity|].
    cbn. now rewrite <- app_assoc.
Qed.

Lemma multi_query_loop_text query results : forall st,
  MultiQueryRAG.raw_response (foldl (MultiQueryRAG.chunk_step query) st results)
  = MultiQueryRAG.raw_response st
      +:+ concat_all (map MultiQueryRAG.chunk_text_of
                        (first_by_chunk_id (MultiQueryRAG.chunk_ids st) results)).
Proof.
  unfold first_by_chunk_id.
  induction results as [|h results IH]; intros st; cbn [foldl first_by map].
  - cbn. now rewrite append_nil_r.
  - rewrite IH. unfold MultiQueryRAG.chunk_step.
    destruct (bool_decide _); [reflexivity|].
    cbn. now rewrite append_assoc.
Qed.

(** So does the loop of [multi_document_rag], on the numbered results. *)
Lemma multi_document_loop numbered : forall st,
  MultiDocumentRAG.shown (foldl MultiDocumentRAG.chunk_step st numbered)
  = MultiDocumentRAG.shown st
      ++ map snd (first_by (fun ir => chunk_id (metadata ir.2))
                           (MultiDocumentRAG.chunk_ids st) numbered).
Proof.
  induction numbered as [|[i h] numbered IH]; intros st; cbn [foldl first_by map].
  - now rewrite app_nil_r.
  - rewrite IH. unfold MultiDocumentRAG.chunk_step. cbn [snd].
    destruct (bool_decide _); [reflexivity|].
    cbn. now rewrite <- app_assoc.
Qed.

Lemma multi_document_loop_text numbered : forall st,
  MultiDocumentRAG.raw_response (foldl MultiDocumentRAG.chunk_step st numbered)
  = MultiDocumentRAG.raw_response st
      +:+ concat_all
            (map (fun ir => MultiDocumentRAG.chunk_text_of ir.1 ir.2)
                 (first_by (fun ir => chunk_id (metadata ir.2))
                           (MultiDocumentRAG.chunk_ids st) numbered)).
Proof.
  induction numbered as [|[i h] numbered IH]; intros st; cbn [foldl first_by map].
  - cbn. now rewrite append_nil_r.
  - rewrite IH. unfold MultiDocumentRAG.chunk_step. cbn [snd].
    destruct (bool_decide _); [reflexivity|].
    cbn. now rewrite append_assoc.
Qed.

(** Numbering the results does not change which of them are kept. *)
Lemma first_by_numbered (results : list hit) : forall (idx : list Z) seen,
  length idx = length results ->
  map snd (first_by (fun ir : Z * hit => chunk_id (metadata ir.2)) seen
             (zip idx results))
  = first_by_chunk_id seen results.
Proof.
  unfold first_by_chunk_id.
  induction results as [|h results IH]; intros [|i idx] seen Hlen;
    try discriminate; cbn [zip zip_with first_by map]; [reflexivity|].
  cbn [snd]. destruct (bool_decide _); cbn [map snd];
    rewrite IH by (cbn in Hlen; lia); reflexivity.
Qed.

(** What a raw multi-query call on one query retrieves and answers. *)
Lemma multi_query_single query collections top_k results self :
  collections <> [] ->
  query_collections query collections top_k = Ok results ->
  exists self' reply,
    MultiQueryRAG.multi_query_rag [query] collections top_k false self
      = (self', Ok reply)
    /\ retrieved reply = first_by_chunk_id ∅ results
    /\ (results <> [] ->
        text reply
        = PyStr.nl +:+ "Raw Multi-Query RAG Response:" +:+ PyStr.nl
            +:+ PyStr.nl +:+ "Query: " +:+ query +:+ PyStr.nl
            +:+ concat_all (map MultiQueryRAG.chunk_text_of
                              (first_by_chunk_id ∅ results))
            +:+ PyStr.nl).
Proof.
  intros Hcs Hq.
  unfold MultiQueryRAG.multi_query_rag, try_except,
    MultiQueryRAG.multi_query_rag_body.
  destruct collections as [|c cs]; [congruence|]. cbn [PyList.truthy negb].
  unfold mbind at 1, M_bind at 1, lift. cbn [for_each].
  unfold MultiQueryRAG.query_step at 1. rewrite Hq.
  unfold mbind at 1, result_bind at 1.
  destruct results as [|h results].
  - cbn. eexists _, _. split; [reflexivity|]. split; [reflexivity | congruence].
  - cbn [PyList.truthy negb]. unfold mret at 1, result_ret at 1.
    cbn [MultiQueryRAG.all_results MultiQueryRAG.q_raw_response app].
    rewrite multi_query_loop, multi_query_loop_text.
    cbn [MultiQueryRAG.query_results MultiQueryRAG.raw_response app
         MultiQueryRAG.chunk_ids MultiQueryRAG.q_chunk_ids].
    assert (Hkept : PyList.truthy (first_by_chunk_id ∅ (h :: results)) = true).
    { unfold first_by_chunk_id. cbn [first_by].
      rewrite bool_decide_eq_false_2 by set_solver. reflexivity. }
    rewrite Hkept. cbn [negb].
    unfold mbind at 1, M_bind at 1, MultiQueryRAG.add_to_history at 1.
    unfold mret, M_ret.
    eexists _, _. split; [reflexivity|]. split; [reflexivity|].
    intros _. cbn [text].
    now rewrite append_nil_l, !append_assoc.
Qed.

(** What a raw multi-document call on a non-empty query retrieves and
    answers. *)
Lemma multi_document_single query collections top_k results self :
  collections <> [] ->
  PyStr.truthy query = true ->
  query_collections query collections top_k = Ok results ->
  exists self' reply,
    MultiDocumentRAG.multi_document_rag query collections top_k false self
      = (self', Ok reply)
    /\ retrieved reply = first_by_chunk_id ∅ results
    /\ (results <> [] ->
        exists numbered,
          map snd numbered = first_by_chunk_id ∅ results
          /\ text reply
             = PyStr.nl +:+ "Raw Multi-Document RAG Response:" +:+ PyStr.nl
                 +:+ concat_all
                       (map (fun ir => MultiDocumentRAG.chunk_text_of ir.1 ir.2)
                            numbered)).
Proof.
  intros Hcs Hquery Hq.
  unfold MultiDocumentRAG.multi_document_rag, try_except,
    MultiDocumentRAG.multi_document_rag_body.
  destruct collections as [|c cs]; [congruence|]. cbn [PyList.truthy negb].
  rewrite Hquery. cbn [negb].
  unfold mbind at 1, M_bind at 1, lift. rewrite Hq.
  destruct results as [|h results].
  - cbn. eexists _, _. split; [reflexivity|]. split; [reflexivity | congruence].
  - cbn [PyList.truthy negb].
    assert (Hlen : length (seqZ 0 (PyList.len (h :: results)))
                   = length (h :: results)).
    { rewrite length_seqZ. unfold PyList.len. lia. }
    assert (Hids : MultiDocumentRAG.chunk_ids
                     (foldl MultiDocumentRAG.chunk_step
                        {| MultiDocumentRAG.chunk_ids := ∅;
                           MultiDocumentRAG.raw_response := EmptyString;
                           MultiDocumentRAG.context := EmptyString;
                           MultiDocumentRAG.shown := [] |}
                        (zip (seqZ 0 (PyList.len (h :: results))) (h :: results)))
                   <> ∅).
    { unfold PyList.len. cbn [length]. rewrite seqZ_cons by lia.
      cbn [zip zip_with foldl]. unfold MultiDocumentRAG.chunk_step at 2.
      rewrite bool_decide_eq_false_2 by set_solver.
      cbn [MultiDocumentRAG.chunk_ids].
      generalize (zip_with pair (seqZ (Z.succ 0) (Z.pred (Z.of_nat (S (length results))))) results).
      intros l.
      match goal with
      | |- MultiDocumentRAG.chunk_ids (foldl _ ?st0 l) <> ∅ =>
          assert (Hin : chunk_id (metadata h) ∈ MultiDocumentRAG.chunk_ids st0)
            by (cbn; set_solver);
          generalize dependent st0
      end.
      induction l as [|[i x] l IH]; intros st0 Hin; cbn [foldl].
      - set_solver.
      - apply IH. unfold MultiDocumentRAG.chunk_step.
        destruct (bool_decide _); [assumption|]. cbn. set_solver. }
    rewrite bool_decide_eq_false_2 by exact Hids.
    cbn [negb]. rewrite multi_document_loop, multi_document_loop_text.
    cbn [MultiDocumentRAG.shown MultiDocumentRAG.chunk_ids
         MultiDocumentRAG.raw_response app].
    rewrite (first_by_numbered (h :: results) _ ∅ Hlen).
    unfold mbind at 1, M_bind at 1, MultiDocumentRAG.add_to_history at 1.
    unfold mret, M_ret.
    eexists _, _. split; [reflexivity|]. split; [reflexivity|].
    intros _. eexists. split; [exact (first_by_numbered (h :: results) _ ∅ Hlen)|].
    cbn [text]. now rewrite append_nil_l.
Qed.

(** C8, as amended: for a non-empty query, the raw multi-query call on
    that single query and the raw multi-document call retrieve the same
    results, in the same order: the results of [query_collections] with
    repeated chunk ids dropped. Each response is its heading followed by
    one text per retrieved result, in the format of its class. *)
Theorem same_chunks_retrieved query collections top_k selfq selfd :
  PyStr.truthy query = true ->
  exists replyq replyd,
    (MultiQueryRAG.multi_query_rag [query] collections top_k false selfq).2
      = Ok replyq
    /\ (MultiDocumentRAG.multi_document_rag query collections top_k false selfd).2
      = Ok replyd
    /\ retrieved replyq = retrieved replyd
    /\ (collections <> [] ->
        forall results,
          query_collections query collections top_k = Ok results ->
          retrieved replyq = first_by_chunk_id ∅ results
          /\ (results <> [] ->
              text replyq
              = PyStr.nl +:+ "Raw Multi-Query RAG Response:" +:+ PyStr.nl
                  +:+ PyStr.nl +:+ "Query: " +:+ query +:+ PyStr.nl
                  +:+ concat_all (map MultiQueryRAG.chunk_text_of
                                    (retrieved replyq))
                  +:+ PyStr.nl
              /\ exists numbered,
                   map snd numbered = retrieved replyd
                   /\ text replyd
                      = PyStr.nl +:+ "Raw Multi-Document RAG Response:"
                          +:+ PyStr.nl
                          +:+ concat_all
                                (map (fun ir =>
                                        MultiDocumentRAG.chunk_text_of ir.1 ir.2)
                                     numbered))).
Proof.
  intros Hquery.
  destruct collections as [|c cs].
  - eexists _, _. cbn. split; [reflexivity|]. split; [reflexivity|].
    split; [reflexivity | congruence].
  - destruct (query_collections_ok query (c :: cs) top_k) as (results & Hq).
    destruct (multi_query_single query (c :: cs) top_k results selfq) as
      (selfq' & replyq & Hmq & Hrq & Htq); [congruence | assumption |].
    destruct (multi_document_single query (c :: cs) top_k results selfd) as
      (selfd' & replyd & Hmd & Hrd & Htd); [congruence | assumption | assumption |].
    exists replyq, replyd. rewrite Hmq, Hmd. cbn [snd].
    split; [reflexivity|]. split; [reflexivity|].
    split; [congruence|].
    intros _ results' Hq'. rewrite Hq in Hq'. inversion Hq'; subst results'.
    split; [assumption|]. intros Hne. rewrite Hrq, Hrd. split; [now apply Htq|].
    now apply Htd.
Qed.

End WithExternals.

(** C8 as stated fails on the empty query: [multi_document_rag] answers
    [No query provided.] before it queries, [multi_query_rag] queries with
    the empty string and puts the chunk it finds into its response. *)
Lemma empty_query_differs :
  exists selfq replyq selfd,
    @MultiQueryRAG.multi_query_rag
      (Toy.externals Toy.no_faults (Toy.one_chunk "c1" (Some (1 # 2))))
      [EmptyString] [{| name := "a" |}] 3 false
      {| MultiQueryRAG.history := {| Deque.maxlen := Some 5; Deque.items := [] |} |}
    = (selfq, Ok replyq)
    /\ retrieved replyq
       = [{| document := "some text";
             metadata := {| chunk_id := "c1"; page_numbers := [1; 2];
                            filename := "a.pdf" |};
             similarity := 3 # 4 |}]
    /\ @MultiDocumentRAG.multi_document_rag
         (Toy.externals Toy.no_faults (Toy.one_chunk "c1" (Some (1 # 2))))
         EmptyString [{| name := "a" |}] 3 false
         {| MultiDocumentRAG.history := {| Deque.maxlen := Some 5; Deque.items := [] |} |}
       = (selfd, Ok {| text := "No query provided."; retrieved := [] |}).
Proof.
  eexists _, _, _. split; [vm_compute; reflexivity|].
  split; [reflexivity | vm_compute; reflexivity].
Qed.

Example same_chunks_ex :
  (@MultiDocumentRAG.multi_document_rag
     (Toy.externals Toy.no_faults (Toy.one_chunk "c1" (Some (1 # 2))))
     "q"%string [{| name := "a" |}; {| name := "b" |}] 3 false
     {| MultiDocumentRAG.history := {| Deque.maxlen := Some 5; Deque.items := [] |} |}).2
  = Ok {| text := PyStr.nl +:+ "Raw Multi-Document RAG Response:" +:+ PyStr.nl
                    +:+ "Chunk 1 (Similarity: 0.750, Pages 1, 2, PDF: a.pdf):"
                    +:+ PyStr.nl +:+ "some text" +:+ PyStr.nl;
          retrieved :=
            [{| document := "some text";
                metadata := {| chunk_id := "c1"; page_numbers := [1; 2];
                               filename := "a.pdf" |};
                similarity := 3 # 4 |}] |}.
Proof. vm_compute. reflexivity. Qed.

Lemma same_chunks_retrieved_witness :
  PyStr.truthy "q" = true
  /\ exists replyq replyd,
       (@MultiQueryRAG.multi_query_rag
          (Toy.externals Toy.no_faults (Toy.one_chunk "c1" (Some (1 # 2))))
          ["q"%string] [{| name := "a" |}; {| name := "b" |}] 3 false
          {| MultiQueryRAG.history := {| Deque.maxlen := Some 5; Deque.items := [] |} |}).2
         = Ok replyq
       /\ (@MultiDocumentRAG.multi_document_rag
             (Toy.externals Toy.no_faults (Toy.one_chunk "c1" (Some (1 # 2))))
             "q"%string [{| name := "a" |}; {| name := "b" |}] 3 false
             {| MultiDocumentRAG.history := {| Deque.maxlen := Some 5; Deque.items := [] |} |}).2
         = Ok replyd
       /\ retrieved replyq = retrieved replyd.
Proof.
  split; [reflexivity|].
  destruct (@same_chunks_retrieved
              (Toy.externals Toy.no_faults (Toy.one_chunk "c1" (Some (1 # 2))))
              "q"%string [{| name := "a" |}; {| name := "b" |}] 3
              {| MultiQueryRAG.history := {| Deque.maxlen := Some 5; Deque.items := [] |} |}
              {| MultiDocumentRAG.history := {| Deque.maxlen := Some 5; Deque.items := [] |} |}
              eq_refl)
    as (replyq & replyd & Hq & Hd & Heq & _).
  now exists replyq, replyd.
Defined.

End VariantFacts.

(** * Further properties *)

(** ** [chunk_text], for every choice of its parameters *)

Module ChunkerMore.

Import PyStr PyStrFacts PyListFacts Chunker Spec SpecMore.

Lemma blank_page_step max_length overlap text p :
  split text = [] -> page_step max_length overlap init (text, p) = init.
Proof. intros Hs. unfold page_step. rewrite Hs. reflexivity. Qed.

(** The loop over pages without a word never leaves its initial state. *)
Lemma run_no_words page_texts max_length overlap :
  all_words page_texts = [] ->
  foldl (page_step max_length overlap) init page_texts = init.
Proof.
  intros Hw. induction page_texts as [|[text p] pts IH]; [reflexivity|].
  unfold all_words in Hw. cbn in Hw. apply app_eq_nil in Hw as [Ht Hrest].
  cbn [foldl]. rewrite blank_page_step by assumption. now apply IH.
Qed.

(** X1: Pages without a word give no chunk: in particular no pages, empty
    texts and texts of whitespace only. *)
Theorem chunk_text_no_words page_texts max_length overlap :
  all_words page_texts = [] ->
  chunk_text page_texts max_length overlap = ([], []).
Proof.
  intros Hw. unfold chunk_text, run. now rewrite run_no_words.
Qed.

Lemma chunk_text_no_words_witness :
  all_words [("  "%string, 1); (EmptyString, 2)] = []
  /\ chunk_text [("  "%string, 1); (EmptyString, 2)] 500 100 = ([], []).
Proof.
  split; [reflexivity|].
  apply (chunk_text_no_words [("  "%string, 1); (EmptyString, 2)] 500 100).
  reflexivity.
Defined.

Lemma slice_from_sublist {A} (P : A -> Prop) k (l : list A) :
  Forall P l -> Forall P (PyList.slice_from k l).
Proof. intros Hl. unfold PyList.slice_from. now apply Forall_drop. Qed.

Lemma word_step_wordy W max_length overlap p st word wss :
  wordy W st wss -> is_word word -> word ∈ W ->
  exists wss', wordy W (word_step max_length overlap p st word) wss'.
Proof.
  intros [Hch Hem Hcur] Hw HW.
  assert (Hcur' : Forall (fun w => is_word w /\ w ∈ W) (current_chunk st ++ [word])).
  { apply Forall_app. split; [assumption|]. constructor; [now split|constructor]. }
  unfold word_step. destruct (max_length <=? word_count st + 1).
  - exists (wss ++ [current_chunk st ++ [word]]). constructor; cbn.
    + now rewrite map_app, Hch.
    + apply Forall_app. split; [assumption|]. constructor; [assumption|constructor].
    + destruct (overlap <? _); [now apply slice_from_sublist | assumption].
  - exists wss. now constructor.
Qed.

Lemma foldl_word_step_wordy W max_length overlap p words : forall st wss,
  wordy W st wss -> Forall (fun w => is_word w /\ w ∈ W) words ->
  exists wss', wordy W (foldl (word_step max_length overlap p) st words) wss'.
Proof.
  induction words as [|w words IH]; intros st wss Hst Hws; [now exists wss|].
  inversion Hws as [|? ? [Hw HW] Hws']; subst. cbn [foldl].
  destruct (word_step_wordy W max_length overlap p st w wss Hst Hw HW) as (wss1 & H1).
  now apply (IH _ wss1).
Qed.

Lemma elem_of_all_words w text p page_texts :
  (text, p) ∈ page_texts -> w ∈ split text -> w ∈ all_words page_texts.
Proof.
  intros Hp Hw. unfold all_words. apply list_elem_of_In, in_concat.
  exists (split text). split; [|now apply list_elem_of_In].
  apply in_map_iff. exists (text, p). split; [reflexivity | now apply list_elem_of_In].
Qed.

Lemma page_step_wordy W max_length overlap st pg :
  (exists wss, wordy W st wss) ->
  (forall w, w ∈ split pg.1 -> w ∈ W) ->
  exists wss', wordy W (page_step max_length overlap st pg) wss'.
Proof.
  intros (wss & Hst) HW. destruct pg as [text p]. unfold page_step.
  destruct (foldl_word_step_wordy W max_length overlap p (split text) st wss Hst)
    as (wss1 & H1).
  { apply Forall_forall. intros w Hw. split.
    - exact (proj1 (Forall_forall _ _) (split_words text) w Hw).
    - now apply HW. }
  exists wss1. destruct (PyList.truthy (current_chunk _)); [assumption|].
  destruct H1. now constructor.
Qed.

Lemma run_wordy max_length overlap page_texts :
  exists wss,
    wordy (all_words page_texts) (run max_length overlap page_texts) wss.
Proof.
  unfold run.
  apply (foldl_invariant (page_step max_length overlap)
           (fun st => exists wss, wordy (all_words page_texts) st wss)
           (fun pg => forall w, w ∈ split pg.1 -> w ∈ all_words page_texts)).
  - intros st pg Hst Hpg. now apply page_step_wordy.
  - exists []. constructor; cbn; [reflexivity | constructor | constructor].
  - apply Forall_forall. intros [text p] Hin w Hw.
    now apply (elem_of_all_words w text p).
Qed.

(** X2: Whatever the parameters, a chunk is its words joined by single
    blanks, so it has no other whitespace and splitting and joining it
    gives it back; and each of its words is a word of some page. *)
Theorem chunk_text_normalised page_texts max_length overlap c :
  c ∈ (chunk_text page_texts max_length overlap).1 ->
  join " " (split c) = c
  /\ split c <> []
  /\ forall w, w ∈ split c -> w ∈ all_words page_texts.
Proof.
  intros Hc.
  destruct (run_wordy max_length overlap page_texts) as (wss & [Hch Hem Hcur]).
  assert (Hall : exists ws, c = join " " ws /\ ws <> []
            /\ Forall (fun w => is_word w /\ w ∈ all_words page_texts) ws).
  { pose proof (ChunkerFacts.chunk_text_lengths page_texts max_length overlap)
      as (_ & Htruthy & _).
    assert (Hne : truthy c = true).
    { exact (proj1 (Forall_forall _ _) Htruthy c Hc). }
    unfold chunk_text in Hc.
    destruct (ChunkerFacts.flush_cases (run max_length overlap page_texts))
      as [Hf | (Hcne & _ & Hf)]; rewrite Hf in Hc; cbn [fst] in Hc.
    - rewrite Hch in Hc. apply list_elem_of_fmap in Hc as (ws & -> & Hws).
      exists ws. split; [reflexivity|]. split.
      + intros ->. discriminate.
      + exact (proj1 (Forall_forall _ _) Hem ws Hws).
    - apply elem_of_app in Hc as [Hc|Hc].
      + rewrite Hch in Hc. apply list_elem_of_fmap in Hc as (ws & -> & Hws).
        exists ws. split; [reflexivity|]. split.
        * intros ->. discriminate.
        * exact (proj1 (Forall_forall _ _) Hem ws Hws).
      + apply list_elem_of_singleton in Hc as ->.
        exists (current_chunk (run max_length overlap page_texts)).
        now repeat split. }
  destruct Hall as (ws & -> & Hne & Hws).
  assert (Hwords : Forall is_word ws).
  { eapply Forall_impl; [exact Hws|]. now intros w [Hw _]. }
  rewrite (split_join ws Hwords). split; [reflexivity|]. split; [assumption|].
  intros w Hw. exact (proj2 (proj1 (Forall_forall _ _) Hws w Hw)).
Qed.

Lemma chunk_text_normalised_witness :
  join " " (split "aa bb") = "aa bb"%string.
Proof.
  apply (chunk_text_normalised [("  aa   bb cc"%string, 1)] 2 1 "aa bb").
  vm_compute. apply list_elem_of_here.
Defined.

(** *** Page numbers *)

Lemma word_step_sourced P max_length overlap p st word :
  sourced P st -> p ∈ P -> sourced P (word_step max_length overlap p st word).
Proof.
  intros [Hem Hcur] Hp.
  assert (Hcur' : Forall (fun q => q ∈ P)
            (if new_page (current_page_numbers st) p
             then current_page_numbers st ++ [p] else current_page_numbers st)).
  { destruct (new_page _ _); [|assumption].
    apply Forall_app. split; [assumption|]. constructor; [assumption|constructor]. }
  unfold word_step. destruct (max_length <=? word_count st + 1); constructor; cbn;
    try assumption.
  - apply Forall_app. split; [assumption|]. constructor; [assumption|constructor].
  - destruct (PyList.truthy _); [now apply slice_from_sublist | constructor].
Qed.

Lemma page_step_sourced P max_length overlap st pg :
  sourced P st -> (split pg.1 <> [] -> pg.2 ∈ P) ->
  sourced P (page_step max_length overlap st pg).
Proof.
  intros Hst Hp. destruct pg as [text p]. unfold page_step. cbn [fst snd] in Hp.
  assert (Hfold : sourced P (foldl (word_step max_length overlap p) st (split text))).
  { destruct (split text) as [|w ws] eqn:Es; [assumption|].
    apply (foldl_invariant (word_step max_length overlap p) (sourced P)
             (fun _ => True)).
    - intros a b Ha _. apply word_step_sourced; [assumption|].
      apply Hp. discriminate.
    - assumption.
    - apply Forall_forall. intros; exact I. }
  destruct (PyList.truthy (current_chunk _)); [assumption|].
  destruct Hfold as [Hem Hcur]. constructor; cbn; [assumption | constructor].
Qed.

(** X3: Whatever the parameters, every page number in the metadata of a chunk
    is the number of a page that holds at least one word: a page without
    text is never listed. *)
Theorem chunk_text_pages_sourced page_texts max_length overlap m p :
  m ∈ (chunk_text page_texts max_length overlap).2 ->
  p ∈ page_numbers m ->
  p ∈ pages_with_words page_texts.
Proof.
  intros Hm Hp.
  assert (Hrun : sourced (pages_with_words page_texts)
                   (run max_length overlap page_texts)).
  { unfold run.
    apply (foldl_invariant (page_step max_length overlap)
             (sourced (pages_with_words page_texts))
             (fun pg => split pg.1 <> [] -> pg.2 ∈ pages_with_words page_texts)).
    - intros st pg Hst Hpg. now apply page_step_sourced.
    - constructor; constructor.
    - apply Forall_forall. intros [text q] Hin Hne. unfold pages_with_words.
      apply list_elem_of_fmap. exists (text, q). split; [reflexivity|].
      apply list_elem_of_filter. now split. }
  destruct Hrun as [Hem Hcur]. unfold chunk_text in Hm.
  destruct (ChunkerFacts.flush_cases (run max_length overlap page_texts))
    as [Hf | (_ & _ & Hf)]; rewrite Hf in Hm; cbn [snd] in Hm.
  - exact (proj1 (Forall_forall _ _)
             (proj1 (Forall_forall _ _) Hem m Hm) p Hp).
  - apply elem_of_app in Hm as [Hm|Hm].
    + exact (proj1 (Forall_forall _ _)
               (proj1 (Forall_forall _ _) Hem m Hm) p Hp).
    + apply list_elem_of_singleton in Hm as ->. cbn in Hp.
      exact (proj1 (Forall_forall _ _) Hcur p Hp).
Qed.

Example blank_page_not_listed :
  chunk_text [("a b"%string, 1); ("  "%string, 2); ("c"%string, 3)] 500 100
  = (["a b c"%string], [{| page_numbers := [1; 3] |}]).
Proof. reflexivity. Qed.

Lemma chunk_text_pages_sourced_witness :
  3 ∈ pages_with_words [("a b"%string, 1); ("  "%string, 2); ("c"%string, 3)].
Proof.
  apply (chunk_text_pages_sourced
           [("a b"%string, 1); ("  "%string, 2); ("c"%string, 3)] 500 100
           {| page_numbers := [1; 3] |} 3).
  - vm_compute. apply list_elem_of_here.
  - cbn. apply list_elem_of_further, list_elem_of_here.
Defined.

(** *** No word is lost, for [0 < overlap < max_length] *)

Lemma unwind_snoc {A} overlap (l : list (list A)) x :
  l <> [] -> unwind overlap (l ++ [x]) = unwind overlap l ++ drop (Z.to_nat overlap) x.
Proof.
  intros Hl. destruct l as [|a l]; [congruence|]. cbn.
  rewrite map_app, concat_app. cbn. now rewrite app_nil_r, app_assoc.
Qed.

(** Appending a word to the pending window appends it to the unwound words. *)
Lemma unwind_grow overlap (wss : list (list string)) cur w :
  (wss <> [] -> overlap <= PyList.len cur) ->
  unwind overlap (wss ++ [cur ++ [w]]) = unwind overlap (wss ++ [cur]) ++ [w].
Proof.
  intros Hpend. destruct wss as [|a wss].
  - cbn. now rewrite (app_nil_r (cur ++ [w])), (app_nil_r cur).
  - rewrite !unwind_snoc by discriminate.
    rewrite drop_app_le, app_assoc; [reflexivity|].
    specialize (Hpend ltac:(discriminate)). unfold PyList.len in Hpend. lia.
Qed.

Lemma word_step_unwind max_length overlap p st word wss seen :
  0 < overlap < max_length -> is_word word ->
  windows max_length overlap st wss ->
  unwind overlap (wss ++ [current_chunk st]) = seen ->
  exists wss',
    windows max_length overlap (word_step max_length overlap p st word) wss'
    /\ unwind overlap
         (wss' ++ [current_chunk (word_step max_length overlap p st word)])
       = seen ++ [word].
Proof.
  intros Hov Hw [Hch Hfull Hcnt Hroom Hws Hpend Hlink] Hseen.
  assert (Hgrow : unwind overlap (wss ++ [current_chunk st ++ [word]]) = seen ++ [word]).
  { rewrite unwind_grow, Hseen; [reflexivity|]. now rewrite <- Hcnt. }
  assert (Hlen : PyList.len (current_chunk st ++ [word]) = word_count st + 1).
  { unfold PyList.len in *. rewrite length_app. cbn. lia. }
  assert (Hws' : Forall is_word (current_chunk st ++ [word])).
  { apply Forall_app. split; [assumption|]. constructor; [assumption|constructor]. }
  assert (Hlink' : linked overlap (wss ++ [current_chunk st ++ [word]])).
  { apply ChunkerFacts.linked_snoc; [now apply ChunkerFacts.linked_app_l in Hlink|].
    intros a Ha. apply prefix_app_r. now apply (ChunkerFacts.linked_last overlap wss). }
  unfold word_step. destruct (max_length <=? word_count st + 1) eqn:E.
  - apply Z.leb_le in E.
    assert (Hlt : (overlap <? PyList.len (current_chunk st ++ [word])) = true).
    { apply Z.ltb_lt. lia. }
    rewrite Hlt. rewrite slice_from_neg by lia.
    fold (last_words overlap (current_chunk st ++ [word])).
    exists (wss ++ [current_chunk st ++ [word]]). split.
    + constructor; cbn.
      * now rewrite map_app, Hch.
      * apply Forall_app. split; [assumption|].
        constructor; [|constructor]. split; [lia | assumption].
      * reflexivity.
      * rewrite ChunkerFacts.last_words_length; lia.
      * unfold last_words. now apply Forall_drop.
      * intros _. rewrite ChunkerFacts.last_words_length; lia.
      * apply ChunkerFacts.linked_snoc; [assumption|].
        intros a Ha. rewrite last_snoc in Ha. now inversion Ha.
    + cbn [current_chunk]. rewrite unwind_snoc by (now destruct wss).
      rewrite Hgrow. unfold last_words.
      rewrite drop_ge; [now rewrite app_nil_r|].
      rewrite length_drop. unfold PyList.len in Hlen. lia.
  - apply Z.leb_gt in E. exists wss. split.
    + constructor; cbn; try assumption; try lia.
      intros Hne. specialize (Hpend Hne). lia.
    + cbn [current_chunk]. exact Hgrow.
Qed.

Lemma foldl_word_step_unwind max_length overlap p words : forall st wss seen,
  0 < overlap < max_length -> Forall is_word words ->
  windows max_length overlap st wss ->
  unwind overlap (wss ++ [current_chunk st]) = seen ->
  exists wss',
    windows max_length overlap (foldl (word_step max_length overlap p) st words) wss'
    /\ unwind overlap
         (wss' ++ [current_chunk (foldl (word_step max_length overlap p) st words)])
       = seen ++ words.
Proof.
  induction words as [|w words IH]; intros st wss seen Hov Hws Hwin Hseen.
  - exists wss. now rewrite app_nil_r.
  - apply Forall_cons in Hws as [Hw Hws']. cbn [foldl].
    destruct (word_step_unwind max_length overlap p st w wss seen)
      as (wss1 & Hwin1 & Hseen1); try assumption.
    destruct (IH _ wss1 (seen ++ [w]) Hov Hws' Hwin1 Hseen1)
      as (wss2 & Hwin2 & Hseen2).
    exists wss2. split; [assumption|]. now rewrite Hseen2, <- app_assoc.
Qed.

Lemma foldl_page_step_unwind max_length overlap pts : forall st wss seen,
  0 < overlap < max_length ->
  windows max_length overlap st wss ->
  unwind overlap (wss ++ [current_chunk st]) = seen ->
  exists wss',
    windows max_length overlap (foldl (page_step max_length overlap) st pts) wss'
    /\ unwind overlap
         (wss' ++ [current_chunk (foldl (page_step max_length overlap) st pts)])
       = seen ++ all_words pts.
Proof.
  induction pts as [|[text p] pts IH]; intros st wss seen Hov Hwin Hseen.
  - exists wss. unfold all_words. cbn. now rewrite app_nil_r.
  - cbn [foldl].
    destruct (foldl_word_step_unwind max_length overlap p (split text) st wss seen)
      as (wss1 & Hwin1 & Hseen1); try assumption; [apply split_words|].
    assert (Hpage : windows max_length overlap
                      (page_step max_length overlap st (text, p)) wss1
                    /\ current_chunk (page_step max_length overlap st (text, p))
                       = current_chunk
                           (foldl (word_step max_length overlap p) st (split text))).
    { unfold page_step. destruct (PyList.truthy (current_chunk _)); [now split|].
      split; [|reflexivity]. destruct Hwin1. now constructor. }
    destruct Hpage as [Hwin1' Hcur1]. rewrite <- Hcur1 in Hseen1.
    destruct (IH _ wss1 (seen ++ split text) Hov Hwin1' Hseen1)
      as (wss2 & Hwin2 & Hseen2).
    exists wss2. split; [assumption|]. rewrite Hseen2.
    unfold all_words. cbn. now rewrite app_assoc.
Qed.

Lemma map_split_join wss :
  Forall (Forall is_word) wss -> map split (map (join " ") wss) = wss.
Proof.
  induction 1 as [|ws wss Hws _ IH]; [reflexivity|].
  cbn. now rewrite (split_join ws Hws), IH.
Qed.

(** X4: For [0 < overlap < max_length] no word is lost, repeated out of turn
    or moved: the words of the first chunk, followed by the words of each
    later chunk without its first [overlap] words, are the words of the
    pages in reading order. *)
Theorem chunk_text_keeps_words page_texts max_length overlap :
  0 < overlap < max_length ->
  unwind overlap (map split (chunk_text page_texts max_length overlap).1)
  = all_words page_texts.
Proof.
  intros Hov.
  destruct (foldl_page_step_unwind max_length overlap page_texts init [] [] Hov
              (ChunkerFacts.init_windows max_length overlap Hov) eq_refl)
    as (wss & Hwin & Hseen).
  fold (run max_length overlap page_texts) in Hwin, Hseen. cbn [app] in Hseen.
  destruct Hwin as [Hch Hfull Hcnt Hroom Hws Hpend Hlink].
  apply Forall_and in Hfull as [Hfull Hwords].
  unfold chunk_text, flush.
  destruct (current_chunk (run max_length overlap page_texts)) as [|w ws] eqn:Ecur.
  - cbn [PyList.truthy fst].
    assert (wss = []) as ->.
    { destruct wss as [|x wss]; [reflexivity|].
      assert (overlap <= word_count (run max_length overlap page_texts))
        by (apply Hpend; discriminate).
      rewrite Hcnt in *. unfold PyList.len in *. cbn in *. lia. }
    rewrite Hch. cbn in *. now rewrite <- Hseen.
  - cbn [PyList.truthy].
    rewrite ChunkerFacts.strip_join_truthy by (assumption || discriminate).
    cbn [fst]. rewrite Hch.
    change [join " " (w :: ws)] with (map (join " ") [w :: ws]).
    rewrite <- map_app, map_split_join; [assumption|].
    apply Forall_app. split; [assumption|]. constructor; [assumption|constructor].
Qed.

Example unwind_ex :
  map split (chunk_text [("a b c"%string, 1); ("d e f g"%string, 3)] 3 1).1
  = [["a"; "b"; "c"]; ["c"; "d"; "e"]; ["e"; "f"; "g"]; ["g"]]%string
  /\ unwind 1 [["a"; "b"; "c"]; ["c"; "d"; "e"]; ["e"; "f"; "g"]; ["g"]]%string
     = ["a"; "b"; "c"; "d"; "e"; "f"; "g"]%string.
Proof. split; reflexivity. Qed.

Lemma chunk_text_keeps_words_witness :
  0 < 1 < 3
  /\ unwind 1 (map split (chunk_text [("a b c"%string, 1); ("d e f g"%string, 3)] 3 1).1)
     = all_words [("a b c"%string, 1); ("d e f g"%string, 3)].
Proof.
  split; [lia|].
  apply (chunk_text_keeps_words [("a b c"%string, 1); ("d e f g"%string, 3)] 3 1).
  lia.
Defined.

(** *** [overlap = 0] *)

Lemma word_step_cumulative max_length p st word seen :
  cumulative st seen -> is_word word ->
  cumulative (word_step max_length 0 p st word) (seen ++ [word]).
Proof.
  intros [Hcur Hcnt Hws Hch] Hw.
  assert (Hch' : Forall (fun c => exists ws, c = join " " ws
                                  /\ ws `prefix_of` seen ++ [word]) (chunks st)).
  { eapply Forall_impl; [exact Hch|]. cbn. intros c (ws & -> & Hpre).
    exists ws. split; [reflexivity | now apply prefix_app_r]. }
  assert (Hws' : Forall is_word (seen ++ [word])).
  { apply Forall_app. split; [assumption|]. constructor; [assumption|constructor]. }
  unfold word_step. rewrite Hcur.
  assert (Hlt : (0 <? PyList.len (seen ++ [word])) = true).
  { apply Z.ltb_lt. unfold PyList.len. rewrite length_app. cbn. lia. }
  rewrite Hlt, slice_from_zero.
  destruct (max_length <=? word_count st + 1); constructor; cbn; try assumption;
    try reflexivity.
  - apply Forall_app. split; [assumption|]. constructor; [|constructor].
    now exists (seen ++ [word]).
  - rewrite Hcnt. unfold PyList.len. rewrite length_app. cbn. lia.
Qed.

Lemma foldl_word_step_cumulative max_length p words : forall st seen,
  cumulative st seen -> Forall is_word words ->
  cumulative (foldl (word_step max_length 0 p) st words) (seen ++ words).
Proof.
  induction words as [|w words IH]; intros st seen Hst Hws.
  - now rewrite app_nil_r.
  - apply Forall_cons in Hws as [Hw Hws']. cbn [foldl].
    replace (seen ++ w :: words) with ((seen ++ [w]) ++ words)
      by now rewrite <- app_assoc.
    apply IH; [now apply word_step_cumulative | assumption].
Qed.

Lemma foldl_page_step_cumulative max_length pts : forall st seen,
  cumulative st seen ->
  cumulative (foldl (page_step max_length 0) st pts) (seen ++ all_words pts).
Proof.
  induction pts as [|[text p] pts IH]; intros st seen Hst.
  - unfold all_words. cbn. now rewrite app_nil_r.
  - cbn [foldl]. unfold all_words. cbn [map concat fst].
    rewrite app_assoc. apply IH. unfold page_step.
    pose proof (foldl_word_step_cumulative max_length p (split text) st seen Hst
                  (split_words text)) as Hfold.
    destruct (PyList.truthy (current_chunk _)); [assumption|].
    destruct Hfold. now constructor.
Qed.

(** X5: With [overlap = 0] the slice [current_chunk[-0:]] drops nothing:
    whatever [max_length], every chunk holds the words of the pages from
    the very first one on, and the last chunk holds them all. *)
Theorem chunk_text_zero_overlap page_texts max_length :
  (forall c, c ∈ (chunk_text page_texts max_length 0).1 ->
     split c `prefix_of` all_words page_texts)
  /\ (all_words page_texts <> [] ->
      last (chunk_text page_texts max_length 0).1
      = Some (join " " (all_words page_texts))).
Proof.
  pose proof (foldl_page_step_cumulative max_length page_texts init []) as Hrun.
  fold (run max_length 0 page_texts) in Hrun. cbn [app] in Hrun.
  destruct Hrun as [Hcur Hcnt Hws Hch].
  { constructor; cbn; [reflexivity | reflexivity | constructor | constructor]. }
  assert (Hpre : forall c, c ∈ chunks (run max_length 0 page_texts) ->
                   split c `prefix_of` all_words page_texts).
  { intros c Hc.
    destruct (proj1 (Forall_forall _ _) Hch c Hc) as (ws & -> & Hws').
    rewrite split_join; [assumption|].
    destruct Hws' as (k & Hk). rewrite Hk in Hws.
    now apply Forall_app in Hws as [Hws _]. }
  unfold chunk_text, flush. rewrite Hcur.
  destruct (all_words page_texts) as [|w ws] eqn:Eall.
  - cbn [PyList.truthy fst]. split; [assumption | congruence].
  - cbn [PyList.truthy].
    rewrite ChunkerFacts.strip_join_truthy by (assumption || discriminate).
    cbn [fst]. split.
    + intros c Hc. apply elem_of_app in Hc as [Hc|Hc]; [now apply Hpre|].
      apply list_elem_of_singleton in Hc as ->. now rewrite split_join.
    + intros _. apply last_snoc.
Qed.

End ChunkerMore.

(** ** Numbers as text, and back *)

Module NumeralFacts.

Import PyStr PyStrFacts Py SpecMore.

Lemma string_of_uint_digits d : digits (NilEmpty.string_of_uint d) = true.
Proof. induction d; cbn; assumption || reflexivity. Qed.

Lemma parse_uint_acc d : forall acc : positive,
  parse_digits (Z.pos acc) true (NilEmpty.string_of_uint d)
  = Some (Z.pos (Pos.of_uint_acc d acc)).
Proof.
  induction d; intros acc; cbn [NilEmpty.string_of_uint parse_digits Pos.of_uint_acc];
    [reflexivity|..].
  all: match goal with
       | |- context [digit_val ?c] =>
           let v := eval vm_compute in (digit_val c) in
           change (digit_val c) with v
       end; cbv iota.
  all: rewrite <- IHd; f_equal; lia.
Qed.

Lemma parse_uint d : forall b,
  d <> Decimal.Nil \/ b = true ->
  parse_digits 0 b (NilEmpty.string_of_uint d) = Some (Z.of_N (Pos.of_uint d)).
Proof.
  induction d; intros b Hb;
    cbn [NilEmpty.string_of_uint parse_digits Pos.of_uint].
  - destruct Hb as [Hb | ->]; [congruence | reflexivity].
  - change (digit_val "0") with (Some 0). cbv iota.
    change (10 * 0 + 0) with 0. apply IHd. now right.
  - change (digit_val "1") with (Some 1). cbv iota. apply (parse_uint_acc d 1).
  - change (digit_val "2") with (Some 2). cbv iota. apply (parse_uint_acc d 2).
  - change (digit_val "3") with (Some 3). cbv iota. apply (parse_uint_acc d 3).
  - change (digit_val "4") with (Some 4). cbv iota. apply (parse_uint_acc d 4).
  - change (digit_val "5") with (Some 5). cbv iota. apply (parse_uint_acc d 5).
  - change (digit_val "6") with (Some 6). cbv iota. apply (parse_uint_acc d 6).
  - change (digit_val "7") with (Some 7). cbv iota. apply (parse_uint_acc d 7).
  - change (digit_val "8") with (Some 8). cbv iota. apply (parse_uint_acc d 8).
  - change (digit_val "9") with (Some 9). cbv iota. apply (parse_uint_acc d 9).
Qed.

Lemma digit_not_space c v : digit_val c = Some v -> is_space c = false.
Proof.
  unfold digit_val, is_space. intros Hc.
  destruct (_ && _) eqn:E in Hc; [|discriminate].
  apply andb_prop in E as [E1 E2]. apply Nat.leb_le in E1, E2.
  repeat (apply orb_false_intro); try apply andb_false_iff;
    rewrite ?Nat.leb_gt, ?Nat.eqb_neq; lia.
Qed.

Lemma digit_not_comma c v : digit_val c = Some v -> Ascii.eqb c "," = false.
Proof.
  intros Hc. apply Ascii.eqb_neq. intros ->. discriminate.
Qed.

Lemma digits_no_space s : digits s = true -> no_space s = true.
Proof.
  induction s as [|c s IH]; [reflexivity|]. cbn.
  destruct (digit_val c) as [v|] eqn:E; [|discriminate].
  intros Hs. now rewrite (digit_not_space c v E), IH.
Qed.

Lemma numeral_no_space s : numeral s = true -> no_space s = true.
Proof.
  destruct s as [|c s]; [discriminate|]. unfold numeral.
  destruct (Ascii.eqb c "-") eqn:E.
  - apply Ascii.eqb_eq in E as ->. destruct s as [|c' s]; [discriminate|].
    intros Hs. apply digits_no_space in Hs. cbn in *. exact Hs.
  - intros Hs. apply digits_no_space.
    destruct c as [[] [] [] [] [] [] [] []]; try exact Hs; discriminate.
Qed.

Lemma rstrip_no_space s : no_space s = true -> rstrip s = s.
Proof.
  induction s as [|c s IH]; [reflexivity|]. cbn. intros Hs.
  apply andb_prop in Hs as [Hc Hs]. apply negb_true_iff in Hc.
  now rewrite Hc, IH.
Qed.

(** A string without whitespace is its own [strip]. *)
Lemma strip_no_space s : no_space s = true -> strip s = s.
Proof.
  intros Hs. unfold strip.
  assert (Hl : lstrip s = s).
  { destruct s as [|c s]; [reflexivity|]. cbn in *.
    apply andb_prop in Hs as [Hc _]. apply negb_true_iff in Hc. now rewrite Hc. }
  rewrite Hl. now apply rstrip_no_space.
Qed.

Lemma str_of_int_numeral n : numeral (str_of_int n) = true.
Proof.
  unfold str_of_int. destruct n as [|p|p]; cbn [Z.to_int NilZero.string_of_int].
  - reflexivity.
  - unfold NilZero.string_of_uint.
    pose proof (Unsigned.to_uint_nonnil p) as Hnil.
    pose proof (string_of_uint_digits (Pos.to_uint p)) as Hd.
    destruct (Pos.to_uint p); try congruence; exact Hd.
  - unfold NilZero.string_of_uint.
    pose proof (Unsigned.to_uint_nonnil p) as Hnil.
    pose proof (string_of_uint_digits (Pos.to_uint p)) as Hd.
    destruct (Pos.to_uint p); try congruence; exact Hd.
Qed.

(** [int(str(n)) == n] *)
Lemma int_of_str_of_int n : int_of_str (str_of_int n) = Ok n.
Proof.
  unfold int_of_str.
  rewrite strip_no_space by apply numeral_no_space, str_of_int_numeral.
  unfold str_of_int. destruct n as [|p|p]; cbn [Z.to_int NilZero.string_of_int].
  - reflexivity.
  - unfold NilZero.string_of_uint.
    pose proof (Unsigned.to_uint_nonnil p) as Hnil.
    pose proof (parse_uint (Pos.to_uint p) false (or_introl Hnil)) as Hparse.
    rewrite DecimalPos.Unsigned.of_to in Hparse.
    destruct (Pos.to_uint p); try congruence;
      cbn [NilEmpty.string_of_uint] in Hparse |- *; now rewrite Hparse.
  - unfold NilZero.string_of_uint.
    pose proof (Unsigned.to_uint_nonnil p) as Hnil.
    pose proof (parse_uint (Pos.to_uint p) false (or_introl Hnil)) as Hparse.
    rewrite DecimalPos.Unsigned.of_to in Hparse.
    destruct (Pos.to_uint p); try congruence; now rewrite Hparse.
Qed.

Lemma str_of_int_inj n m : str_of_int n = str_of_int m -> n = m.
Proof.
  intros Heq. pose proof (int_of_str_of_int n) as Hn.
  rewrite Heq, int_of_str_of_int in Hn. now inversion Hn.
Qed.

Lemma digits_free_of_comma s : digits s = true -> free_of "," s = true.
Proof.
  induction s as [|c s IH]; [reflexivity|]. cbn.
  destruct (digit_val c) as [v|] eqn:E; [|discriminate].
  intros Hs. now rewrite (digit_not_comma c v E), IH.
Qed.

Lemma numeral_free_of_comma s : numeral s = true -> free_of "," s = true.
Proof.
  destruct s as [|c s]; [discriminate|]. unfold numeral.
  destruct (Ascii.eqb c "-") eqn:E.
  - apply Ascii.eqb_eq in E as ->. destruct s as [|c' s]; [discriminate|].
    intros Hs. apply digits_free_of_comma in Hs. cbn in *. exact Hs.
  - intros Hs. apply digits_free_of_comma.
    destruct c as [[] [] [] [] [] [] [] []]; try exact Hs; discriminate.
Qed.

Lemma numeral_truthy s : numeral s = true -> truthy s = true.
Proof. now destruct s. Qed.

Lemma split_on_nonempty sep s : split_on sep s <> [].
Proof.
  destruct s as [|c s]; cbn; [discriminate|].
  destruct (split_on sep s); [discriminate|]. now destruct (Ascii.eqb c sep).
Qed.

Lemma split_on_app_free sep w s :
  free_of sep w = true ->
  split_on sep (w +:+ s)
  = match split_on sep s with
    | [] => [w]
    | w0 :: ws => (w +:+ w0) :: ws
    end.
Proof.
  induction w as [|c w IH]; intros Hw.
  - rewrite append_nil_l. pose proof (split_on_nonempty sep s).
    destruct (split_on sep s); [congruence | now rewrite append_nil_l].
  - cbn in Hw. apply andb_prop in Hw as [Hc Hw]. apply negb_true_iff in Hc.
    rewrite append_cons. cbn [split_on]. rewrite (IH Hw).
    pose proof (split_on_nonempty sep s).
    destruct (split_on sep s); [congruence|]. now rewrite Hc, append_cons.
Qed.

(** Joining with a separator that occurs in none of the fields, and
    splitting at it, gives the fields back. *)
Lemma split_on_join sep ws :
  ws <> [] -> Forall (fun w => free_of sep w = true) ws ->
  split_on sep (join (String sep EmptyString) ws) = ws.
Proof.
  intros Hne Hws. unfold join.
  induction Hws as [|w ws Hw Hws IH]; [congruence|].
  destruct ws as [|w' ws'].
  - cbn [String.concat]. rewrite <- (append_nil_r w) at 1.
    rewrite split_on_app_free by assumption. cbn. now rewrite append_nil_r.
  - rewrite concat_cons, split_on_app_free by assumption.
    rewrite append_cons, append_nil_l. cbn [split_on].
    rewrite IH by discriminate. rewrite Ascii.eqb_refl. now rewrite append_nil_r.
Qed.

Lemma mapM_str_of_int l : mapM int_of_str (map str_of_int l) = Ok l.
Proof.
  induction l as [|n l IH]; [reflexivity|].
  cbn [map mapM]. rewrite int_of_str_of_int. cbn. fold (mapM int_of_str).
  now rewrite IH.
Qed.

Lemma filter_all {A} (P : A -> Prop) `{!forall x, Decision (P x)} (l : list A) :
  Forall P l -> filter P l = l.
Proof.
  induction 1 as [|x l Hx Hl IH]; [reflexivity|].
  now rewrite filter_cons_True, IH.
Qed.

(** The page numbers, joined by commas as [add_documents] stores them,
    are read back as they were by lines 230 of [query_collections]. *)
Lemma page_numbers_round_trip (l : list Z) :
  mapM int_of_str
    (filter (fun p => truthy p = true)
       (split_on "," (join "," (map str_of_int l))))
  = Ok l.
Proof.
  destruct l as [|n l]; [reflexivity|].
  rewrite split_on_join.
  - rewrite filter_all; [apply mapM_str_of_int|].
    apply Forall_forall. intros w Hw. apply list_elem_of_fmap in Hw as (m & -> & _).
    apply numeral_truthy, str_of_int_numeral.
  - discriminate.
  - apply Forall_forall. intros w Hw. apply list_elem_of_fmap in Hw as (m & -> & _).
    apply numeral_free_of_comma, str_of_int_numeral.
Qed.

End NumeralFacts.

(** ** [query_collections]: ties, failures, what was stored *)

Module QueryMore.

Import Py Chroma ChromaUtils Spec SpecMore PyListFacts QueryFacts NumeralFacts.

Lemma stored_metadata_lookup filename id meta :
  stored_metadata filename id meta !! "chunk_id"%string = Some id
  /\ stored_metadata filename id meta !! "page_numbers"%string
     = Some (PyStr.join "," (map PyStr.str_of_int (Chunker.page_numbers meta)))
  /\ stored_metadata filename id meta !! "filename"%string = Some filename
  /\ stored_metadata filename id meta !! "page_count"%string = None.
Proof. repeat split. Qed.

(** X6: What [add_documents] stores with a chunk is what [query_collections]
    reads back: the chunk id, the page numbers and the file name. *)
Theorem stored_metadata_round_trip filename id meta doc sim :
  parse_result doc (Some (stored_metadata filename id meta)) sim
  = Ok {| document := doc;
          metadata := {| chunk_id := id;
                         page_numbers := Chunker.page_numbers meta;
                         filename := filename |};
          similarity := sim |}.
Proof.
  destruct (stored_metadata_lookup filename id meta) as (Hid & Hpn & Hfn & _).
  unfold parse_result. cbn [not_none].
  unfold mbind at 1, result_bind at 1.
  unfold getitem. rewrite Hid, Hpn, Hfn.
  unfold mbind at 1, result_bind at 1.
  unfold mbind at 1, result_bind at 1.
  rewrite page_numbers_round_trip. reflexivity.
Qed.

(** *** Ties *)

Lemma with_similarity_insert q x l :
  with_similarity q (insert_desc x l) = with_similarity q (x :: l).
Proof.
  unfold with_similarity. induction l as [|y l IH]; [reflexivity|].
  cbn [insert_desc]. destruct (Qle_bool (similarity y) (similarity x)) eqn:E;
    [reflexivity|].
  rewrite filter_cons, IH, !filter_cons.
  destruct (decide (Qeq_bool (similarity y) q = true)) as [Hy|Hy];
    destruct (decide (Qeq_bool (similarity x) q = true)) as [Hx|Hx];
    try reflexivity.
  exfalso. apply Qeq_bool_iff in Hx, Hy.
  assert (Hle : (similarity y <= similarity x)%Q).
  { rewrite Hx, Hy. apply Qle_refl. }
  apply Qle_bool_iff in Hle. congruence.
Qed.

(** The sort is stable: results of equal similarity keep their order. *)
Lemma with_similarity_sorted q l :
  with_similarity q (sorted_desc l) = with_similarity q l.
Proof.
  induction l as [|x l IH]; [reflexivity|].
  cbn [sorted_desc foldr]. fold (sorted_desc l).
  rewrite with_similarity_insert. unfold with_similarity in *.
  now rewrite !filter_cons, IH.
Qed.

Lemma filter_take_prefix {A} (P : A -> Prop) `{!forall x, Decision (P x)} n (l : list A) :
  filter P (take n l) `prefix_of` filter P l.
Proof.
  rewrite <- (take_drop n l) at 2. rewrite filter_app. now apply prefix_app_r.
Qed.

(** *** Failures *)

Lemma mapM_raise {A B} (f : A -> result B) l x e :
  x ∈ l -> f x = Raise e -> exists e', mapM f l = Raise e'.
Proof.
  induction l as [|y l IH]; intros Hx Hf; [now apply elem_of_nil in Hx|].
  cbn [mapM]. unfold mbind at 1, result_bind at 1.
  destruct (f y) as [b|e1] eqn:Ey; [|now exists e1].
  fold (mapM f l). apply elem_of_cons in Hx as [->|Hx]; [congruence|].
  destruct (IH Hx Hf) as (e' & ->). now exists e'.
Qed.

Section WithExternals.

Context `{Externals}.

Lemma query_collections_raise query collections top_k emb c e :
  encode [query] = Ok emb -> c ∈ collections ->
  query_one emb top_k c = Raise e ->
  query_collections query collections top_k = Ok [].
Proof.
  intros Hemb Hc Hone.
  unfold query_collections, try_except_pure, query_collections_body.
  rewrite Hemb. unfold mbind at 1, result_bind at 1.
  destruct (index emb 0) as [e0|e0]; [|reflexivity].
  unfold mbind at 1, result_bind at 1. rewrite for_each_concat.
  destruct (mapM_raise (query_one emb top_k) collections c e Hc Hone) as (e' & ->).
  reflexivity.
Qed.

(** X8: One failing collection voids the whole query: when the query of any
    one collection raises, [query_collections] returns [[]], whatever
    the other collections answered. *)
Theorem query_collections_all_or_nothing query collections top_k emb c e :
  encode [query] = Ok emb -> c ∈ collections ->
  chroma_query c emb top_k = Raise e ->
  query_collections query collections top_k = Ok [].
Proof.
  intros Hemb Hc Hq. apply (query_collections_raise _ _ _ emb c e Hemb Hc).
  unfold query_one. now rewrite Hq.
Qed.

(** X9: A distance of [None] in the answer of any collection makes the print
    of line 223 raise, so [query_collections] returns [[]]: the branch of
    line 222 that turns [None] into the similarity 0 never reaches a
    result. *)
Theorem query_collections_none_distance query collections top_k emb c qr ds :
  encode [query] = Ok emb -> c ∈ collections ->
  chroma_query c emb top_k = Ok qr ->
  index (distances qr) 0 = Ok ds ->
  None ∈ ds ->
  query_collections query collections top_k = Ok [].
Proof.
  intros Hemb Hc Hq Hds Hnone.
  assert (Hone : exists e, query_one emb top_k c = Raise e).
  { unfold query_one. rewrite Hq. unfold mbind at 1, result_bind at 1.
    destruct (index (documents qr) 0) as [docs|e]; [|now exists e].
    unfold mbind at 1, result_bind at 1.
    destruct (index (metadatas qr) 0) as [metas|e]; [|now exists e].
    unfold mbind at 1, result_bind at 1. rewrite Hds.
    unfold mbind at 1, result_bind at 1.
    destruct (mapM not_none docs) as [docs'|e]; [|now exists e].
    unfold mbind at 1, result_bind at 1.
    match goal with
    | |- context [mapM ?f ds] =>
        destruct (mapM_raise f ds None none_type_error Hnone eq_refl)
          as (e' & ->)
    end.
    now exists e'. }
  destruct Hone as (e & Hone).
  now apply (query_collections_raise _ _ _ emb c e).
Qed.

(** X10: Without collections there is nothing to return, whatever [top_k]. *)
Theorem query_collections_no_collections query top_k :
  query_collections query [] top_k = Ok [].
Proof.
  unfold query_collections, try_except_pure, query_collections_body.
  destruct (encode [query]) as [emb|e]; [|reflexivity].
  unfold mbind at 1, result_bind at 1.
  destruct (index emb 0) as [e0|e0]; [|reflexivity].
  cbn. unfold PyList.slice_to. cbn. now rewrite take_nil.
Qed.

(** X7: Ties are broken by position: among the results of one similarity,
    [query_collections] returns the first ones in the order of the
    collections, and of each collection's answer. *)
Theorem query_collections_ties query collections top_k emb e0 per results q :
  0 <= top_k ->
  encode [query] = Ok emb -> index emb 0 = Ok e0 ->
  mapM (query_one emb top_k) collections = Ok per ->
  query_collections query collections top_k = Ok results ->
  with_similarity q results `prefix_of` with_similarity q (concat per).
Proof.
  intros Hk Hemb Hidx Hper Hq.
  destruct (query_collections_cases query collections top_k) as [Hb|Hb].
  - rewrite Hb in Hq.
    destruct (query_collections_body_ok _ _ _ _ Hq)
      as (emb' & e0' & per' & Eemb & Eidx & Eper & ->).
    rewrite Hemb in Eemb. inversion Eemb; subst emb'.
    rewrite Hper in Eper. inversion Eper; subst per'.
    rewrite slice_to_take by assumption.
    rewrite <- (with_similarity_sorted q (concat per)).
    apply filter_take_prefix.
  - rewrite Hb in Hq. inversion Hq; subst results. apply prefix_nil.
Qed.

End WithExternals.

Lemma query_collections_all_or_nothing_witness :
  @query_collections
    (Toy.externals Toy.no_faults
       (fun c => if String.eqb (name c) "b" then Toy.no_query c
                 else Toy.one_chunk "c1" (Some (1 # 2)) c))
    "q" [{| name := "a" |}; {| name := "b" |}] 3 = Ok [].
Proof.
  apply (@query_collections_all_or_nothing
           (Toy.externals Toy.no_faults
              (fun c => if String.eqb (name c) "b" then Toy.no_query c
                        else Toy.one_chunk "c1" (Some (1 # 2)) c))
           "q" [{| name := "a" |}; {| name := "b" |}] 3
           [[inject_Z 1]] {| name := "b" |}
           (Exn "NotFoundError" "Collection does not exist.")).
  - reflexivity.
  - apply list_elem_of_further, list_elem_of_here.
  - reflexivity.
Defined.

Lemma query_collections_none_distance_witness :
  @query_collections
    (Toy.externals Toy.no_faults (Toy.one_chunk "c1" None))
    "q" [{| name := "a" |}] 3 = Ok [].
Proof.
  apply (@query_collections_none_distance
           (Toy.externals Toy.no_faults (Toy.one_chunk "c1" None))
           "q" [{| name := "a" |}] 3 [[inject_Z 1]] {| name := "a" |}
           {| documents := [[Some "some text"%string]];
              metadatas :=
                [[Some {[ "chunk_id"%string := "c1"%string;
                          "page_numbers"%string := "1,2"%string;
                          "filename"%string := "a.pdf"%string ]}]];
              distances := [[None]] |}
           [None]).
  - reflexivity.
  - apply list_elem_of_here.
  - reflexivity.
  - reflexivity.
  - apply list_elem_of_here.
Defined.

Lemma query_collections_ties_witness :
  0 <= 1
  /\ with_similarity (3 # 4)
       [{| document := "some text";
           metadata := {| chunk_id := "c1"; page_numbers := [1; 2];
                          filename := "a.pdf" |};
           similarity := 3 # 4 |}]
     `prefix_of`
     with_similarity (3 # 4)
       (concat
          [[{| document := "some text";
               metadata := {| chunk_id := "c1"; page_numbers := [1; 2];
                              filename := "a.pdf" |};
               similarity := 3 # 4 |}];
           [{| document := "some text";
               metadata := {| chunk_id := "c1"; page_numbers := [1; 2];
                              filename := "a.pdf" |};
               similarity := 3 # 4 |}]]).
Proof.
  split; [lia|].
  apply (@query_collections_ties
           (Toy.externals Toy.no_faults (Toy.one_chunk "c1" (Some (1 # 2))))
           "q" [{| name := "a" |}; {| name := "b" |}] 1
           [[inject_Z 1]] [inject_Z 1]).
  - lia.
  - reflexivity.
  - reflexivity.
  - vm_compute. reflexivity.
  - vm_compute. reflexivity.
Defined.

End QueryMore.

(** ** Extraction and hashing *)

Module ExtractMore.

Import Py File ChromaUtils Spec ExtractFacts.

Lemma substring_none n s : String.substring n 0 s = EmptyString.
Proof.
  revert s. induction n as [|n IH]; intros [|c s]; cbn; try reflexivity.
  apply IH.
Qed.

Section WithExternals.

Context `{Externals}.

(** The loop of lines 30-37 stops at the first page that does not
    decode. *)
Lemma extract_loop_raise (pages : list page) (f : file) e : forall rest done acc,
  pages = done ++ rest -> Raise e ∈ rest ->
  exists e',
    for_each_M
      (fun page_texts page_num =>
         p ← lift (index pages page_num);
         extracted ← lift p;
         let text := default EmptyString extracted in
         let text := PyStr.strip text in
         mret (page_texts ++ [(text, page_num + 1)]))
      acc (seqZ (PyList.len done) (PyList.len rest)) f
    = (f, Raise e').
Proof.
  induction rest as [|p rest IH]; intros done acc Hpages Hin.
  - now apply elem_of_nil in Hin.
  - assert (Hidx : index pages (PyList.len done) = Ok p).
    { rewrite Hpages. apply index_middle. }
    replace (PyList.len (p :: rest)) with (Z.succ (PyList.len rest))
      by (unfold PyList.len; cbn [length]; lia).
    rewrite seqZ_cons by (unfold PyList.len; lia).
    rewrite Z.pred_succ. cbn [for_each_M].
    unfold mbind at 1, M_bind at 1. unfold mbind at 1, M_bind at 1.
    unfold lift at 1. rewrite Hidx.
    unfold mbind at 1, M_bind at 1, lift at 1.
    destruct p as [extracted|e1]; [|now exists e1].
    unfold mret at 1, M_ret at 1.
    apply elem_of_cons in Hin as [Hin|Hin]; [discriminate|].
    replace (Z.succ (PyList.len done)) with (PyList.len (done ++ [Ok extracted]))
      by (unfold PyList.len; rewrite length_app; cbn; lia).
    apply IH; [now rewrite <- app_assoc | assumption].
Qed.

(** X11: One page that cannot be decoded loses the text of all pages: when
    [extract_text()] raises on any page of the PDF,
    [extract_pdf_text_with_pages] returns [[]], not the pages read so
    far. *)
Theorem extract_all_or_nothing (f : file) (pages : list page) e :
  closed f = false ->
  pdf_reader (content f) = Ok pages ->
  Raise e ∈ pages ->
  (extract_pdf_text_with_pages f).2 = Ok [].
Proof.
  intros Hopen Hpdf Hin.
  unfold extract_pdf_text_with_pages, try_except, extract_pdf_text_with_pages_body.
  unfold mbind at 1, M_bind at 1, seek0. rewrite Hopen.
  unfold mbind at 1, M_bind at 1, PdfReader. cbn [closed content].
  rewrite Hpdf.
  destruct (extract_loop_raise pages
              {| closed := false; content := content f;
                 pos := pdf_reader_tell (content f) |} e pages [] []
              eq_refl Hin) as (e' & Hloop).
  change (PyList.len []) with 0 in Hloop. cbv beta iota.
  match goal with
  | |- context [for_each_M ?body ?acc0 ?xs ?s0] =>
      replace (for_each_M body acc0 xs s0)
        with (s0, @Raise (list (string * Z)) e') by (symmetry; exact Hloop)
  end.
  reflexivity.
Qed.

(** X12: [get_pdf_hash] hashes what is left of the stream, not the file: called
    again without a [seek(0)] in between, it returns the digest of the
    empty string, whatever the file holds. *)
Theorem get_pdf_hash_twice (f : file) :
  closed f = false ->
  (get_pdf_hash (get_pdf_hash f).1).2 = Ok (Some (md5_hexdigest EmptyString)).
Proof.
  intros Hopen.
  unfold get_pdf_hash, try_except, get_pdf_hash_body, mbind, M_bind, read.
  rewrite Hopen. cbn [fst snd closed content pos mret M_ret].
  replace (String.length (content f)
           - Nat.max (pos f) (String.length (content f)))%nat with 0%nat by lia.
  now rewrite substring_none.
Qed.

End WithExternals.

Lemma extract_all_or_nothing_witness :
  closed (Toy.open_file "hello world|!|more") = false
  /\ (@extract_pdf_text_with_pages (Toy.externals Toy.no_faults Toy.no_query)
        (Toy.open_file "hello world|!|more")).2 = Ok [].
Proof.
  split; [reflexivity|].
  apply (@extract_all_or_nothing (Toy.externals Toy.no_faults Toy.no_query)
           (Toy.open_file "hello world|!|more")
           [Ok (Some "hello world"%string);
            Raise (Exn "PdfReadError" "cannot decode page");
            Ok (Some "more"%string)]
           (Exn "PdfReadError" "cannot decode page")).
  - reflexivity.
  - vm_compute. reflexivity.
  - apply list_elem_of_further, list_elem_of_here.
Defined.

Lemma get_pdf_hash_twice_witness :
  closed (Toy.open_file "hello world") = false
  /\ (@get_pdf_hash (Toy.externals Toy.no_faults Toy.no_query)
        (@get_pdf_hash (Toy.externals Toy.no_faults Toy.no_query)
           (Toy.open_file "hello world")).1).2
     = Ok (Some "00000000000000000000000000000000"%string).
Proof.
  split; [reflexivity|].
  apply (@get_pdf_hash_twice (Toy.externals Toy.no_faults Toy.no_query)
           (Toy.open_file "hello world")).
  reflexivity.
Defined.

End ExtractMore.

(** ** [add_documents] *)

Module AddMore.

Import Py File Chroma ChromaUtils Spec SpecMore PyListFacts AddFacts.

Lemma grows_refl db : grows db db.
Proof. intros k es Hk. exists []. now rewrite app_nil_r. Qed.

Lemma grows_trans db1 db2 db3 : grows db1 db2 -> grows db2 db3 -> grows db1 db3.
Proof.
  intros H12 H23 k es Hk.
  destruct (H12 k es Hk) as (es1 & Hk2).
  destruct (H23 k _ Hk2) as (es2 & Hk3).
  exists (es1 ++ es2). now rewrite app_assoc.
Qed.

Lemma only_at_refl nm db : only_at nm db db.
Proof. now intros k _. Qed.

Lemma only_at_trans nm db1 db2 db3 :
  only_at nm db1 db2 -> only_at nm db2 db3 -> only_at nm db1 db3.
Proof. intros H12 H23 k Hk. now rewrite (H23 k Hk), (H12 k Hk). Qed.

Lemma try_except_state {S A} (body : M S A) (a : A) s :
  (try_except body (fun e => mret a) s).1 = (body s).1.
Proof. unfold try_except. now destruct (body s) as [s' [r|e]]. Qed.

Section WithExternals.

Context `{Externals}.

Lemma get_or_create_grows nm db :
  grows db (get_or_create_collection nm db).1
  /\ only_at nm db (get_or_create_collection nm db).1
  /\ forall c, (get_or_create_collection nm db).2 = Ok c -> c = {| name := nm |}.
Proof.
  unfold get_or_create_collection.
  destruct (chroma_raises (GetOrCreate nm)); cbn [fst snd].
  { split; [apply grows_refl|]. split; [apply only_at_refl | discriminate]. }
  destruct (db !! nm) as [es|] eqn:Edb; cbn [fst snd].
  - split; [apply grows_refl|]. split; [apply only_at_refl|]. now intros c [= <-].
  - split; [|split].
    + intros k es Hk. exists []. rewrite app_nil_r.
      rewrite lookup_insert_ne; [assumption | congruence].
    + intros k Hk. now rewrite lookup_insert_ne.
    + now intros c [= <-].
Qed.

Lemma count_state c db : (count c db).1 = db.
Proof.
  unfold count. destruct (chroma_raises (Count (name c))); [reflexivity|].
  now destruct (db !! name c).
Qed.

Lemma add_grows c documents embeddings ids metadatas db :
  grows db (add c documents embeddings ids metadatas db).1
  /\ only_at (name c) db (add c documents embeddings ids metadatas db).1.
Proof.
  unfold add.
  destruct (chroma_raises (Add (name c) ids));
    [split; [apply grows_refl | apply only_at_refl]|].
  destruct (negb (bool_decide (NoDup ids)));
    [split; [apply grows_refl | apply only_at_refl]|].
  destruct (negb _); [split; [apply grows_refl | apply only_at_refl]|].
  destruct (db !! name c) as [es|] eqn:Edb;
    [|split; [apply grows_refl | apply only_at_refl]].
  cbn [fst]. split.
  - intros k es0 Hk. destruct (decide (k = name c)) as [->|Hne].
    + rewrite lookup_insert_eq. rewrite Edb in Hk. inversion Hk; subst.
      eexists. reflexivity.
    + rewrite lookup_insert_ne by congruence. exists []. now rewrite app_nil_r.
  - intros k Hk. now rewrite lookup_insert_ne.
Qed.

Lemma store_chunks_grows filename pdf_hash c chunks chunk_metadata db f s1 r :
  store_chunks filename pdf_hash c chunks chunk_metadata (db, f) = (s1, r) ->
  grows db s1.1 /\ only_at (name c) db s1.1.
Proof.
  unfold store_chunks. unfold mbind at 1, M_bind at 1, lift.
  destruct (encode chunks) as [embeddings|e].
  2:{ intros [= <- _]. split; [apply grows_refl | apply only_at_refl]. }
  unfold try_except, mbind, M_bind, on_db. cbn [fst snd].
  pose proof (add_grows c chunks embeddings (chunk_ids pdf_hash chunks)
                (chunk_metadatas filename (chunk_ids pdf_hash chunks) chunk_metadata)
                db) as Hadd.
  destruct (add c chunks embeddings _ _ db) as [db' [[]|e]];
    cbn; intros [= <- _]; exact Hadd.
Qed.

Lemma add_documents_body_grows filename db (f : file) s1 r :
  add_documents_body filename (db, f) = (s1, r) ->
  grows db s1.1 /\ only_at ("pdf_" +:+ md5_hexdigest (content f)) db s1.1.
Proof.
  assert (Hsame : forall (f' : file) r',
            (db, f', r') = (s1, r) ->
            grows db s1.1
            /\ only_at ("pdf_" +:+ md5_hexdigest (content f)) db s1.1).
  { intros f' r' [= <- _]. split; [apply grows_refl | apply only_at_refl]. }
  unfold add_documents_body.
  destruct (closed f) eqn:Hopen.
  { unfold mbind at 1, M_bind at 1, on_file at 1, seek0. cbn [fst snd].
    rewrite Hopen. apply Hsame. }
  unfold mbind at 1, M_bind at 1. rewrite (seek_open db f Hopen).
  unfold mbind at 1, M_bind at 1. rewrite hash_rewound.
  destruct (PyStr.truthy (md5_hexdigest (content f))); cbn [negb];
    [|apply Hsame].
  clear Hsame. set (nm := "pdf_" +:+ md5_hexdigest (content f)).
  destruct (get_or_create_grows nm db) as (Hg0 & Ho0 & Hc0).
  unfold mbind at 1, M_bind at 1, on_db at 1. cbn [fst snd].
  destruct (get_or_create_collection nm db) as [db0 [c|e]];
    cbn [fst snd] in *; [|intros [= <- _]; now split].
  rewrite (Hc0 c eq_refl).
  unfold mbind at 1, M_bind at 1, on_db at 1. cbn [fst snd].
  pose proof (count_state {| name := nm |} db0) as Hcount.
  destruct (count {| name := nm |} db0) as [db1 [n|e]] eqn:Ecount;
    cbn [fst snd] in Hcount; subst db1; [|intros [= <- _]; now split].
  destruct (0 <? n).
  { unfold mbind at 1, M_bind at 1, on_db at 1. cbn [fst snd].
    rewrite Ecount. intros [= <- _]; now split. }
  unfold mbind at 1, M_bind at 1, on_file at 1. cbn [fst snd].
  destruct (extract_pdf_text_with_pages _) as [f1 [page_texts|e]];
    [|intros [= <- _]; now split].
  destruct (PyList.truthy page_texts); cbn [negb];
    [|intros [= <- _]; now split].
  destruct (Chunker.chunk_text page_texts 500 100) as [chunks chunk_metadata].
  destruct (PyList.truthy chunks); cbn [negb]; [|intros [= <- _]; now split].
  intros Estore.
  apply store_chunks_grows in Estore as (Hg1 & Ho1). cbn [fst name] in *.
  split; [now apply (grows_trans db db0) | now apply (only_at_trans nm db db0)].
Qed.

(** X13: [add_documents] never deletes nor overwrites: every collection of the
    store is still there afterwards with the entries it had, in front of
    any new ones; and no collection but the one named after the hash of
    the file is touched. This holds whatever the file and whichever call
    fails. *)
Theorem add_documents_only_grows filename db (f : file) :
  grows db (add_documents filename (db, f)).1.1
  /\ only_at ("pdf_" +:+ md5_hexdigest (content f)) db
       (add_documents filename (db, f)).1.1.
Proof.
  unfold add_documents. rewrite !try_except_state.
  destruct (add_documents_body filename (db, f)) as [s1 r] eqn:Ebody.
  now apply add_documents_body_grows in Ebody.
Qed.

(** *** A PDF that is not in the store yet *)

Lemma chunk_ids_length pdf_hash chunks :
  length (chunk_ids pdf_hash chunks) = length chunks.
Proof.
  unfold chunk_ids, PyList.len. rewrite length_map, length_seqZ. lia.
Qed.

Lemma chunk_ids_NoDup pdf_hash chunks : NoDup (chunk_ids pdf_hash chunks).
Proof.
  unfold chunk_ids.
  change (NoDup ((fun i => pdf_hash +:+ "_" +:+ PyStr.str_of_int i)
                   <$> seqZ 0 (PyList.len chunks))).
  apply NoDup_fmap_2; [|apply NoDup_seqZ].
  intros i j Heq. apply String.app_inj, String.app_inj in Heq.
  now apply NumeralFacts.str_of_int_inj.
Qed.

Lemma zip_entries_fresh ids documents embeddings metadatas :
  filter (fun e => has_id [] (entry_id e) = false)
         (zip_entries ids documents embeddings metadatas)
  = zip_entries ids documents embeddings metadatas.
Proof.
  apply NumeralFacts.filter_all, Forall_forall. now intros e _.
Qed.

(** A hex digest of MD5 has 32 characters. *)
Hypothesis md5_hexdigest_length :
  forall data, String.length (md5_hexdigest data) = 32%nat.

(** Lines 80-104 on a readable PDF whose collection is missing or
    empty. *)
Lemma add_documents_body_new filename db (f : file) texts :
  closed f = false ->
  pdf_reader (content f) = Ok (map Ok texts) ->
  chroma_raises (GetOrCreate ("pdf_" +:+ md5_hexdigest (content f))) = None ->
  chroma_raises (Count ("pdf_" +:+ md5_hexdigest (content f))) = None ->
  db !! ("pdf_" +:+ md5_hexdigest (content f)) = None
  \/ db !! ("pdf_" +:+ md5_hexdigest (content f)) = Some [] ->
  add_documents_body filename (db, f)
  = let c := {| name := "pdf_" +:+ md5_hexdigest (content f) |} in
    let s0 := (<[name c := []]> db,
               {| closed := false; content := content f;
                  pos := pdf_reader_tell (content f) |}) in
    if negb (PyList.truthy (numbered 0 texts)) then (s0, Ok (Some c, false))
    else if negb (PyList.truthy (Chunker.chunk_text (numbered 0 texts) 500 100).1)
    then (s0, Ok (Some c, false))
    else store_chunks (normpath filename) (md5_hexdigest (content f)) c
           (Chunker.chunk_text (numbered 0 texts) 500 100).1
           (Chunker.chunk_text (numbered 0 texts) 500 100).2 s0.
Proof.
  intros Hopen Hpdf Hget Hcount Hdb. cbv zeta. cbn [name].
  set (nm := "pdf_" +:+ md5_hexdigest (content f)) in *.
  unfold add_documents_body.
  unfold mbind at 1, M_bind at 1. rewrite (seek_open db f Hopen).
  unfold mbind at 1, M_bind at 1. rewrite hash_rewound.
  rewrite (md5_truthy md5_hexdigest_length). cbn [negb]. fold nm.
  assert (Hgoc : get_or_create_collection nm db
                 = (<[nm := []]> db, Ok {| name := nm |})).
  { unfold get_or_create_collection. rewrite Hget.
    destruct Hdb as [-> | Hdb]; [reflexivity|].
    rewrite Hdb. now rewrite insert_id. }
  unfold mbind at 1, M_bind at 1, on_db at 1. cbn [fst snd]. rewrite Hgoc.
  unfold mbind at 1, M_bind at 1, on_db at 1, count. cbn [fst snd name].
  rewrite Hcount, lookup_insert_eq. change (0 <? PyList.len []) with false.
  cbv iota.
  unfold mbind at 1, M_bind at 1, on_file at 1. cbn [fst snd].
  rewrite (ExtractFacts.extract_readable
             {| closed := false; content := content f;
                pos := String.length (content f) |} texts eq_refl Hpdf).
  cbn [content].
  destruct (negb (PyList.truthy (numbered 0 texts))); [reflexivity|].
  destruct (Chunker.chunk_text (numbered 0 texts) 500 100)
    as [chunks chunk_metadata]. cbn [fst snd].
  now destruct (negb (PyList.truthy chunks)).
Qed.

(** X14: A PDF without a single word (no pages, or only pages without text)
    that is not in the store yet: [add_documents] returns its collection
    with [processed = False], and leaves that collection behind, empty. *)
Theorem add_documents_blank filename db (f : file) texts :
  closed f = false ->
  pdf_reader (content f) = Ok (map Ok texts) ->
  all_words (numbered 0 texts) = [] ->
  chroma_raises (GetOrCreate ("pdf_" +:+ md5_hexdigest (content f))) = None ->
  chroma_raises (Count ("pdf_" +:+ md5_hexdigest (content f))) = None ->
  db !! ("pdf_" +:+ md5_hexdigest (content f)) = None ->
  (add_documents filename (db, f)).2
  = Ok (Some {| name := "pdf_" +:+ md5_hexdigest (content f) |}, false)
  /\ (add_documents filename (db, f)).1.1
     = <["pdf_" +:+ md5_hexdigest (content f) := []]> db.
Proof.
  intros Hopen Hpdf Hblank Hget Hcount Hdb.
  unfold add_documents, try_except.
  rewrite (add_documents_body_new filename db f texts Hopen Hpdf Hget Hcount
             (or_introl Hdb)).
  cbv zeta. cbn [name].
  unfold Chunker.chunk_text, Chunker.run.
  rewrite (ChunkerMore.run_no_words _ 500 100 Hblank). cbn [fst snd].
  change (Chunker.flush Chunker.init).1 with (@nil string).
  change (PyList.truthy []) with false. cbn [negb].
  destruct (negb (PyList.truthy (numbered 0 texts))); split; reflexivity.
Qed.

Lemma zip_entries_length (chunks : list string) : forall ids embeddings ms,
  length ids = length chunks -> length embeddings = length chunks ->
  length ms = length chunks ->
  length (zip_entries ids chunks embeddings ms) = length chunks
  /\ map entry_id (zip_entries ids chunks embeddings ms) = ids
  /\ map entry_document (zip_entries ids chunks embeddings ms) = chunks.
Proof.
  induction chunks as [|ch chunks IH]; intros ids embeddings ms Hi He Hm.
  - destruct ids; [|discriminate]. now repeat split.
  - destruct ids as [|i ids]; [discriminate|].
    destruct embeddings as [|e embeddings]; [discriminate|].
    destruct ms as [|m ms]; [discriminate|].
    cbn [zip_entries length map entry_id entry_document].
    destruct (IH ids embeddings ms) as (Hl & Hids & Hdocs);
      [cbn [length] in *; lia ..|].
    now rewrite Hl, Hids, Hdocs.
Qed.

(** The whole outcome on a PDF with words that is not in the store yet,
    when Chroma and the embedder work. *)
Lemma add_documents_fresh filename db (f : file) texts embeddings :
  closed f = false ->
  pdf_reader (content f) = Ok (map Ok texts) ->
  (forall call, chroma_raises call = None) ->
  db !! ("pdf_" +:+ md5_hexdigest (content f)) = None
  \/ db !! ("pdf_" +:+ md5_hexdigest (content f)) = Some [] ->
  (Chunker.chunk_text (numbered 0 texts) 500 100).1 <> [] ->
  encode (Chunker.chunk_text (numbered 0 texts) 500 100).1 = Ok embeddings ->
  length embeddings = length (Chunker.chunk_text (numbered 0 texts) 500 100).1 ->
  let chunks := (Chunker.chunk_text (numbered 0 texts) 500 100).1 in
  let chunk_metadata := (Chunker.chunk_text (numbered 0 texts) 500 100).2 in
  let ids := chunk_ids (md5_hexdigest (content f)) chunks in
  add_documents filename (db, f)
  = ((<["pdf_" +:+ md5_hexdigest (content f) :=
          zip_entries ids chunks embeddings
            (chunk_metadatas (normpath filename) ids chunk_metadata)]> db,
      {| closed := false; content := content f;
         pos := pdf_reader_tell (content f) |}),
     Ok (Some {| name := "pdf_" +:+ md5_hexdigest (content f) |}, true))
  /\ length (chunk_metadatas (normpath filename) ids chunk_metadata)
     = length chunks.
Proof.
  intros Hopen Hpdf Hchroma Hdb Hchunks Henc Hlen. cbv zeta.
  unfold add_documents, try_except.
  rewrite (add_documents_body_new filename db f texts Hopen Hpdf
             (Hchroma _) (Hchroma _) Hdb).
  cbv zeta. cbn [name].
  pose proof (ChunkerFacts.chunk_text_lengths (numbered 0 texts) 500 100)
    as (Hmeta & _).
  remember (Chunker.chunk_text (numbered 0 texts) 500 100).1 as chunks
    eqn:Echunks.
  remember (Chunker.chunk_text (numbered 0 texts) 500 100).2 as chunk_metadata
    eqn:Emeta.
  set (nm := "pdf_" +:+ md5_hexdigest (content f)).
  set (ids := chunk_ids (md5_hexdigest (content f)) chunks).
  assert (Htexts : PyList.truthy (numbered 0 texts) = true).
  { destruct texts as [|t texts]; [|reflexivity].
    exfalso. apply Hchunks. subst chunks. reflexivity. }
  assert (Htruthy : PyList.truthy chunks = true).
  { destruct chunks; [congruence | reflexivity]. }
  rewrite Htexts, Htruthy. cbn [negb].
  unfold store_chunks. unfold mbind at 1, M_bind at 1, lift. rewrite Henc.
  unfold try_except, mbind, M_bind, on_db, add. cbn [fst snd name].
  rewrite (Hchroma _). fold ids.
  rewrite (bool_decide_eq_true_2 (NoDup ids)
             (chunk_ids_NoDup (md5_hexdigest (content f)) chunks)).
  cbn [negb].
  assert (Hids : length ids = length chunks) by apply chunk_ids_length.
  assert (Hms : length (chunk_metadatas (normpath filename) ids chunk_metadata)
                = length chunks).
  { unfold chunk_metadatas. rewrite length_zip_with. lia. }
  rewrite Hids, Hlen, Hms, !Nat.eqb_refl. cbn [andb negb].
  rewrite lookup_insert_eq, zip_entries_fresh, insert_insert_eq.
  cbn [app fst snd mret M_ret].
  split; reflexivity.
Qed.

(** X15: A PDF with words that is not in the store yet, when Chroma and the
    embedder work: [add_documents] reports [processed = True] and the
    collection holds exactly one entry per chunk of [chunk_text(...,
    500, 100)], in order, with the ids [<hash>_0], [<hash>_1], ... *)
Theorem add_documents_stores filename db (f : file) texts embeddings :
  closed f = false ->
  pdf_reader (content f) = Ok (map Ok texts) ->
  (forall call, chroma_raises call = None) ->
  db !! ("pdf_" +:+ md5_hexdigest (content f)) = None
  \/ db !! ("pdf_" +:+ md5_hexdigest (content f)) = Some [] ->
  (Chunker.chunk_text (numbered 0 texts) 500 100).1 <> [] ->
  encode (Chunker.chunk_text (numbered 0 texts) 500 100).1 = Ok embeddings ->
  length embeddings = length (Chunker.chunk_text (numbered 0 texts) 500 100).1 ->
  let chunks := (Chunker.chunk_text (numbered 0 texts) 500 100).1 in
  exists entries,
    (add_documents filename (db, f)).2
    = Ok (Some {| name := "pdf_" +:+ md5_hexdigest (content f) |}, true)
    /\ (add_documents filename (db, f)).1.1
       = <["pdf_" +:+ md5_hexdigest (content f) := entries]> db
    /\ map entry_document entries = chunks
    /\ map entry_id entries = chunk_ids (md5_hexdigest (content f)) chunks.
Proof.
  intros Hopen Hpdf Hchroma Hdb Hchunks Henc Hlen. cbv zeta.
  destruct (add_documents_fresh filename db f texts embeddings
              Hopen Hpdf Hchroma Hdb Hchunks Henc Hlen) as (-> & Hms).
  cbv zeta in Hms. cbn [fst snd].
  eexists. split; [reflexivity|]. split; [reflexivity|].
  destruct (zip_entries_length _ _ _ _
              (chunk_ids_length (md5_hexdigest (content f)) _) Hlen Hms)
    as (_ & Hids & Hdocs).
  split; assumption.
Qed.

End WithExternals.

Lemma add_documents_blank_witness :
  (forall data, String.length (Toy.take_pad 32 data) = 32%nat)
  /\ all_words (numbered 0 [Some " "; Some " "]%string) = []
  /\ (@add_documents (Toy.externals Toy.no_faults Toy.no_query) "a.pdf"
        (∅, Toy.open_file " | ")).2
     = Ok (Some {| name := "pdf_" +:+ Toy.take_pad 32 " | " |}, false)
  /\ (@add_documents (Toy.externals Toy.no_faults Toy.no_query) "a.pdf"
        (∅, Toy.open_file " | ")).1.1
     = <["pdf_" +:+ Toy.take_pad 32 " | " := []]> ∅.
Proof.
  split; [exact (take_pad_length 32)|]. split; [reflexivity|].
  apply (@add_documents_blank (Toy.externals Toy.no_faults Toy.no_query)
           (take_pad_length 32) "a.pdf" ∅ (Toy.open_file " | ")
           [Some " "; Some " "]%string).
  - reflexivity.
  - vm_compute. reflexivity.
  - reflexivity.
  - reflexivity.
  - reflexivity.
  - apply lookup_empty.
Defined.

Lemma add_documents_stores_witness :
  (forall data, String.length (Toy.take_pad 32 data) = 32%nat)
  /\ exists entries,
       (@add_documents (Toy.externals Toy.no_faults Toy.no_query) "a.pdf"
          (∅, Toy.open_file "hello world")).2
       = Ok (Some {| name := "pdf_" +:+ Toy.take_pad 32 "hello world" |}, true)
       /\ (@add_documents (Toy.externals Toy.no_faults Toy.no_query) "a.pdf"
            (∅, Toy.open_file "hello world")).1.1
          = <["pdf_" +:+ Toy.take_pad 32 "hello world" := entries]> ∅
       /\ map entry_document entries
          = (Chunker.chunk_text (numbered 0 [Some "hello world"%string])
               500 100).1
       /\ map entry_id entries
          = @chunk_ids (Toy.take_pad 32 "hello world")
              (Chunker.chunk_text (numbered 0 [Some "hello world"%string])
                 500 100).1.
Proof.
  split; [exact (take_pad_length 32)|].
  apply (@add_documents_stores (Toy.externals Toy.no_faults Toy.no_query)
           (take_pad_length 32) "a.pdf" ∅ (Toy.open_file "hello world")
           [Some "hello world"%string] [[inject_Z 11]]).
  - reflexivity.
  - vm_compute. reflexivity.
  - intros call. reflexivity.
  - left. apply lookup_empty.
  - vm_compute. discriminate.
  - vm_compute. reflexivity.
  - vm_compute. reflexivity.
Defined.


End AddMore.

(** ** The RAG variants *)

Module VariantMore.

Import Py Deque Chroma ChromaUtils Spec PyListFacts PyStrFacts VariantFacts.

Lemma first_by_fresh {A} (key : A -> string) l : forall seen x,
  x ∈ first_by key seen l -> key x ∉ seen.
Proof.
  induction l as [|y l IH]; intros seen x Hx; cbn [first_by] in Hx.
  - now apply elem_of_nil in Hx.
  - destruct (bool_decide (key y ∈ seen)) eqn:E.
    + now apply IH in Hx.
    + apply bool_decide_eq_false in E.
      apply elem_of_cons in Hx as [->|Hx]; [assumption|].
      apply IH in Hx. set_solver.
Qed.

Lemma first_by_NoDup {A} (key : A -> string) l : forall seen,
  NoDup (map key (first_by key seen l)).
Proof.
  induction l as [|y l IH]; intros seen; cbn [first_by].
  - constructor.
  - destruct (bool_decide (key y ∈ seen)); [apply IH|].
    cbn [map]. constructor; [|apply IH].
    intros Hin. change (key y ∈ key <$> first_by key ({[key y]} ∪ seen) l) in Hin.
    apply list_elem_of_fmap in Hin as (x & Hkey & Hx).
    apply first_by_fresh in Hx. rewrite <- Hkey in Hx. set_solver.
Qed.

Lemma first_by_seen {A} (key : A -> string) l : forall seen seen',
  seen = seen' -> first_by key seen l = first_by key seen' l.
Proof. now intros seen seen' ->. Qed.

Lemma first_by_app {A} (key : A -> string) l1 l2 : forall seen,
  first_by key seen (l1 ++ l2)
  = first_by key seen l1
      ++ first_by key (list_to_set (map key l1) ∪ seen) l2.
Proof.
  induction l1 as [|x l1 IH]; intros seen; cbn [app first_by map list_to_set].
  - apply first_by_seen. set_solver.
  - destruct (bool_decide (key x ∈ seen)) eqn:E.
    + apply bool_decide_eq_true in E. rewrite IH. f_equal.
      apply first_by_seen. set_solver.
    + rewrite IH. cbn [app]. do 2 f_equal. apply first_by_seen. set_solver.
Qed.

Section WithExternals.

Context `{Externals}.

(** The chunk ids seen after the loop over the results of one query. *)
Lemma multi_query_loop_ids query results : forall st,
  MultiQueryRAG.chunk_ids (foldl (MultiQueryRAG.chunk_step query) st results)
  = list_to_set (map (fun h => chunk_id (metadata h)) results)
      ∪ MultiQueryRAG.chunk_ids st.
Proof.
  induction results as [|h results IH]; intros st; cbn [foldl map list_to_set].
  - set_solver.
  - rewrite IH. unfold MultiQueryRAG.chunk_step.
    destruct (bool_decide _) eqn:E; [|cbn; set_solver].
    apply bool_decide_eq_true in E. set_solver.
Qed.

(** The loop of lines 75-99 over the queries. *)
Lemma multi_query_queries collections top_k queries : forall st per,
  mapM (fun q => query_collections q collections top_k) queries = Ok per ->
  exists st',
    for_each (MultiQueryRAG.query_step collections top_k) st queries = Ok st'
    /\ MultiQueryRAG.all_results st'
       = MultiQueryRAG.all_results st
           ++ first_by_chunk_id (MultiQueryRAG.q_chunk_ids st) (concat per).
Proof.
  induction queries as [|q queries IH]; intros st per Hper.
  - inversion Hper; subst per. exists st. cbn. now rewrite app_nil_r.
  - cbn [mapM] in Hper. unfold mbind at 1, result_bind at 1 in Hper.
    destruct (query_collections q collections top_k) as [results|e] eqn:Eq;
      [|discriminate].
    fold (mapM (fun q => query_collections q collections top_k) queries) in Hper.
    unfold mbind at 1, result_bind at 1 in Hper.
    destruct (mapM _ queries) as [per'|e] eqn:Eper; [|discriminate].
    inversion Hper; subst per. clear Hper.
    cbn [for_each concat]. unfold MultiQueryRAG.query_step at 1.
    rewrite Eq. unfold mbind at 1, result_bind at 1.
    unfold first_by_chunk_id. rewrite first_by_app.
    destruct results as [|h results].
    + cbn [PyList.truthy negb mret result_ret].
      destruct (IH {| MultiQueryRAG.q_chunk_ids := MultiQueryRAG.q_chunk_ids st;
                      MultiQueryRAG.all_results := MultiQueryRAG.all_results st;
                      MultiQueryRAG.q_context := MultiQueryRAG.q_context st;
                      MultiQueryRAG.q_raw_response :=
                        MultiQueryRAG.q_raw_response st +:+ PyStr.nl
                          +:+ "Query: " +:+ q +:+ PyStr.nl
                          +:+ "No relevant documents found." +:+ PyStr.nl |}
                  per' eq_refl) as (st' & Hloop & Hall).
      exists st'. split; [exact Hloop|]. rewrite Hall.
      cbn [MultiQueryRAG.all_results MultiQueryRAG.q_chunk_ids first_by app
           map list_to_set].
      f_equal. apply first_by_seen. set_solver.
    + cbn [PyList.truthy negb mret result_ret].
      match goal with
      | |- context [for_each _ ?st1 queries] =>
          destruct (IH st1 per' eq_refl) as (st' & Hloop & Hall)
      end.
      exists st'. split; [exact Hloop|]. rewrite Hall.
      cbn [MultiQueryRAG.all_results MultiQueryRAG.q_chunk_ids].
      rewrite multi_query_loop, multi_query_loop_ids.
      cbn [MultiQueryRAG.query_results MultiQueryRAG.chunk_ids app].
      unfold first_by_chunk_id. now rewrite <- app_assoc.
Qed.

Lemma query_collections_all queries collections top_k :
  exists per,
    mapM (fun q => query_collections q collections top_k) queries = Ok per.
Proof.
  induction queries as [|q queries (per & IH)]; [now exists []|].
  destruct (query_collections_ok q collections top_k) as (results & Hq).
  exists (results :: per). cbn [mapM]. unfold mbind at 1, result_bind at 1.
  rewrite Hq.
  fold (mapM (fun q => query_collections q collections top_k) queries).
  now rewrite IH.
Qed.

(** X17: With collections and queries given, [multi_query_rag] records exactly
    one turn, also when nothing was found; what it retrieves is the
    results of all the queries, one query after the other, with every
    chunk id kept at its first occurrence only: no chunk is shown twice,
    not even for two different queries. *)
Theorem multi_query_rag_retrieves queries collections top_k fine_tune self :
  collections <> [] -> queries <> [] ->
  (fine_tune = true ->
   forall prompt, exists answer,
     chat_completion "gpt-4o-mini" prompt 1000 (10007 # 10) = Ok answer) ->
  exists per response reply,
    mapM (fun q => query_collections q collections top_k) queries = Ok per
    /\ MultiQueryRAG.multi_query_rag queries collections top_k fine_tune self
       = ({| MultiQueryRAG.history :=
               append (queries, response) (MultiQueryRAG.history self) |},
          Ok reply)
    /\ retrieved reply = first_by_chunk_id ∅ (concat per)
    /\ NoDup (map (fun h => chunk_id (metadata h)) (retrieved reply)).
Proof.
  intros Hcs Hqs Hchat.
  destruct (query_collections_all queries collections top_k) as (per & Hper).
  destruct (multi_query_queries collections top_k queries
              {| MultiQueryRAG.q_chunk_ids := ∅;
                 MultiQueryRAG.all_results := [];
                 MultiQueryRAG.q_context := EmptyString;
                 MultiQueryRAG.q_raw_response := EmptyString |} per Hper)
    as (st & Hloop & Hall).
  cbn [MultiQueryRAG.all_results MultiQueryRAG.q_chunk_ids app] in Hall.
  assert (Hnodup : NoDup (map (fun h => chunk_id (metadata h))
                            (MultiQueryRAG.all_results st))).
  { rewrite Hall. apply first_by_NoDup. }
  exists per.
  unfold MultiQueryRAG.multi_query_rag, try_except,
    MultiQueryRAG.multi_query_rag_body.
  destruct collections as [|c cs]; [congruence|].
  destruct queries as [|q qs]; [congruence|].
  cbn [PyList.truthy negb].
  unfold mbind at 1, M_bind at 1, lift. rewrite Hloop.
  destruct (negb (PyList.truthy (MultiQueryRAG.all_results st))).
  { unfold mbind, M_bind, MultiQueryRAG.add_to_history, mret, M_ret.
    eexists _, _. split; [exact Hper|]. split; [reflexivity|].
    split; assumption. }
  destruct fine_tune; cbn [negb].
  - unfold mbind at 1, M_bind at 1.
    assert (Hctx : exists ctx,
              MultiQueryRAG.get_history_context self = (self, Ok ctx)).
    { unfold MultiQueryRAG.get_history_context.
      destruct (negb _); eexists; reflexivity. }
    destruct Hctx as (ctx & ->).
    unfold mbind at 1, M_bind at 1, lift.
    destruct (Hchat eq_refl
                (MultiQueryRAG.prompt ctx (MultiQueryRAG.q_context st) (q :: qs)))
      as (answer & ->).
    unfold mbind, M_bind, MultiQueryRAG.add_to_history, mret, M_ret.
    eexists _, _. split; [exact Hper|]. split; [reflexivity|].
    split; assumption.
  - unfold mbind, M_bind, MultiQueryRAG.add_to_history, mret, M_ret.
    eexists _, _. split; [exact Hper|]. split; [reflexivity|].
    split; assumption.
Qed.

(** The loop of [multi_document_rag] shows the first result, whatever
    comes after it. *)
Lemma multi_document_shows (results : list hit) :
  results <> [] ->
  let st :=
    foldl MultiDocumentRAG.chunk_step
          {| MultiDocumentRAG.chunk_ids := ∅;
             MultiDocumentRAG.raw_response := EmptyString;
             MultiDocumentRAG.context := EmptyString;
             MultiDocumentRAG.shown := [] |}
          (zip (seqZ 0 (PyList.len results)) results) in
  MultiDocumentRAG.chunk_ids st <> ∅ /\ MultiDocumentRAG.shown st <> [].
Proof.
  intros Hne. destruct results as [|h results]; [congruence|]. cbv zeta.
  unfold PyList.len. cbn [length]. rewrite seqZ_cons by lia.
  cbn [zip zip_with foldl]. unfold MultiDocumentRAG.chunk_step at 2 4.
  rewrite bool_decide_eq_false_2 by set_solver.
  cbn [MultiDocumentRAG.chunk_ids MultiDocumentRAG.shown app].
  generalize (zip_with pair
                (seqZ (Z.succ 0) (Z.pred (Z.of_nat (S (length results)))))
                results).
  intros l.
  match goal with
  | |- MultiDocumentRAG.chunk_ids (foldl _ ?st0 l) <> ∅ /\ _ =>
      assert (Hin : chunk_id (metadata h) ∈ MultiDocumentRAG.chunk_ids st0)
        by (cbn; set_solver);
      assert (Hshown : MultiDocumentRAG.shown st0 <> []) by (cbn; discriminate);
      generalize dependent st0
  end.
  induction l as [|[i x] l IH]; intros st0 Hin Hshown; cbn [foldl].
  - split; [set_solver | assumption].
  - apply IH; unfold MultiDocumentRAG.chunk_step;
      destruct (bool_decide _); try assumption; cbn; [set_solver|].
    now destruct (MultiDocumentRAG.shown st0).
Qed.

(** X18: [multi_document_rag] records a turn only when it shows a chunk: the
    history is either left as it was, or one turn, of the query and the
    response behind the heading of the reply, is appended, and then at
    least one chunk was retrieved. The reply with the note on images of
    line 99 is never given. *)
Theorem multi_document_rag_history query collections top_k fine_tune self :
  (MultiDocumentRAG.multi_document_rag query collections top_k fine_tune self).1
    = self
  \/ exists response reply,
       MultiDocumentRAG.multi_document_rag query collections top_k fine_tune self
       = ({| MultiDocumentRAG.history :=
               append (query, response) (MultiDocumentRAG.history self) |},
          Ok reply)
       /\ retrieved reply <> []
       /\ text reply
          = PyStr.nl
              +:+ (if fine_tune then "Fine-Tuned Multi-Document RAG Answer:"
                   else "Raw Multi-Document RAG Response:")
              +:+ PyStr.nl +:+ response.
Proof.
  destruct (MultiDocumentRAG.multi_document_rag query collections top_k
              fine_tune self) as [self' r] eqn:E.
  cbn [fst]. revert E.
  unfold MultiDocumentRAG.multi_document_rag, try_except,
    MultiDocumentRAG.multi_document_rag_body.
  destruct (negb (PyList.truthy collections)); [intros [= <- _]; now left|].
  destruct (negb (PyStr.truthy query)); [intros [= <- _]; now left|].
  unfold mbind at 1, M_bind at 1, lift.
  destruct (query_collections query collections top_k) as [results|e];
    [|intros [= <- _]; now left].
  destruct results as [|h results]; [intros [= <- _]; now left|].
  cbn [PyList.truthy negb].
  destruct (multi_document_shows (h :: results)) as (Hids & Hshown);
    [discriminate|].
  cbv zeta in Hids, Hshown.
  rewrite bool_decide_eq_false_2 by exact Hids.
  destruct fine_tune; cbn [negb].
  - unfold mbind at 1, M_bind at 1.
    assert (Hctx : exists ctx,
              MultiDocumentRAG.get_history_context self = (self, Ok ctx)).
    { unfold MultiDocumentRAG.get_history_context.
      destruct (negb _); eexists; reflexivity. }
    destruct Hctx as (ctx & ->).
    unfold mbind at 1, M_bind at 1, lift.
    destruct (chat_completion _ _ _ _) as [answer|e];
      [|intros [= <- _]; now left].
    unfold mbind, M_bind, MultiDocumentRAG.add_to_history, mret, M_ret.
    intros [= <- <-]. right.
    eexists _, _. split; [reflexivity|]. split; [exact Hshown | reflexivity].
  - unfold mbind, M_bind, MultiDocumentRAG.add_to_history, mret, M_ret.
    intros [= <- <-]. right.
    eexists _, _. split; [reflexivity|]. split; [exact Hshown | reflexivity].
Qed.

End WithExternals.

(** Two queries that find the same chunk: it is shown once, and the turn
    is recorded. *)
Lemma multi_query_rag_retrieves_witness :
  exists per response reply,
    mapM (fun q =>
            @query_collections
              (Toy.externals Toy.no_faults (Toy.one_chunk "c1" (Some (1 # 2))))
              q [{| name := "a" |}] 3) ["first"; "second"]%string = Ok per
    /\ @MultiQueryRAG.multi_query_rag
         (Toy.externals Toy.no_faults (Toy.one_chunk "c1" (Some (1 # 2))))
         ["first"; "second"]%string [{| name := "a" |}] 3 false
         {| MultiQueryRAG.history := {| maxlen := Some 5; items := [] |} |}
       = ({| MultiQueryRAG.history :=
               append (["first"; "second"]%string, response)
                 {| maxlen := Some 5; items := [] |} |},
          Ok reply)
    /\ retrieved reply = first_by_chunk_id ∅ (concat per)
    /\ NoDup (map (fun h => chunk_id (metadata h)) (retrieved reply)).
Proof.
  apply (@multi_query_rag_retrieves
           (Toy.externals Toy.no_faults (Toy.one_chunk "c1" (Some (1 # 2))))
           ["first"; "second"]%string [{| name := "a" |}] 3 false
           {| MultiQueryRAG.history := {| maxlen := Some 5; items := [] |} |}).
  - discriminate.
  - discriminate.
  - discriminate.
Defined.

Example multi_query_shows_once :
  match (@MultiQueryRAG.multi_query_rag
           (Toy.externals Toy.no_faults (Toy.one_chunk "c1" (Some (1 # 2))))
           ["first"; "second"]%string [{| name := "a" |}] 3 false
           {| MultiQueryRAG.history := {| maxlen := Some 5; items := [] |} |}).2
  with
  | Ok reply => retrieved reply
  | Raise _ => []
  end
  = [{| document := "some text";
        metadata := {| chunk_id := "c1"; page_numbers := [1; 2];
                       filename := "a.pdf" |};
        similarity := 3 # 4 |}].
Proof. vm_compute. reflexivity. Qed.

End VariantMore.

(** ** [hierarchical_rag] *)

Module HierarchicalFacts.

Import Py Deque Chroma ChromaUtils Hierarchical Spec SpecMore PyListFacts
  QueryFacts VariantFacts VariantMore.

Lemma sum_zero (counts : list Q) : forall a,
  (a == 0)%Q -> Forall (fun q => (q == 0)%Q) counts ->
  (foldl Qplus a counts == 0)%Q.
Proof.
  induction counts as [|q counts IH]; intros a Ha Hall; [assumption|].
  apply Forall_cons in Hall as [Hq Hall]. cbn [foldl].
  apply IH; [|assumption]. rewrite Ha, Hq. reflexivity.
Qed.

Lemma page_counts_absent (metadata : list (gmap string string)) :
  Forall (fun meta => meta !! "page_count"%string = None) metadata ->
  exists counts,
    mapM page_count_of metadata = Ok counts
    /\ Forall (fun q => (q == 0)%Q) counts.
Proof.
  induction 1 as [|meta metadata Hmeta _ (counts & IH & Hzero)].
  - exists []. split; [reflexivity | constructor].
  - exists (0%Q :: counts). split.
    + cbn [mapM]. unfold mbind at 1, result_bind at 1, page_count_of at 1.
      rewrite Hmeta. fold (mapM page_count_of metadata). now rewrite IH.
    + constructor; [reflexivity | assumption].
Qed.

(** Equal page counts leave the order as it is: the sort is stable. *)
Lemma sorted_desc_flat (l : list coarse_result) :
  Forall (fun r => (page_count r == 0)%Q) l -> sorted_desc l = l.
Proof.
  induction 1 as [|x l Hx Hl IH]; [reflexivity|].
  unfold sorted_desc. cbn [foldr]. fold (sorted_desc l). rewrite IH.
  destruct l as [|y l]; [reflexivity|]. cbn [insert_desc].
  apply Forall_cons in Hl as [Hy _].
  assert (Hle : Qle_bool (page_count y) (page_count x) = true).
  { apply Qle_bool_iff. rewrite Hx, Hy. apply Qle_refl. }
  now rewrite Hle.
Qed.

Lemma slice_to_map {A B} (f : A -> B) k (l : list A) :
  map f (PyList.slice_to k l) = PyList.slice_to k (map f l).
Proof.
  unfold PyList.slice_to. rewrite length_map.
  change (map f) with (fmap (M := list) f). now rewrite fmap_take.
Qed.

Section WithExternals.

Context `{Externals}.

Variable chroma_get_raises : collection -> option exn.

Lemma coarse_step_plain db coarse_results c :
  plain chroma_get_raises db c ->
  exists added,
    coarse_step chroma_get_raises db coarse_results c
      = Ok (coarse_results ++ added)
    /\ map coarse_collection added = with_entries db [c]
    /\ Forall (fun r => (page_count r == 0)%Q) added.
Proof.
  intros (Hget & es & Hdb & Hplain).
  unfold coarse_step, get_metadatas. rewrite Hget, Hdb.
  unfold mbind at 1, result_bind at 1.
  unfold with_entries, has_entries.
  destruct es as [|e es].
  - exists []. cbn [map PyList.truthy]. rewrite app_nil_r.
    split; [reflexivity|].
    rewrite filter_cons_False by (rewrite Hdb; discriminate).
    split; [reflexivity | constructor].
  - cbn [map PyList.truthy].
    destruct (page_counts_absent (map entry_metadata (e :: es)))
      as (counts & Hcounts & Hzero).
    { change (map entry_metadata (e :: es)) with (entry_metadata <$> e :: es).
      now apply Forall_fmap. }
    cbn [map] in Hcounts. rewrite Hcounts.
    unfold mbind at 1, result_bind at 1.
    eexists [_]. split; [reflexivity|].
    rewrite filter_cons_True by (now rewrite Hdb).
    split; [reflexivity|]. constructor; [|constructor].
    cbn [page_count]. unfold Qdiv.
    rewrite (sum_zero counts 0%Q (Qeq_refl 0) Hzero). apply Qmult_0_l.
Qed.

Lemma coarse_loop_plain db collections : forall coarse_results,
  Forall (plain chroma_get_raises db) collections ->
  exists added,
    for_each (coarse_step chroma_get_raises db) coarse_results collections
      = Ok (coarse_results ++ added)
    /\ map coarse_collection added = with_entries db collections
    /\ Forall (fun r => (page_count r == 0)%Q) added.
Proof.
  induction collections as [|c cs IH]; intros acc Hall.
  - exists []. rewrite app_nil_r. split; [reflexivity|].
    split; [reflexivity | constructor].
  - apply Forall_cons in Hall as [Hc Hcs]. cbn [for_each].
    destruct (coarse_step_plain db acc c Hc) as (a1 & -> & Hm1 & Hz1).
    destruct (IH (acc ++ a1) Hcs) as (a2 & -> & Hm2 & Hz2).
    exists (a1 ++ a2). rewrite app_assoc. split; [reflexivity|].
    split; [|now apply Forall_app].
    rewrite map_app, Hm1, Hm2. unfold with_entries.
    now rewrite (filter_app _ [c] cs).
Qed.

(** X19: The coarse level does not rank: a store whose metadata has no page
    count (nothing [add_documents] stores has one) gives every collection
    the page count 0, so the collections selected are the first
    [top_k_coarse] of those that hold entries, in the order given,
    whatever the query. *)
Theorem coarse_retrieval_in_order db collections top_k_coarse :
  Forall (plain chroma_get_raises db) collections ->
  exists coarse_results,
    coarse_retrieval chroma_get_raises db collections top_k_coarse
      = Ok coarse_results
    /\ map coarse_collection coarse_results
       = PyList.slice_to top_k_coarse (with_entries db collections).
Proof.
  intros Hall. unfold coarse_retrieval.
  destruct (coarse_loop_plain db collections [] Hall)
    as (added & -> & Hmap & Hzero).
  cbn [app]. unfold mbind, result_bind, mret, result_ret.
  eexists. split; [reflexivity|].
  now rewrite (sorted_desc_flat added Hzero), slice_to_map, Hmap.
Qed.

(** X20: [hierarchical_rag] never records a turn: whatever it answers, the
    history is the one it was called with. *)
Theorem hierarchical_rag_keeps_history db query collections top_k_coarse
    top_k_fine fine_tune self :
  (hierarchical_rag chroma_get_raises db query collections top_k_coarse
     top_k_fine fine_tune self).1 = self.
Proof.
  unfold hierarchical_rag, try_except, hierarchical_rag_body.
  destruct (negb (PyList.truthy collections)); [reflexivity|].
  destruct (negb (PyStr.truthy query)); [reflexivity|].
  unfold mbind at 1, M_bind at 1, lift.
  destruct (coarse_retrieval _ _ _ _) as [coarse_results|e]; [|reflexivity].
  unfold mbind at 1, M_bind at 1.
  destruct (for_each _ _ _) as [st|e]; [|reflexivity].
  destruct (bool_decide _); [reflexivity|].
  destruct fine_tune; cbn [negb]; [|reflexivity].
  unfold mbind at 1, M_bind at 1, get_history_context.
  destruct (negb _); unfold mbind, M_bind, lift;
    destruct (chat_completion _ _ _ _); reflexivity.
Qed.

(** The loop of lines 87-102 over the results of one collection. *)
Lemma fine_loop (results : list hit) : forall (idx : list Z) st,
  length idx = length results ->
  shown (foldl chunk_step st (zip idx results))
  = shown st ++ first_by_chunk_id (chunk_ids st) results
  /\ chunk_ids (foldl chunk_step st (zip idx results))
     = list_to_set (map (fun h => chunk_id (metadata h)) results)
         ∪ chunk_ids st.
Proof.
  unfold first_by_chunk_id.
  induction results as [|h results IH]; intros [|i idx] st Hlen;
    try discriminate.
  - cbn [zip zip_with foldl first_by map list_to_set].
    rewrite app_nil_r. split; [reflexivity | set_solver].
  - change (zip (i :: idx) (h :: results)) with ((i, h) :: zip idx results).
    cbn [foldl first_by map list_to_set].
    destruct (IH idx (chunk_step st (i, h))) as (Hshown & Hids);
      [cbn in Hlen; lia|].
    rewrite Hshown, Hids. clear Hshown Hids.
    unfold chunk_step.
    destruct (bool_decide _) eqn:E.
    + apply bool_decide_eq_true in E. split; [reflexivity | set_solver].
    + cbn [shown chunk_ids]. rewrite <- app_assoc.
      split; [reflexivity | set_solver].
Qed.

(** The loop of lines 82-103 over the selected collections. *)
Lemma fine_steps query top_k_fine coarse_results : forall st per,
  mapM (fun c => query_collections query [c] top_k_fine)
       (map coarse_collection coarse_results) = Ok per ->
  exists st',
    for_each (fine_step query top_k_fine) st coarse_results = Ok st'
    /\ shown st' = shown st ++ first_by_chunk_id (chunk_ids st) (concat per).
Proof.
  induction coarse_results as [|res rest IH]; intros st per Hper.
  - inversion Hper; subst per. exists st. cbn. now rewrite app_nil_r.
  - cbn [map mapM] in Hper. unfold mbind at 1, result_bind at 1 in Hper.
    destruct (query_collections query [coarse_collection res] top_k_fine)
      as [results|e] eqn:Eq; [|discriminate].
    fold (mapM (fun c => query_collections query [c] top_k_fine)
            (map coarse_collection rest)) in Hper.
    unfold mbind at 1, result_bind at 1 in Hper.
    destruct (mapM _ (map coarse_collection rest)) as [per'|e] eqn:Eper;
      [|discriminate].
    inversion Hper; subst per. clear Hper.
    cbn [for_each concat]. unfold fine_step at 1.
    rewrite Eq. unfold mbind at 1, result_bind at 1.
    unfold first_by_chunk_id. rewrite first_by_app.
    destruct results as [|h results].
    + cbn [PyList.truthy negb mret result_ret].
      destruct (IH st per' eq_refl) as (st' & Hloop & Hshown).
      exists st'. split; [exact Hloop|]. rewrite Hshown.
      cbn [first_by app map list_to_set]. f_equal.
      apply first_by_seen. set_solver.
    + cbn [PyList.truthy negb mret result_ret].
      match goal with
      | |- context [for_each _ ?st1 rest] =>
          destruct (IH st1 per' eq_refl) as (st' & Hloop & Hshown)
      end.
      exists st'. split; [exact Hloop|]. rewrite Hshown.
      cbn [shown chunk_ids].
      destruct (fine_loop (h :: results)
                  (seqZ 0 (PyList.len (h :: results))) st) as (-> & ->).
      { rewrite length_seqZ. unfold PyList.len. lia. }
      unfold first_by_chunk_id. now rewrite <- app_assoc.
Qed.

Lemma query_each_ok query top_k_fine (cs : list collection) :
  exists per, mapM (fun c => query_collections query [c] top_k_fine) cs = Ok per.
Proof.
  induction cs as [|c cs (per & IH)]; [now exists []|].
  destruct (query_collections_ok query [c] top_k_fine) as (results & Hq).
  exists (results :: per). cbn [mapM]. unfold mbind at 1, result_bind at 1.
  rewrite Hq. fold (mapM (fun c => query_collections query [c] top_k_fine) cs).
  now rewrite IH.
Qed.

(** X21: The fine level: the raw call queries the selected collections one by
    one, in the order of the coarse level, and shows their results with
    every chunk id kept at its first occurrence only. *)
Theorem hierarchical_rag_retrieves db query collections top_k_coarse
    top_k_fine self coarse_results :
  collections <> [] ->
  PyStr.truthy query = true ->
  coarse_retrieval chroma_get_raises db collections top_k_coarse
    = Ok coarse_results ->
  exists per reply,
    mapM (fun c => query_collections query [c] top_k_fine)
         (map coarse_collection coarse_results) = Ok per
    /\ hierarchical_rag chroma_get_raises db query collections top_k_coarse
         top_k_fine false self = (self, Ok reply)
    /\ retrieved reply = first_by_chunk_id ∅ (concat per)
    /\ NoDup (map (fun h => chunk_id (metadata h)) (retrieved reply)).
Proof.
  intros Hcs Hquery Hcoarse.
  destruct (query_each_ok query top_k_fine
              (map coarse_collection coarse_results)) as (per & Hper).
  destruct (fine_steps query top_k_fine coarse_results
              {| fine_results := []; chunk_ids := ∅;
                 raw_response := EmptyString; context := EmptyString;
                 shown := [] |} per Hper) as (st & Hloop & Hshown).
  cbn [shown chunk_ids app] in Hshown.
  assert (Hnodup : NoDup (map (fun h => chunk_id (metadata h)) (shown st))).
  { rewrite Hshown. apply first_by_NoDup. }
  exists per.
  unfold hierarchical_rag, try_except, hierarchical_rag_body.
  destruct collections as [|c cs]; [congruence|]. cbn [PyList.truthy negb].
  rewrite Hquery. cbn [negb].
  unfold mbind at 1, M_bind at 1, lift. rewrite Hcoarse.
  unfold mbind at 1, M_bind at 1. rewrite Hloop.
  destruct (bool_decide _); cbn [negb]; unfold mret, M_ret;
    eexists; (split; [exact Hper|]); (split; [reflexivity|]);
    split; assumption.
Qed.

End WithExternals.

(** A store as [add_documents] leaves it: three collections, the second
    one empty. *)
Lemma coarse_retrieval_in_order_witness :
  exists coarse_results,
    @coarse_retrieval (fun _ => None)
      {[ "a"%string :=
           [{| entry_id := "h_0"; entry_document := "one";
               entry_embedding := [inject_Z 3];
               entry_metadata :=
                 stored_metadata "a.pdf" "h_0"
                   {| Chunker.page_numbers := [1] |} |}];
         "b"%string := [];
         "c"%string :=
           [{| entry_id := "k_0"; entry_document := "two";
               entry_embedding := [inject_Z 3];
               entry_metadata :=
                 stored_metadata "c.pdf" "k_0"
                   {| Chunker.page_numbers := [1; 2] |} |}] ]}
      [{| name := "a" |}; {| name := "b" |}; {| name := "c" |}] 2
      = Ok coarse_results
    /\ map coarse_collection coarse_results
       = [{| name := "a" |}; {| name := "c" |}].
Proof.
  apply (coarse_retrieval_in_order (fun _ => None)).
  repeat constructor.
  - eexists. split; [vm_compute; reflexivity|]. repeat constructor.
  - eexists. split; [vm_compute; reflexivity|]. repeat constructor.
  - eexists. split; [vm_compute; reflexivity|]. repeat constructor.
Defined.

Lemma hierarchical_rag_retrieves_witness :
  exists per reply,
    mapM (fun c =>
            @query_collections
              (Toy.externals Toy.no_faults (Toy.one_chunk "c1" (Some (1 # 2))))
              "q" [c] 3)
         [{| name := "a" |}; {| name := "c" |}] = Ok per
    /\ @hierarchical_rag
         (Toy.externals Toy.no_faults (Toy.one_chunk "c1" (Some (1 # 2))))
         (fun _ => None)
         {[ "a"%string :=
              [{| entry_id := "h_0"; entry_document := "one";
                  entry_embedding := [inject_Z 3];
                  entry_metadata :=
                    stored_metadata "a.pdf" "h_0"
                      {| Chunker.page_numbers := [1] |} |}];
            "c"%string :=
              [{| entry_id := "k_0"; entry_document := "two";
                  entry_embedding := [inject_Z 3];
                  entry_metadata :=
                    stored_metadata "c.pdf" "k_0"
                      {| Chunker.page_numbers := [1; 2] |} |}] ]}
         "q" [{| name := "a" |}; {| name := "c" |}] 2 3 false
         {| HierarchicalRAG.history := {| maxlen := Some 5; items := [] |} |}
       = ({| HierarchicalRAG.history := {| maxlen := Some 5; items := [] |} |},
          Ok reply)
    /\ retrieved reply = first_by_chunk_id ∅ (concat per)
    /\ NoDup (map (fun h => chunk_id (metadata h)) (retrieved reply)).
Proof.
  apply (@hierarchical_rag_retrieves
           (Toy.externals Toy.no_faults (Toy.one_chunk "c1" (Some (1 # 2))))
           (fun _ => None) _ "q" [{| name := "a" |}; {| name := "c" |}] 2 3
           {| HierarchicalRAG.history := {| maxlen := Some 5; items := [] |} |}
           [{| coarse_collection := {| name := "a" |}; page_count := 0;
               coarse_filename := "a.pdf" |};
            {| coarse_collection := {| name := "c" |}; page_count := 0;
               coarse_filename := "c.pdf" |}]).
  - discriminate.
  - reflexivity.
  - vm_compute. reflexivity.
Defined.

End HierarchicalFacts.

(** ** [conversational_rag] *)

Module ConversationalFacts.

Import Py Deque Chroma ChromaUtils Conversational Spec PyListFacts PyStrFacts.

Section WithExternals.

Context `{Externals}.

(** The loop of lines 79-90 skips nothing. *)
Lemma conversational_loop numbered : forall st,
  shown (foldl chunk_step st numbered) = shown st ++ map snd numbered
  /\ raw_response (foldl chunk_step st numbered)
     = raw_response st
         +:+ concat_all (map (fun ir => chunk_text_of ir.1 ir.2) numbered).
Proof.
  induction numbered as [|[i h] numbered IH]; intros st; cbn [foldl map].
  - cbn. now rewrite app_nil_r, append_nil_r.
  - destruct (IH (chunk_step st (i, h))) as (-> & ->).
    cbn [chunk_step shown raw_response snd fst concat_all foldr].
    now rewrite <- app_assoc, append_assoc.
Qed.

(** X22: [conversational_rag] does not deduplicate, and has no guard on the
    query: the raw call shows every result of [query_collections], in
    order and numbered from 1, two results of one chunk id included, and
    records the turn. *)
Theorem conversational_rag_shows_all query collections top_k results self :
  collections <> [] ->
  query_collections query collections top_k = Ok results ->
  results <> [] ->
  exists reply,
    conversational_rag query collections top_k false self
    = ({| ConversationalRAG.history :=
            append (query,
                    concat_all
                      (map (fun ir => chunk_text_of ir.1 ir.2)
                           (zip (seqZ 0 (PyList.len results)) results)))
                   (ConversationalRAG.history self) |},
       Ok reply)
    /\ retrieved reply = results
    /\ text reply
       = PyStr.nl +:+ "Raw RAG Response:" +:+ PyStr.nl
           +:+ concat_all
                 (map (fun ir => chunk_text_of ir.1 ir.2)
                      (zip (seqZ 0 (PyList.len results)) results)).
Proof.
  intros Hcs Hq Hres.
  unfold conversational_rag, try_except, conversational_rag_body.
  destruct collections as [|c cs]; [congruence|]. cbn [PyList.truthy negb].
  unfold mbind at 1, M_bind at 1, lift. rewrite Hq.
  destruct results as [|h results]; [congruence|]. cbn [PyList.truthy negb].
  destruct (conversational_loop
              (zip (seqZ 0 (PyList.len (h :: results))) (h :: results))
              {| raw_response := EmptyString; context := EmptyString;
                 shown := [] |}) as (Hshown & Hraw).
  cbn [shown raw_response app] in Hshown, Hraw.
  rewrite append_nil_l in Hraw.
  unfold mbind, M_bind, ConversationalRAG.add_to_history, mret, M_ret.
  rewrite Hshown, Hraw.
  eexists. split; [reflexivity|]. split; [|reflexivity].
  cbn [retrieved]. change (map snd) with (fmap (M := list) (@snd Z hit)).
  apply snd_zip. rewrite length_seqZ. unfold PyList.len. lia.
Qed.

End WithExternals.

(** Two collections that answer with the same chunk: it is shown
    twice. *)
Lemma conversational_rag_shows_all_witness :
  exists reply,
    @conversational_rag
      (Toy.externals Toy.no_faults (Toy.one_chunk "c1" (Some (1 # 2))))
      EmptyString [{| name := "a" |}; {| name := "b" |}] 3 false
      {| ConversationalRAG.history := {| maxlen := Some 5; items := [] |} |}
    = ({| ConversationalRAG.history :=
            append
              (EmptyString,
               concat_all
                 (map (fun ir =>
                         @chunk_text_of
                           (Toy.externals Toy.no_faults
                              (Toy.one_chunk "c1" (Some (1 # 2))))
                           ir.1 ir.2)
                      (zip (seqZ 0 2)
                           [{| document := "some text";
                               metadata :=
                                 {| chunk_id := "c1"; page_numbers := [1; 2];
                                    filename := "a.pdf" |};
                               similarity := 3 # 4 |};
                            {| document := "some text";
                               metadata :=
                                 {| chunk_id := "c1"; page_numbers := [1; 2];
                                    filename := "a.pdf" |};
                               similarity := 3 # 4 |}])))
              {| maxlen := Some 5; items := [] |} |},
       Ok reply)
    /\ retrieved reply
       = [{| document := "some text";
             metadata := {| chunk_id := "c1"; page_numbers := [1; 2];
                            filename := "a.pdf" |};
             similarity := 3 # 4 |};
          {| document := "some text";
             metadata := {| chunk_id := "c1"; page_numbers := [1; 2];
                            filename := "a.pdf" |};
             similarity := 3 # 4 |}].
Proof.
  destruct (@conversational_rag_shows_all
              (Toy.externals Toy.no_faults (Toy.one_chunk "c1" (Some (1 # 2))))
              EmptyString [{| name := "a" |}; {| name := "b" |}] 3
              [{| document := "some text";
                  metadata := {| chunk_id := "c1"; page_numbers := [1; 2];
                                 filename := "a.pdf" |};
                  similarity := 3 # 4 |};
               {| document := "some text";
                  metadata := {| chunk_id := "c1"; page_numbers := [1; 2];
                                 filename := "a.pdf" |};
                  similarity := 3 # 4 |}]
              {| ConversationalRAG.history :=
                   {| maxlen := Some 5; items := [] |} |})
    as (reply & Hcall & Hretrieved & _).
  - discriminate.
  - vm_compute. reflexivity.
  - discriminate.
  - exists reply. split; [exact Hcall | exact Hretrieved].
Defined.

End ConversationalFacts.

(** ** [load_pdfs_from_directory] *)

Module LoaderFacts.

Import Py File Chroma ChromaUtils Loader Spec SpecMore PyListFacts AddFacts
  AddMore ExtractMore.

Section WithExternals.

Context `{Externals} `{FileSystem}.

(** Hashing an open file, from wherever it was left. *)
Lemma hash_from db data k :
  on_file get_pdf_hash (db, {| closed := false; content := data; pos := k |})
  = ((db, {| closed := false; content := data;
             pos := Nat.max k (String.length data) |}),
     Ok (Some (md5_hexdigest
                 (String.substring k (String.length data - k) data)))).
Proof. reflexivity. Qed.

(** Once the file is read to its end, every id is built on the digest of
    the empty string. *)
Lemma ids_at_end db data k js : forall (acc : list string),
  (String.length data <= k)%nat ->
  for_each_M
    (fun (ids_chunk : list string) (j : Z) =>
       h ← on_file get_pdf_hash;
       mret (ids_chunk ++ [str_of_hash h +:+ "_" +:+ PyStr.str_of_int j]))
    acc js (db, {| closed := false; content := data; pos := k |})
  = ((db, {| closed := false; content := data; pos := k |}),
     Ok (acc ++ map (fun j => md5_hexdigest EmptyString +:+ "_"
                                +:+ PyStr.str_of_int j) js)).
Proof.
  induction js as [|j js IH]; intros acc Hk; cbn [for_each_M map].
  - now rewrite app_nil_r.
  - unfold mbind at 1, M_bind at 1. unfold mbind at 1, M_bind at 1.
    rewrite hash_from. unfold mret at 1, M_ret at 1.
    replace (Nat.max k (String.length data)) with k by lia.
    replace (String.length data - k)%nat with 0%nat by lia.
    rewrite substring_none, IH by assumption.
    cbn [str_of_hash default]. now rewrite <- app_assoc.
Qed.

(** The ids the loader builds: only the first call of [get_pdf_hash] finds
    anything left to read. *)
Lemma ids_chunk_from db data k (chunks : list string) :
  chunks <> [] ->
  ids_chunk chunks (db, {| closed := false; content := data; pos := k |})
  = ((db, {| closed := false; content := data;
             pos := Nat.max k (String.length data) |}),
     Ok ((md5_hexdigest (String.substring k (String.length data - k) data)
            +:+ "_" +:+ PyStr.str_of_int 0)
         :: map (fun j => md5_hexdigest EmptyString +:+ "_"
                            +:+ PyStr.str_of_int j)
                (seqZ 1 (PyList.len chunks - 1)))).
Proof.
  intros Hne. unfold ids_chunk.
  destruct chunks as [|ch chunks]; [congruence|].
  unfold PyList.len. cbn [length]. rewrite seqZ_cons by lia.
  cbn [for_each_M].
  unfold mbind at 1, M_bind at 1. unfold mbind at 1, M_bind at 1.
  rewrite hash_from. unfold mret at 1, M_ret at 1.
  rewrite ids_at_end by lia. cbn [app str_of_hash default].
  replace (Z.pred (Z.of_nat (S (length chunks))))
    with (Z.of_nat (S (length chunks)) - 1) by lia.
  reflexivity.
Qed.

(** A hex digest of MD5 has 32 characters. *)
Hypothesis md5_hexdigest_length :
  forall data, String.length (md5_hexdigest data) = 32%nat.

(** X23: The ids the loader returns are not the ids in the store. For a PDF
    that [add_documents] has just processed, the loader returns the
    chunks that were stored, but builds each id on a fresh
    [get_pdf_hash(file)], without a [seek(0)]: the first on what the PDF
    reader left unread, the others on the empty string. The store has
    the ids built on the digest of the whole file. *)
Theorem load_file_ids filename acc db (f : file) texts embeddings :
  closed f = false ->
  pdf_reader (content f) = Ok (map Ok texts) ->
  (forall call, chroma_raises call = None) ->
  db !! ("pdf_" +:+ md5_hexdigest (content f)) = None
  \/ db !! ("pdf_" +:+ md5_hexdigest (content f)) = Some [] ->
  (Chunker.chunk_text (numbered 0 texts) 500 100).1 <> [] ->
  encode (Chunker.chunk_text (numbered 0 texts) 500 100).1 = Ok embeddings ->
  length embeddings = length (Chunker.chunk_text (numbered 0 texts) 500 100).1 ->
  let chunks := (Chunker.chunk_text (numbered 0 texts) 500 100).1 in
  let unread :=
    String.substring (pdf_reader_tell (content f))
      (String.length (content f) - pdf_reader_tell (content f)) (content f) in
  exists s' entries,
    load_file filename acc (db, f)
    = (s',
       Ok {| documents := documents acc ++ chunks;
             ids := ids acc
                    ++ (md5_hexdigest unread +:+ "_" +:+ PyStr.str_of_int 0)
                       :: map (fun j => md5_hexdigest EmptyString +:+ "_"
                                          +:+ PyStr.str_of_int j)
                              (seqZ 1 (PyList.len chunks - 1));
             collections :=
               collections acc
               ++ [{| name := "pdf_" +:+ md5_hexdigest (content f) |}] |})
    /\ s'.1 !! ("pdf_" +:+ md5_hexdigest (content f)) = Some entries
    /\ map entry_document entries = chunks
    /\ map entry_id entries = chunk_ids (md5_hexdigest (content f)) chunks.
Proof.
  intros Hopen Hpdf Hchroma Hdb Hchunks Henc Hlen. cbv zeta.
  destruct (add_documents_fresh md5_hexdigest_length filename db f texts
              embeddings Hopen Hpdf Hchroma Hdb Hchunks Henc Hlen)
    as (Hadd & Hms).
  cbv zeta in Hadd, Hms.
  destruct (zip_entries_length _ _ _ _
              (chunk_ids_length (md5_hexdigest (content f)) _) Hlen Hms)
    as (_ & Hids & Hdocs).
  unfold load_file.
  unfold mbind at 1, M_bind at 1. rewrite Hadd.
  unfold mbind at 1, M_bind at 1, on_file at 1, seek0. cbn [fst snd closed content].
  unfold mbind at 1, M_bind at 1, on_file at 1. cbn [fst snd].
  rewrite (ExtractFacts.extract_readable
             {| closed := false; content := content f; pos := 0 |}
             texts eq_refl Hpdf).
  cbn [content]. unfold Chunker.chunk_text_default.
  destruct (Chunker.chunk_text (numbered 0 texts) 500 100)
    as [chunks chunk_metadata]. cbn [fst snd] in *.
  unfold mbind at 1, M_bind at 1.
  rewrite (ids_chunk_from _ _ _ chunks Hchunks).
  unfold mret, M_ret.
  eexists _, _. split; [reflexivity|]. cbn [fst].
  split; [apply lookup_insert_eq|]. split; assumption.
Qed.

(** X24: A PDF that is in the store already gives its collection, and none of
    its chunks: [documents] and [ids] hold what this call has stored,
    not what the collections returned hold. *)
Theorem load_file_existing filename acc db (f : file) es :
  closed f = false ->
  db !! ("pdf_" +:+ md5_hexdigest (content f)) = Some es ->
  es <> [] ->
  chroma_raises (GetOrCreate ("pdf_" +:+ md5_hexdigest (content f))) = None ->
  chroma_raises (Count ("pdf_" +:+ md5_hexdigest (content f))) = None ->
  load_file filename acc (db, f)
  = ((db, {| closed := false; content := content f;
             pos := String.length (content f) |}),
     Ok {| documents := documents acc;
           ids := ids acc;
           collections :=
             collections acc
             ++ [{| name := "pdf_" +:+ md5_hexdigest (content f) |}] |}).
Proof.
  intros Hopen Hdb Hes Hget Hcount.
  unfold load_file. unfold mbind at 1, M_bind at 1.
  rewrite (add_documents_existing md5_hexdigest_length filename db f es
             Hopen Hdb Hes).
  rewrite Hget, Hcount. reflexivity.
Qed.

(** *** The lists returned *)

Lemma ids_loop_length js : forall (acc : list string) s s' l,
  for_each_M
    (fun (ids_chunk : list string) (j : Z) =>
       h ← on_file get_pdf_hash;
       mret (ids_chunk ++ [str_of_hash h +:+ "_" +:+ PyStr.str_of_int j]))
    acc js s = (s', Ok l) ->
  length l = (length acc + length js)%nat.
Proof.
  induction js as [|j js IH]; intros acc s s' l; cbn [for_each_M].
  - intros [= _ <-]. cbn. lia.
  - unfold mbind at 1, M_bind at 1. unfold mbind at 1, M_bind at 1.
    destruct (on_file get_pdf_hash s) as [s1 [h|e]]; [|discriminate].
    unfold mret at 1, M_ret at 1. intros Hrest.
    apply IH in Hrest. rewrite Hrest, length_app. cbn. lia.
Qed.

Lemma load_file_lengths filename acc s s' acc' :
  length (documents acc) = length (ids acc) ->
  load_file filename acc s = (s', Ok acc') ->
  length (documents acc') = length (ids acc').
Proof.
  intros Hacc. unfold load_file. unfold mbind at 1, M_bind at 1.
  destruct (add_documents filename s) as [s1 [[[c|] processed]|e]];
    [| now intros [= _ <-] | discriminate].
  destruct processed; [|intros [= _ <-]; exact Hacc].
  unfold mbind at 1, M_bind at 1.
  destruct (on_file seek0 s1) as [s2 [[]|e]]; [|discriminate].
  unfold mbind at 1, M_bind at 1.
  destruct (on_file extract_pdf_text_with_pages s2) as [s3 [page_texts|e]];
    [|discriminate].
  destruct (Chunker.chunk_text_default page_texts) as [chunks chunk_metadata].
  unfold mbind at 1, M_bind at 1.
  destruct (ids_chunk chunks s3) as [s4 [l|e]] eqn:Eids; [|discriminate].
  unfold ids_chunk in Eids. apply ids_loop_length in Eids.
  intros [= _ <-]. cbn [documents ids].
  rewrite !length_app, Eids, length_seqZ. unfold PyList.len. cbn. lia.
Qed.

Lemma load_name_lengths directory acc filename db :
  length (documents acc) = length (ids acc) ->
  exists db' acc',
    load_name directory acc filename db = (db', Ok acc')
    /\ length (documents acc') = length (ids acc').
Proof.
  intros Hacc. unfold load_name.
  destruct (endswith _ _); [|now exists db, acc].
  destruct (open_rb _) as [file|e]; [|now exists db, acc].
  destruct (load_file filename acc (db, file)) as [s [acc'|e]] eqn:Eload.
  - exists s.1, acc'. split; [reflexivity|].
    now apply (load_file_lengths filename acc (db, file) s acc').
  - now exists s.1, acc.
Qed.

Lemma load_directory_lengths directory acc db db' acc' :
  length (documents acc) = length (ids acc) ->
  load_directory directory acc db = (db', Ok acc') ->
  length (documents acc') = length (ids acc').
Proof.
  unfold load_directory, mbind, M_bind, lift.
  destruct (listdir directory) as [names|e]; [|discriminate].
  revert acc db. induction names as [|n names IH]; intros acc db Hacc;
    cbn [for_each_M].
  - now intros [= _ <-].
  - unfold mbind, M_bind.
    destruct (load_name_lengths directory acc n db Hacc)
      as (db1 & acc1 & -> & Hacc1).
    now apply IH.
Qed.

(** X25: When the body of [load_pdfs_from_directory] returns, it returns as
    many ids as documents, whichever files could be read and whichever
    were processed. *)
Theorem load_pdfs_lengths directory db db' r :
  load_pdfs_from_directory_body directory db = (db', Ok r) ->
  length (documents r) = length (ids r).
Proof.
  unfold load_pdfs_from_directory_body. cbv zeta.
  unfold mbind at 1, M_bind at 1.
  destruct ((if negb (path_exists (normpath directory))
             then mret {| documents := []; ids := []; collections := [] |}
             else load_directory (normpath directory)
                    {| documents := []; ids := []; collections := [] |}) db)
    as [db1 [acc|e]] eqn:Efirst; [|discriminate].
  assert (Hacc : length (documents acc) = length (ids acc)).
  { destruct (negb (path_exists (normpath directory))).
    - now inversion Efirst.
    - now apply load_directory_lengths in Efirst. }
  destruct (negb (PyList.truthy (collections acc))); [|now intros [= _ <-]].
  destruct PDF_Directory as [default_pdf|]; [|discriminate].
  destruct (path_exists default_pdf); [|now intros [= _ <-]].
  now apply load_directory_lengths.
Qed.

End WithExternals.

(** The first PDF of the toy directory: stored under the digest of the
    file, returned under the digest of nothing. *)
Lemma load_file_ids_witness :
  (forall data, String.length (Toy.take_pad 32 data) = 32%nat)
  /\ exists s' entries,
       @load_file (Toy.externals Toy.no_faults Toy.no_query) "a.pdf"
         {| documents := []; ids := []; collections := [] |}
         (∅, Toy.open_file "hello world")
       = (s',
          Ok {| documents := ["hello world"%string];
                ids := ["00000000000000000000000000000000_0"%string];
                collections :=
                  [{| name := "pdf_hello world000000000000000000000" |}] |})
       /\ s'.1 !! "pdf_hello world000000000000000000000"%string = Some entries
       /\ map entry_id entries = ["hello world000000000000000000000_0"%string].
Proof.
  split; [exact (take_pad_length 32)|].
  destruct (@load_file_ids (Toy.externals Toy.no_faults Toy.no_query)
              (take_pad_length 32) "a.pdf"
              {| documents := []; ids := []; collections := [] |}
              ∅ (Toy.open_file "hello world")
              [Some "hello world"%string] [[inject_Z 11]])
    as (s' & entries & Hload & Hstored & _ & Hids).
  - reflexivity.
  - vm_compute. reflexivity.
  - intros call. reflexivity.
  - left. apply lookup_empty.
  - vm_compute. discriminate.
  - vm_compute. reflexivity.
  - vm_compute. reflexivity.
  - exists s', entries. split; [exact Hload|]. split; [exact Hstored|].
    exact Hids.
Defined.

Lemma load_file_existing_witness :
  (forall data, String.length (Toy.take_pad 32 data) = 32%nat)
  /\ (@load_file (Toy.externals Toy.no_faults Toy.no_query) "a.pdf"
        {| documents := []; ids := []; collections := [] |}
        ({[ "pdf_hello world000000000000000000000"%string :=
              [{| entry_id := "hello world000000000000000000000_0";
                  entry_document := "hello world";
                  entry_embedding := [inject_Z 11];
                  entry_metadata := ∅ |}] ]},
         Toy.open_file "hello world")).2
     = Ok {| documents := []; ids := [];
             collections :=
               [{| name := "pdf_hello world000000000000000000000" |}] |}.
Proof.
  split; [exact (take_pad_length 32)|].
  rewrite (@load_file_existing (Toy.externals Toy.no_faults Toy.no_query)
             (take_pad_length 32) "a.pdf"
             {| documents := []; ids := []; collections := [] |}
             {[ "pdf_hello world000000000000000000000"%string :=
                  [{| entry_id := "hello world000000000000000000000_0";
                      entry_document := "hello world";
                      entry_embedding := [inject_Z 11];
                      entry_metadata := ∅ |}] ]}
             (Toy.open_file "hello world")
             [{| entry_id := "hello world000000000000000000000_0";
                 entry_document := "hello world";
                 entry_embedding := [inject_Z 11];
                 entry_metadata := ∅ |}]).
  - reflexivity.
  - reflexivity.
  - vm_compute. reflexivity.
  - discriminate.
  - reflexivity.
  - reflexivity.
Defined.

(** The toy directory: two PDFs are loaded, the text file is not. *)
Example load_pdfs_ex :
  (@load_pdfs_from_directory_body
     (Toy.externals Toy.no_faults Toy.no_query) ToyFS.fs "docs" ∅).2
  = Ok {| documents := ["hello world"; "more words here"]%string;
          ids := ["00000000000000000000000000000000_0";
                  "00000000000000000000000000000000_0"]%string;
          collections :=
            [{| name := "pdf_hello world000000000000000000000" |};
             {| name := "pdf_more words|here00000000000000000" |}] |}.
Proof. vm_compute. reflexivity. Qed.

Lemma load_pdfs_lengths_witness :
  exists r,
    (@load_pdfs_from_directory_body
       (Toy.externals Toy.no_faults Toy.no_query) ToyFS.fs "docs" ∅).2 = Ok r
    /\ length (documents r) = length (ids r).
Proof.
  destruct (@load_pdfs_from_directory_body
              (Toy.externals Toy.no_faults Toy.no_query) ToyFS.fs "docs" ∅)
    as [db' [r|e]] eqn:Eload.
  - exists r. split; [reflexivity|].
    exact (@load_pdfs_lengths (Toy.externals Toy.no_faults Toy.no_query)
             ToyFS.fs "docs" ∅ db' r Eload).
  - exfalso. apply (f_equal snd) in Eload. vm_compute in Eload. discriminate.
Defined.

End LoaderFacts.

(** ** The structured variants *)

Module StructuringFacts.

Import Py Chroma ChromaUtils Structuring Spec PyListFacts QueryFacts
  VariantMore.

(** Nothing after the first result beats it, when the results come
    largest first. *)
Lemma best_of_descending (first : hit) rest :
  descending (first :: rest) -> best_result (first :: rest) = Ok first.
Proof.
  intros Hdesc. apply StronglySorted_inv in Hdesc as [_ Hall].
  cbn [best_result]. f_equal.
  induction rest as [|r rest IH]; [reflexivity|].
  apply Forall_cons in Hall as [Hr Hall]. cbn [foldl].
  apply Qle_bool_iff in Hr. rewrite Hr. now apply IH.
Qed.

Lemma slice_to_descending k l : descending l -> descending (PyList.slice_to k l).
Proof. intros Hl. unfold PyList.slice_to. now apply descending_take. Qed.

Lemma unique_loop all_results : forall st,
  unique_results (foldl unique_step st all_results)
  = unique_results st ++ first_by_chunk_id (chunk_ids st) all_results.
Proof.
  unfold first_by_chunk_id.
  induction all_results as [|h l IH]; intros st; cbn [foldl first_by].
  - now rewrite app_nil_r.
  - rewrite IH. unfold unique_step.
    destruct (bool_decide _); [reflexivity|].
    cbn. now rewrite <- app_assoc.
Qed.

Lemma first_by_sublist {A} (key : A -> string) l : forall seen x,
  x ∈ first_by key seen l -> x ∈ l.
Proof.
  induction l as [|y l IH]; intros seen x Hx; cbn [first_by] in Hx.
  - assumption.
  - destruct (bool_decide _).
    + apply list_elem_of_further. now apply IH in Hx.
    + apply elem_of_cons in Hx as [->|Hx]; [apply list_elem_of_here|].
      apply list_elem_of_further. now apply IH in Hx.
Qed.

(** X26: The selection of [agentic_rag]: results of [all_results] with
    pairwise different chunk ids, largest similarity first, at most
    [top_k] of them; so the [max] of line 145 is their first. *)
Theorem select_unique_sorted all_results top_k :
  NoDup (map (fun h => chunk_id (metadata h)) (select all_results top_k))
  /\ descending (select all_results top_k)
  /\ (forall h, h ∈ select all_results top_k -> h ∈ all_results)
  /\ (0 <= top_k -> PyList.len (select all_results top_k) <= top_k)
  /\ best_result (select all_results top_k)
     = match select all_results top_k with
       | [] => Raise (Exn "ValueError" "max() arg is an empty sequence")
       | first :: _ => Ok first
       end.
Proof.
  assert (Hdesc : descending (select all_results top_k)).
  { apply slice_to_descending, sorted_desc_descending. }
  split; [|split; [exact Hdesc|split; [|split]]].
  - unfold select. rewrite unique_loop. cbn [unique_results chunk_ids app].
    unfold PyList.slice_to.
    change (map (fun h : hit => chunk_id (metadata h)))
      with (fmap (M := list) (fun h : hit => chunk_id (metadata h))).
    rewrite fmap_take. eapply sublist_NoDup; [|apply sublist_take].
    rewrite sorted_desc_perm. apply first_by_NoDup.
  - intros h Hh. unfold select in Hh. rewrite unique_loop in Hh.
    cbn [unique_results chunk_ids app] in Hh.
    unfold PyList.slice_to in Hh. apply elem_of_take in Hh as (i & Hi & _).
    apply list_elem_of_lookup_2 in Hi. rewrite sorted_desc_perm in Hi.
    now apply first_by_sublist in Hi.
  - intros Hk. now apply slice_to_length.
  - destruct (select all_results top_k) as [|first rest]; [reflexivity|].
    now apply best_of_descending.
Qed.

Section WithExternals.

Context `{Externals}.

Lemma query_collections_descending query collections top_k results :
  query_collections query collections top_k = Ok results ->
  descending results.
Proof.
  intros Hq.
  destruct (query_collections_cases query collections top_k) as [Hbody|Hnil].
  - rewrite Hbody in Hq.
    destruct (query_collections_body_ok _ _ _ _ Hq)
      as (emb & e0 & per & _ & _ & _ & ->).
    apply slice_to_descending, sorted_desc_descending.
  - rewrite Hnil in Hq. inversion Hq. constructor.
Qed.

(** X27: The direct structuring of [structured_output_rag] takes its summary
    and its source from the first result: [query_collections] returns
    the results largest similarity first, and [max] keeps the first of
    the largest. *)
Theorem best_result_is_first query collections top_k first rest :
  query_collections query collections top_k = Ok (first :: rest) ->
  best_result (first :: rest) = Ok first.
Proof.
  intros Hq. apply best_of_descending.
  exact (query_collections_descending query collections top_k _ Hq).
Qed.

End WithExternals.

Lemma best_result_is_first_witness :
  best_result
    [{| document := "some text";
        metadata := {| chunk_id := "c1"; page_numbers := [1; 2];
                       filename := "a.pdf" |};
        similarity := 3 # 4 |};
     {| document := "some text";
        metadata := {| chunk_id := "c1"; page_numbers := [1; 2];
                       filename := "a.pdf" |};
        similarity := 3 # 4 |}]
  = Ok {| document := "some text";
          metadata := {| chunk_id := "c1"; page_numbers := [1; 2];
                         filename := "a.pdf" |};
          similarity := 3 # 4 |}.
Proof.
  apply (@best_result_is_first
           (Toy.externals Toy.no_faults (Toy.one_chunk "c1" (Some (1 # 2))))
           "q" [{| name := "a" |}; {| name := "b" |}] 3).
  vm_compute. reflexivity.
Defined.

End StructuringFacts.
